(** * ETF update tool: return and risk calculator

    A shallow embedding of the calculation core of [update_etf_data.py]
    (the functions [get_previous_week_last_trading_day],
    [get_last_trading_day_of_month], [calculate_volatility_and_mdd],
    [calculate_52week_high_drawdown], [calculate_returns] and the batch loop
    of [process_etf_data]) together with the properties of the specification
    that were checked against it.

    Conventions of the embedding:
    - a Python [float] / [numpy.float64] is a primitive binary64 [float];
    - a [datetime.date] is its proleptic Gregorian ordinal (a [Z] between 1
      and 3652059), the year, month and day being recovered as CPython does;
    - a raising computation returns [Raise e] in the [result] monad, and a
      [try ... except Exception] is a match on that outcome;
    - a tuple returned to the caller is a list of [pyval]. *)

From Stdlib Require Import ZArith List Bool Lia String Ascii Floats Sorted.
Import ListNotations.

#[local] Set Warnings "-inexact-float".

Local Open Scope Z_scope.

(** ** Exceptions and the result monad *)

Inductive exn : Type :=
| IndexError
| OverflowError
| ValueError
| ZeroDivisionError.

Inductive result (A : Type) : Type :=
| Ok (a : A)
| Raise (e : exn).
Arguments Ok {A} a.
Arguments Raise {A} e.

Definition bind {A B : Type} (m : result A) (k : A -> result B) : result B :=
  match m with
  | Ok a => k a
  | Raise e => Raise e
  end.

Notation "x <- m ;; k" := (bind m (fun x => k))
  (at level 61, m at next level, right associativity).

(** [try: m except: h] is Python's [try: m except Exception: h]. *)
Definition try_except {A : Type} (m : result A) (h : exn -> result A) : result A :=
  match m with
  | Ok a => Ok a
  | Raise e => h e
  end.

(** ** Python sequences: [len], [seq[i]] with negative indices, [tail] *)

Definition len {A : Type} (l : list A) : Z := Z.of_nat (List.length l).

(** [iloc l i] is [l.iloc[i]] (and [l[i]] on a positional index): a negative
    [i] counts from the end, and a position outside the sequence raises. *)
Definition iloc {A : Type} (l : list A) (i : Z) : result A :=
  let j := if i <? 0 then len l + i else i in
  if (j <? 0) || (len l <=? j) then Raise IndexError
  else match nth_error l (Z.to_nat j) with
       | Some a => Ok a
       | None => Raise IndexError
       end.

(** [tail l n] is [l.tail(n)] for [0 <= n]: the last [n] elements. *)
Definition tail {A : Type} (l : list A) (n : Z) : list A :=
  skipn (List.length l - Z.to_nat n) l.

(** ** [datetime.date]

    The functions below follow CPython's [datetime] module. *)

Module Date.

Definition date := Z.

Definition MINYEAR : Z := 1.
Definition MAXYEAR : Z := 9999.
Definition MAXORDINAL : Z := 3652059.

Definition is_leap (year : Z) : bool :=
  (year mod 4 =? 0) && (negb (year mod 100 =? 0) || (year mod 400 =? 0)).

Definition days_before_year (year : Z) : Z :=
  let y := year - 1 in
  y * 365 + y / 4 - y / 100 + y / 400.

Definition DAYS_IN_MONTH (month : Z) : Z :=
  match month with
  | 1 => 31 | 2 => 28 | 3 => 31 | 4 => 30 | 5 => 31 | 6 => 30
  | 7 => 31 | 8 => 31 | 9 => 30 | 10 => 31 | 11 => 30 | 12 => 31
  | _ => -1
  end.

Definition DAYS_BEFORE_MONTH (month : Z) : Z :=
  match month with
  | 1 => 0 | 2 => 31 | 3 => 59 | 4 => 90 | 5 => 120 | 6 => 151
  | 7 => 181 | 8 => 212 | 9 => 243 | 10 => 273 | 11 => 304 | 12 => 334
  | _ => -1
  end.

Definition days_in_month (year month : Z) : Z :=
  if (month =? 2) && is_leap year then 29 else DAYS_IN_MONTH month.

Definition days_before_month (year month : Z) : Z :=
  DAYS_BEFORE_MONTH month + (if (2 <? month) && is_leap year then 1 else 0).

Definition ymd2ord (year month day : Z) : Z :=
  days_before_year year + days_before_month year month + day.

Definition DI400Y : Z := 146097.
Definition DI100Y : Z := 36524.
Definition DI4Y : Z := 1461.

Definition ord2ymd (ordinal : Z) : Z * Z * Z :=
  let n := ordinal - 1 in
  let n400 := n / DI400Y in
  let n := n mod DI400Y in
  let year := n400 * 400 + 1 in
  let n100 := n / DI100Y in
  let n := n mod DI100Y in
  let n4 := n / DI4Y in
  let n := n mod DI4Y in
  let n1 := n / 365 in
  let n := n mod 365 in
  let year := year + n100 * 100 + n4 * 4 + n1 in
  if (n1 =? 4) || (n100 =? 4) then (year - 1, 12, 31)
  else
    let leapyear := (n1 =? 3) && (negb (n4 =? 24) || (n100 =? 3)) in
    let month := Z.shiftr (n + 50) 5 in
    let preceding :=
      DAYS_BEFORE_MONTH month + (if (2 <? month) && leapyear then 1 else 0) in
    if n <? preceding then
      let month := month - 1 in
      let preceding :=
        preceding - (DAYS_IN_MONTH month
                     + (if (month =? 2) && leapyear then 1 else 0)) in
      (year, month, n - preceding + 1)
    else (year, month, n - preceding + 1).

Definition year (d : date) : Z := fst (fst (ord2ymd d)).
Definition month (d : date) : Z := snd (fst (ord2ymd d)).
Definition day (d : date) : Z := snd (ord2ymd d).

(** The constructor [date(year, month, day)], which checks its fields. *)
Definition make (y m d : Z) : result date :=
  if (MINYEAR <=? y) && (y <=? MAXYEAR)
     && (1 <=? m) && (m <=? 12)
     && (1 <=? d) && (d <=? days_in_month y m)
  then Ok (ymd2ord y m d)
  else Raise ValueError.

(** [d.replace(year=..., month=..., day=...)]: the fields that are not given
    are those of [d]; the new date is checked as by the constructor. *)
Definition replace (d : date) (y m dd : option Z) : result date :=
  make (match y with Some v => v | None => year d end)
       (match m with Some v => v | None => month d end)
       (match dd with Some v => v | None => day d end).

(** [d - timedelta(days=n)]. *)
Definition sub_days (d : date) (n : Z) : result date :=
  let o := d - n in
  if (0 <? o) && (o <=? MAXORDINAL) then Ok o else Raise OverflowError.

(** [d.weekday()]: Monday is 0 and Sunday is 6. *)
Definition weekday (d : date) : Z := (d + 6) mod 7.

(** A well-formed date object. *)
Definition valid (d : date) : Prop := 1 <= d <= MAXORDINAL.

Definition two_digits (n : Z) : string :=
  String (ascii_of_nat (48 + Z.to_nat (n / 10 mod 10)))
    (String (ascii_of_nat (48 + Z.to_nat (n mod 10))) EmptyString).

(** [d.strftime('%Y-%m-%d')], the year on four digits. *)
Definition strftime_ymd (d : date) : string :=
  (two_digits (year d / 100) ++ two_digits (year d) ++ "-"
   ++ two_digits (month d) ++ "-" ++ two_digits (day d))%string.

End Date.

(** ** [datetime.time] and [datetime.datetime] *)

Record time : Type := mk_time {
  hour : Z;
  minute : Z;
  second : Z;
  microsecond : Z
}.

(** [t1 < t2] and [t1 >= t2] on times compare the fields in order. *)
Definition time_ltb (t1 t2 : time) : bool :=
  (hour t1 <? hour t2)
  || ((hour t1 =? hour t2)
      && ((minute t1 <? minute t2)
          || ((minute t1 =? minute t2)
              && ((second t1 <? second t2)
                  || ((second t1 =? second t2)
                      && (microsecond t1 <? microsecond t2)))))).

Definition time_geb (t1 t2 : time) : bool := negb (time_ltb t1 t2).

(** [datetime.strptime("09:30", "%H:%M").time()] and the same for "16:00". *)
Definition time_09_30 : time := mk_time 9 30 0 0.
Definition time_16_00 : time := mk_time 16 0 0 0.

Record datetime : Type := mk_datetime {
  dt_date : Date.date;
  dt_time : time
}.

(** The two readings of the wall clock the code takes: [datetime.now()] in
    the fall-back records and [datetime.now(pytz.timezone('US/Eastern'))] in
    the session selection. *)
Record clock : Type := mk_clock {
  now_local : datetime;
  now_eastern : datetime
}.

(** ** Price series

    A [pandas.Series] of closes indexed by timestamps, in index order.  A
    timestamp is the pair of its calendar date and its time of day; only
    [.date()] is ever taken of it. *)

Record Timestamp : Type := mk_ts {
  ts_date : Date.date;
  ts_time : time
}.

Definition series : Type := list (Timestamp * float).

Definition index (s : series) : list Timestamp := map fst s.
Definition values (s : series) : list float := map snd s.

(** [price_series.index.date] *)
Definition index_date (s : series) : list Date.date := map ts_date (index s).

(** [pd.Series(...).drop_duplicates()]: the first occurrence of each date is
    kept, in order. *)
Fixpoint drop_duplicates_from (seen : list Date.date) (l : list Date.date)
  : list Date.date :=
  match l with
  | [] => []
  | d :: r =>
      if existsb (Z.eqb d) seen then drop_duplicates_from seen r
      else d :: drop_duplicates_from (d :: seen) r
  end.

Definition drop_duplicates (l : list Date.date) : list Date.date :=
  drop_duplicates_from [] l.

(** [price_series[price_series.index.date == d]] *)
Definition on_date (s : series) (d : Date.date) : series :=
  filter (fun o => ts_date (fst o) =? d) s.

(** [s.empty] *)
Definition empty {A : Type} (l : list A) : bool := len l =? 0.

(** [data.iloc[-1] if not data.empty else default] *)
Definition iloc_last_or (data : series) (default : float) : result float :=
  if negb (empty data) then iloc (values data) (-1) else Ok default.

(** ** Float columns: the pandas and numpy operations the code calls

    Arithmetic is IEEE 754 binary64 as numpy performs it: a division by zero
    yields an infinity or a NaN and raises nothing.  Sums are taken from left
    to right. *)

Local Open Scope float_scope.

(** [x != y] on floats: true when either side is a NaN. *)
Definition fneb (x y : float) : bool := negb (x =? y).

(** The float of an element count. *)
Definition float_of_nat (n : nat) : float :=
  PrimFloat.of_uint63 (Uint63.of_Z (Z.of_nat n)).

(** [s.dropna()] *)
Definition dropna (l : list float) : list float :=
  filter (fun x => negb (is_nan x)) l.

(** [s.pct_change()]: [s / s.shift(1) - 1], the first entry being a NaN
    (missing entries are left as they are, not filled forward). *)
Fixpoint pct_change_from (prev : float) (l : list float) : list float :=
  match l with
  | [] => []
  | x :: r => (x / prev - 1) :: pct_change_from x r
  end.

Definition pct_change (l : list float) : list float :=
  match l with
  | [] => []
  | x :: r => nan :: pct_change_from x r
  end.

(** The sum of a column, its entries added from left to right.  numpy adds
    the entries of a long column (eight and more) in blocks, which can change
    the last bits of the sum; no statement below depends on the order of the
    additions. *)
Definition fsum (l : list float) : float := fold_left PrimFloat.add l 0.

(** [s.std()]: the sample standard deviation (ddof = 1) of the entries that
    are not NaN; a NaN when at most one entry is left. *)
Definition std (l : list float) : float :=
  let xs := dropna l in
  let count := List.length xs in
  if (count <=? 1)%nat then nan
  else
    let avg := fsum xs / float_of_nat count in
    let sqr := map (fun x => (avg - x) * (avg - x)) xs in
    sqrt (fsum sqr / float_of_nat (count - 1)).

(** [s.cummax()]: the running maximum; a NaN entry stays a NaN and leaves the
    running maximum as it is. *)
Fixpoint cummax_from (m : option float) (l : list float) : list float :=
  match l with
  | [] => []
  | x :: r =>
      if is_nan x then nan :: cummax_from m r
      else
        let m' := match m with
                  | None => x
                  | Some y => if y <? x then x else y
                  end in
        m' :: cummax_from (Some m') r
  end.

Definition cummax (l : list float) : list float := cummax_from None l.

(** [s.min()] and [s.max()]: over the entries that are not NaN; a NaN when
    there is none. *)
Definition fmin (a b : float) : float := if b <? a then b else a.
Definition fmax (a b : float) : float := if a <? b then b else a.

Definition nanmin (l : list float) : float :=
  match dropna l with
  | [] => nan
  | x :: r => fold_left fmin r x
  end.

Definition nanmax (l : list float) : float :=
  match dropna l with
  | [] => nan
  | x :: r => fold_left fmax r x
  end.

(** Element-wise [(a - b) / b * 100] of two columns of one length. *)
Fixpoint drawdown_of (prices maxima : list float) : list float :=
  match prices, maxima with
  | p :: ps, m :: ms => ((p - m) / m * 100) :: drawdown_of ps ms
  | _, _ => []
  end.

Local Open Scope Z_scope.

(** ** Trading calendar *)

(** The target date of [get_previous_week_last_trading_day], by the weekday
    of [base_date]. *)
Definition previous_week_target (base_date : Date.date) : result Date.date :=
  let current_weekday := Date.weekday base_date in
  if current_weekday =? 0 then Date.sub_days base_date 3
  else if current_weekday =? 4 then Date.sub_days base_date 7
  else
    let days_to_subtract := (current_weekday + 3) mod 7 in
    Date.sub_days base_date days_to_subtract.

(** [price_series.index[0].date()] *)
Definition first_index_date (price_series : series) : result Date.date :=
  t <- iloc (index price_series) 0 ;; Ok (ts_date t).

(** [if base_date > last: base_date = last] *)
Definition clamp_to_last (base_date last : Date.date) : Date.date :=
  if last <? base_date then last else base_date.

(** [get_previous_week_last_trading_day(base_date, price_series)] *)
Definition get_previous_week_last_trading_day
  (base_date : Date.date) (price_series : series) : result Date.date :=
  try_except
    (let date_index := drop_duplicates (index_date price_series) in
     last <- iloc date_index (-1) ;;
     let base_date := clamp_to_last base_date last in
     target_date <- previous_week_target base_date ;;
     let past_trading_days := filter (fun d => d <=? target_date) date_index in
     if empty past_trading_days then first_index_date price_series
     else iloc past_trading_days (-1))
    (fun _ => first_index_date price_series).

(** The [while] loop of [get_last_trading_day_of_month]: [test_date] walks
    down one day at a time from the end of the month; [n] is the number of
    days left above the loop bound, [test_date - lower], so that the loop
    condition [test_date > lower] is [n <> 0]. *)
Fixpoint scan_month (date_values : list Date.date) (test_date : Date.date)
  (n : nat) : option Date.date :=
  match n with
  | O => None
  | S k =>
      if existsb (Z.eqb test_date) date_values then Some test_date
      else scan_month date_values (test_date - 1) k
  end.

(** The first day of the month after [base_date]'s, the last day of
    [base_date]'s month, and the day before its first day. *)
Definition next_month_first_day (base_date : Date.date) : result Date.date :=
  if Date.month base_date =? 12
  then Date.replace base_date (Some (Date.year base_date + 1)) (Some 1) (Some 1)
  else Date.replace base_date None (Some (Date.month base_date + 1)) (Some 1).

Definition end_of_month (base_date : Date.date) : result Date.date :=
  d <- next_month_first_day base_date ;; Date.sub_days d 1.

Definition month_lower_bound (base_date : Date.date) : result Date.date :=
  d <- Date.replace base_date None None (Some 1) ;; Date.sub_days d 1.

(** [get_last_trading_day_of_month(base_date, price_series)] *)
Definition get_last_trading_day_of_month
  (base_date : Date.date) (price_series : series) : result Date.date :=
  try_except
    (let date_index := drop_duplicates (index_date price_series) in
     end_of_month <- end_of_month base_date ;;
     lower <- month_lower_bound base_date ;;
     match scan_month date_index end_of_month (Z.to_nat (end_of_month - lower)) with
     | Some test_date => Ok test_date
     | None => iloc date_index 0
     end)
    (fun _ => first_index_date price_series).

(** ** Risk measures *)

Local Open Scope float_scope.

(** One volatility horizon of [calculate_volatility_and_mdd]: the trailing
    [days] observations, their period-over-period changes, the sample
    standard deviation annualised by [sqrt(252) * 100]. *)
Definition window_volatility (prices : list float) (days : Z) : float :=
  let data := tail prices (Z.min days (len prices)) in
  if (len data <? 2)%Z then 0
  else
    let daily_returns := dropna (pct_change data) in
    std daily_returns * sqrt 252 * 100.

(** The maximum drawdown of [calculate_volatility_and_mdd]. *)
Definition max_drawdown (prices : list float) : float :=
  let cummax := cummax prices in
  let drawdown := drawdown_of prices cummax in
  nanmin drawdown.

(** [calculate_volatility_and_mdd(price_series)] with its default horizons
    of 5, 22 and 252 observations. *)
Definition calculate_volatility_and_mdd (price_series : series)
  : float * float * float * float :=
  let body : result (float * float * float * float) :=
    if (len price_series <? 2)%Z then Ok (0, 0, 0, 0)
    else
      let prices := values price_series in
      let ultra_short_term_vol := window_volatility prices 5 in
      let short_term_vol := window_volatility prices 22 in
      let long_term_vol := window_volatility prices 252 in
      let mdd := max_drawdown prices in
      Ok (ultra_short_term_vol, short_term_vol, long_term_vol, mdd) in
  match body with
  | Ok r => r
  | Raise _ => (0, 0, 0, 0)
  end.

(** [calculate_52week_high_drawdown(price_series)] *)
Definition calculate_52week_high_drawdown (price_series : series) : float :=
  let body : result float :=
    if (len price_series <? 2)%Z then Ok 0
    else
      let prices := values price_series in
      let recent_data := tail prices (Z.min 252 (len prices)) in
      let high_52week := nanmax recent_data in
      current_price <- iloc prices (-1) ;;
      Ok ((current_price - high_52week) / high_52week * 100) in
  match body with
  | Ok r => r
  | Raise _ => 0
  end.

(** ** Returns *)

(** The nested [safe_return(current, base)] of [calculate_returns]. *)
Definition safe_return (current base : float) : float :=
  if fneb base 0 then ((current - base) / base) * 100 else 0.

Definition risk_free_rate : float := 0.05.

Local Open Scope Z_scope.

(** The session selection of [calculate_returns]: which two observations
    count as latest and previous, and the base date. *)
Definition select_session (clk : clock) (price_series : series)
  : result (Z * Z * Date.date) :=
  let now := now_eastern clk in
  let current_time := dt_time now in
  let current_date := dt_date now in
  last_ts <- iloc (index price_series) (-1) ;;
  let last_trading_day := Z.min current_date (ts_date last_ts) in
  let market_open_today :=
    (last_trading_day =? current_date) && time_geb current_time time_09_30 in
  let '(latest_idx, previous_idx) :=
    if market_open_today then
      if time_ltb current_time time_16_00 then
        if 2 <? len price_series then (-2, -3) else (-1, -2)
      else (-1, -2)
    else (-1, -2) in
  latest_ts <- iloc (index price_series) latest_idx ;;
  Ok (latest_idx, previous_idx, ts_date latest_ts).

(** The local variables of [calculate_returns] once it has run to its
    [return] statement. *)
Record locals : Type := mk_locals {
  latest_idx : Z;
  previous_idx : Z;
  base_date : Date.date;
  latest_close : float;
  previous_close : float;
  weekly_base_date : Date.date;
  weekly_base_close : float;
  monthly_base_date : Date.date;
  monthly_base_close : float;
  ytd_base_date : Date.date;
  ytd_base_close : float;
  days_22_date : Date.date;
  days_132_date : Date.date;
  days_264_date : Date.date;
  days_22_close : float;
  days_132_close : float;
  days_264_close : float;
  ultra_short_term_vol : float;
  short_term_vol : float;
  long_term_vol : float;
  mdd : float;
  drawdown_from_high : float
}.

(** The body of [calculate_returns] from the session selection down to the
    risk measures (the series has at least two observations here). *)
Definition compute_locals (clk : clock) (price_series : series) : result locals :=
  sel <- select_session clk price_series ;;
  let '(latest_idx, previous_idx, base_date) := sel in
  latest_close <- iloc (values price_series) latest_idx ;;
  previous_close <-
    (if Z.abs previous_idx <=? len price_series
     then iloc (values price_series) previous_idx
     else Ok latest_close) ;;
  weekly_base_date <- get_previous_week_last_trading_day base_date price_series ;;
  let weekly_data := on_date price_series weekly_base_date in
  weekly_base_close <- iloc_last_or weekly_data latest_close ;;
  first_of_month <- Date.replace base_date None None (Some 1) ;;
  last_month <- Date.sub_days first_of_month 1 ;;
  monthly_base_date <- get_last_trading_day_of_month last_month price_series ;;
  let monthly_data := on_date price_series monthly_base_date in
  monthly_base_close <- iloc_last_or monthly_data latest_close ;;
  last_year <-
    Date.replace base_date (Some (Date.year base_date - 1)) (Some 12) (Some 31) ;;
  ytd_base_date <- get_last_trading_day_of_month last_year price_series ;;
  let ytd_data := on_date price_series ytd_base_date in
  ytd_base_close <- iloc_last_or ytd_data latest_close ;;
  back_22 <- Date.sub_days base_date 22 ;;
  days_22_date <- get_previous_week_last_trading_day back_22 price_series ;;
  back_132 <- Date.sub_days base_date 132 ;;
  days_132_date <- get_previous_week_last_trading_day back_132 price_series ;;
  back_264 <- Date.sub_days base_date 264 ;;
  days_264_date <- get_previous_week_last_trading_day back_264 price_series ;;
  let days_22_data := on_date price_series days_22_date in
  days_22_close <- iloc_last_or days_22_data latest_close ;;
  let days_132_data := on_date price_series days_132_date in
  days_132_close <- iloc_last_or days_132_data latest_close ;;
  let days_264_data := on_date price_series days_264_date in
  days_264_close <- iloc_last_or days_264_data latest_close ;;
  let '(ultra_short_term_vol, short_term_vol, long_term_vol, mdd) :=
    calculate_volatility_and_mdd price_series in
  let drawdown_from_high := calculate_52week_high_drawdown price_series in
  Ok (mk_locals latest_idx previous_idx base_date latest_close previous_close
        weekly_base_date weekly_base_close monthly_base_date monthly_base_close
        ytd_base_date ytd_base_close days_22_date days_132_date days_264_date
        days_22_close days_132_close days_264_close
        ultra_short_term_vol short_term_vol long_term_vol mdd
        drawdown_from_high).

Definition daily_return (l : locals) : float :=
  safe_return (latest_close l) (previous_close l).
Definition weekly_return (l : locals) : float :=
  safe_return (latest_close l) (weekly_base_close l).
Definition monthly_return (l : locals) : float :=
  safe_return (latest_close l) (monthly_base_close l).
Definition ytd_return (l : locals) : float :=
  safe_return (latest_close l) (ytd_base_close l).
Definition days_22_return (l : locals) : float :=
  safe_return (latest_close l) (days_22_close l).
Definition days_132_return (l : locals) : float :=
  safe_return (latest_close l) (days_132_close l).
Definition days_264_return (l : locals) : float :=
  safe_return (latest_close l) (days_264_close l).

Definition sharpe_ratio (l : locals) : float :=
  let excess_return := (days_264_return l - risk_free_rate)%float in
  if fneb (long_term_vol l) 0
  then (excess_return / long_term_vol l)%float
  else 0%float.

(** ** The returned tuple *)

(** An entry of the tuple: a number (the integer [0] of a fall-back is the
    float zero, as [0 == 0.0]) or a string. *)
Inductive pyval : Type :=
| Num (x : float)
| Str (s : string).

Definition row : Type := list pyval.

Definition today_string (clk : clock) : pyval :=
  Str (Date.strftime_ymd (dt_date (now_local clk))).

(** The tuple returned when the series has fewer than two observations. *)
Definition insufficient_data_row (clk : clock) : row :=
  [Num 0; Num 0; Num 0; Num 0; Num 0; Num 0; Num 0; Num 0; Num 0; Num 0;
   Num 0; Num 0; Num 0; Num 0; Num 0;
   today_string clk; today_string clk; today_string clk].

(** The tuple returned by the [except] clause. *)
Definition exception_row (clk : clock) : row :=
  [Num 0; Num 0; Num 0; Num 0; Num 0; Num 0; Num 0; Num 0; Num 0; Num 0;
   Num 0; Num 0; Num 0; Num 0;
   today_string clk; today_string clk; today_string clk].

(** The tuple of the [return] statement. *)
Definition return_row (l : locals) : row :=
  [Num (latest_close l); Num (daily_return l); Num (weekly_return l);
   Num (monthly_return l); Num (ytd_return l);
   Num (days_22_return l); Num (days_132_return l); Num (days_264_return l);
   Num (ultra_short_term_vol l); Num (short_term_vol l);
   Num (long_term_vol l); Num (mdd l);
   Num (drawdown_from_high l); Num (sharpe_ratio l);
   Str (Date.strftime_ymd (base_date l));
   Str (Date.strftime_ymd (weekly_base_date l));
   Str (Date.strftime_ymd (monthly_base_date l))].

Definition calculate_returns_body (clk : clock) (price_series : series)
  : result row :=
  if len price_series <? 2 then Ok (insufficient_data_row clk)
  else l <- compute_locals clk price_series ;; Ok (return_row l).

(** [calculate_returns(price_series)] *)
Definition calculate_returns (clk : clock) (price_series : series) : row :=
  match calculate_returns_body clk price_series with
  | Ok r => r
  | Raise _ => exception_row clk
  end.

(** The loop of [process_etf_data] over the columns of the downloaded table:
    an empty column gets the fall-back tuple, any other one the tuple of
    [calculate_returns]. *)
Definition process_rows (clk : clock) (columns : list series) : list row :=
  map (fun ticker_data =>
         if empty ticker_data then insufficient_data_row clk
         else calculate_returns clk ticker_data)
      columns.

(** ** The batch of [process_etf_data] *)

(** The table of closes that [get_etf_data] hands over: a frame whose
    columns are labelled by pairs (a [MultiIndex]), a frame whose columns are
    labelled by tickers, or a single column, which has no [columns] attribute.
    Labels are unique. *)
Inductive price_table : Type :=
| MultiIndexColumns (column : string * string -> option series)
| TickerColumns (column : string -> option series)
| NoColumns.

(** The [ticker_data] of one pass of the loop: the column of the ticker, the
    empty [pd.Series()] when the table has no such column; [None] when
    reading [price_data.columns] raises. *)
Definition ticker_data (price_data : price_table) (ticker : string)
  : option series :=
  match price_data with
  | MultiIndexColumns column =>
      match column ("Close"%string, ticker) with
      | Some s => Some s
      | None => Some []
      end
  | TickerColumns column =>
      match column ticker with
      | Some s => Some s
      | None => Some []
      end
  | NoColumns => None
  end.

(** The tuple one pass of the loop appends to [results]; the tuple of the
    inner [except] clause is the one of the empty column. *)
Definition ticker_row (clk : clock) (price_data : price_table)
  (ticker : string) : row :=
  match ticker_data price_data ticker with
  | Some ticker_data =>
      if empty ticker_data then insufficient_data_row clk
      else calculate_returns clk ticker_data
  | None => insufficient_data_row clk
  end.

(** One round of [zip]: the next entry of every tuple, in order, with what
    is left of each; [None] as soon as one tuple is exhausted. *)
Fixpoint next_all (its : list row) : option (list pyval * list row) :=
  match its with
  | [] => Some ([], [])
  | it :: rest =>
      match it with
      | [] => None
      | x :: it' =>
          match next_all rest with
          | Some (xs, rest') => Some (x :: xs, it' :: rest')
          | None => None
          end
      end
  end.

Fixpoint zip_rounds (rounds : nat) (its : list row) : list (list pyval) :=
  match rounds with
  | O => []
  | S k =>
      match next_all its with
      | Some (xs, its') => xs :: zip_rounds k its'
      | None => []
      end
  end.

(** [zip] over the tuples of [results]: nothing for no tuple at all; otherwise one column per
    position, up to the length of the shortest tuple (the first tuple is
    exhausted after as many rounds as it has entries). *)
Definition zip_star (results : list row) : list (list pyval) :=
  match results with
  | [] => []
  | first :: _ => zip_rounds (S (List.length first)) results
  end.

(** Unpacking into [targets] targets: a [ValueError] unless there are
    exactly as many items. *)
Definition unpack {A : Type} (targets : nat) (items : list A)
  : result (list A) :=
  if (List.length items =? targets)%nat then Ok items else Raise ValueError.

(** The columns [process_etf_data] assigns, in the order of the targets. *)
Definition assigned_columns : list string :=
  ["Close"; "Daily Return (%)"; "Weekly Return (%)"; "Monthly Return (%)";
   "YTD Return (%)"; "22 Days Return (%)"; "132 Days Return (%)";
   "264 Days Return (%)"; "Ultra-Short Vol (%)"; "Short-term Vol (%)";
   "Long-term Vol (%)"; "MDD (%)"; "52W High Drawdown (%)"; "Sharpe Ratio";
   "Base Date"; "Weekly Base Date"; "Monthly Base Date"]%string.

(** [process_etf_data()], the two loads being given: [df] is the
    ['ETF Ticker'] column of the table [load_from_excel] returned and
    [price_data] what [get_etf_data] returned, [None] standing for Python's
    [None].  The result is the list of the columns assigned to [df], each
    with its cells, or [None]. *)
Definition process_etf_data (clk : clock) (df : option (list string))
  (price_data : option price_table) : option (list (string * list pyval)) :=
  match df with
  | None => None
  | Some tickers =>
      if empty tickers then None
      else
        match price_data with
        | None => None
        | Some price_data =>
            let results := map (ticker_row clk price_data) tickers in
            match unpack 17 (zip_star results) with
            | Ok columns => Some (combine assigned_columns columns)
            | Raise _ => None
            end
        end
  end.

(** ** Notions the statements are written with *)

(** What the local variables are, read off the statements that bind them. *)
Record locals_spec (clk : clock) (s : series) (l : locals) : Prop := {
  ls_session :
    select_session clk s = Ok (latest_idx l, previous_idx l, base_date l);
  ls_latest : iloc (values s) (latest_idx l) = Ok (latest_close l);
  ls_previous :
    (if Z.abs (previous_idx l) <=? len s
     then iloc (values s) (previous_idx l)
     else Ok (latest_close l)) = Ok (previous_close l);
  ls_weekly_date :
    get_previous_week_last_trading_day (base_date l) s = Ok (weekly_base_date l);
  ls_weekly_close :
    iloc_last_or (on_date s (weekly_base_date l)) (latest_close l)
    = Ok (weekly_base_close l);
  ls_monthly_close :
    iloc_last_or (on_date s (monthly_base_date l)) (latest_close l)
    = Ok (monthly_base_close l);
  ls_ytd_close :
    iloc_last_or (on_date s (ytd_base_date l)) (latest_close l)
    = Ok (ytd_base_close l);
  ls_days_22_date :
    exists back, Date.sub_days (base_date l) 22 = Ok back
      /\ get_previous_week_last_trading_day back s = Ok (days_22_date l);
  ls_days_132_date :
    exists back, Date.sub_days (base_date l) 132 = Ok back
      /\ get_previous_week_last_trading_day back s = Ok (days_132_date l);
  ls_days_264_date :
    exists back, Date.sub_days (base_date l) 264 = Ok back
      /\ get_previous_week_last_trading_day back s = Ok (days_264_date l);
  ls_days_22_close :
    iloc_last_or (on_date s (days_22_date l)) (latest_close l)
    = Ok (days_22_close l);
  ls_days_132_close :
    iloc_last_or (on_date s (days_132_date l)) (latest_close l)
    = Ok (days_132_close l);
  ls_days_264_close :
    iloc_last_or (on_date s (days_264_date l)) (latest_close l)
    = Ok (days_264_close l);
  ls_risk :
    calculate_volatility_and_mdd s
    = (ultra_short_term_vol l, short_term_vol l, long_term_vol l, mdd l);
  ls_drawdown : drawdown_from_high l = calculate_52week_high_drawdown s
}.

(** The three nested tests of the selection, as one condition. *)
Definition session_in_progress (clk : clock) (price_series : series)
  (last_date : Date.date) : bool :=
  let now := now_eastern clk in
  (Z.min (dt_date now) last_date =? dt_date now)
  && time_geb (dt_time now) time_09_30
  && time_ltb (dt_time now) time_16_00
  && (2 <? len price_series).

(** The same condition with its first test as the specification words it:
    the last trading day of the series, the date of its last observation, is
    now's date. *)
Definition stated_session_in_progress (clk : clock) (price_series : series)
  (last_date : Date.date) : bool :=
  let now := now_eastern clk in
  (last_date =? dt_date now)
  && time_geb (dt_time now) time_09_30
  && time_ltb (dt_time now) time_16_00
  && (2 <? len price_series).

(** [safe_return] with the division checked as Python checks it on its own
    floats, where a zero divisor raises. *)
Definition checked_div (a b : float) : result float :=
  if (b =? 0)%float then Raise ZeroDivisionError else Ok (a / b)%float.

Definition safe_return_checked (current base : float) : result float :=
  if fneb base 0
  then q <- checked_div (current - base)%float base ;; Ok (q * 100)%float
  else Ok 0%float.

(** Every number of a tuple is finite: neither a NaN nor an infinity. *)
Definition numeric_fields_finite (r : row) : bool :=
  forallb (fun v => match v with Num x => is_finite x | Str _ => true end) r.

(** Which entries of a tuple are finite numbers or strings. *)
Definition finite_fields (r : row) : list bool :=
  map (fun v => match v with Num x => is_finite x | Str _ => true end) r.

(** The month of a date, as the ordinals of its first and of its last day. *)
Definition first_day_of_month (base_date : Date.date) : Z :=
  Date.ymd2ord (Date.year base_date) (Date.month base_date) 1.

Definition last_day_of_month (base_date : Date.date) : Z :=
  Date.ymd2ord (Date.year base_date) (Date.month base_date)
    (Date.days_in_month (Date.year base_date) (Date.month base_date)).

(** A float of sign [s], of any magnitude, or a zero of sign [s]. *)
Definition has_sign (s : bool) (x : spec_float) : Prop :=
  match x with
  | S754_zero s' | S754_infinity s' | S754_finite s' _ _ => s' = s
  | S754_nan => False
  end.

(** Zero, or negative of any magnitude: what [x <= 0] holds of. *)
Definition sf_nonpos (x : spec_float) : Prop :=
  match x with
  | S754_zero _ => True
  | S754_infinity s | S754_finite s _ _ => s = true
  | S754_nan => False
  end.

(** A price that is positive and finite. *)
Definition positive_price (x : float) : bool :=
  ((0 <? x) && (x <? infinity))%float.

(** The close [c] is the last close the series records on the date [d],
    which is a trading day of the series. *)
Definition observed_close (s : series) (d : Date.date) (c : float) : Prop :=
  In d (index_date s)
  /\ iloc (values (on_date s d)) (-1) = Ok c
  /\ exists o, In o s /\ ts_date (fst o) = d /\ snd o = c.

(** A column of prices that never falls from one entry to the next. *)
Definition rising : list float -> Prop :=
  Sorted (fun a b => (a <=? b)%float = true).

(** The column of a name in the table returned. *)
Definition column_of (table : list (string * list pyval)) (name : string)
  : option (list pyval) :=
  match find (fun c => String.eqb (fst c) name) table with
  | Some c => Some (snd c)
  | None => None
  end.

(** A ticker whose column holds at least two observations. *)
Definition has_two_observations (price_data : price_table) (ticker : string)
  : bool :=
  match ticker_data price_data ticker with
  | Some s => 2 <=? len s
  | None => false
  end.

(** ** Example inputs *)

Definition midnight : time := mk_time 0 0 0 0.

Definition observation (d : Date.date) (close : float) : Timestamp * float :=
  (mk_ts d midnight, close).

(** Monday 2024-01-15, 18:00, on both clocks. *)
Definition after_close_clock : clock :=
  let t := mk_datetime 738900 (mk_time 18 0 0 0) in mk_clock t t.

(** Thursday 2024-01-04, 10:30, on both clocks: the session of the last
    observation of [three_day_series] is in progress. *)
Definition in_session_clock : clock :=
  let t := mk_datetime 738889 (mk_time 10 30 0 0) in mk_clock t t.

(** Wednesday 2024-01-03, 09:30, on both clocks: the day before the last
    observation of [three_day_series]. *)
Definition before_last_observation_clock : clock :=
  let t := mk_datetime 738888 (mk_time 9 30 0 0) in mk_clock t t.

(** Tuesday 2024-01-02 and Wednesday 2024-01-03. *)
Definition two_day_series : series :=
  [observation 738887 100; observation 738888 110].

(** Tuesday 2024-01-02 to Thursday 2024-01-04. *)
Definition three_day_series : series :=
  [observation 738887 100; observation 738888 110; observation 738889 100].

Definition single_observation : series := [observation 738887 100].

(** 0001-01-01 and 0001-01-02, the first two dates a [date] can hold. *)
Definition year_one_series : series := [observation 1 100; observation 2 110].

(** Monday 9999-11-22 and Wednesday 9999-12-22. *)
Definition last_year_series : series :=
  [observation 3652020 100; observation 3652050 110].

(** A series of one zero price twice, one that falls from -1 to -2, and one
    whose last close is missing. *)
Definition zero_price_series : series :=
  [observation 738887 0; observation 738888 0].

Definition negative_price_series : series :=
  [observation 738887 (-1); observation 738888 (-2)].

Definition missing_close_series : series :=
  [observation 738887 100; observation 738888 nan].

Definition two_day_locals : locals :=
  Eval vm_compute in
    match compute_locals after_close_clock two_day_series with
    | Ok l => l
    | Raise _ =>
        mk_locals 0 0 0 0 0 0 0 0 0 0 0 0 0 0 0 0 0 0 0 0 0 0
    end.

(** 252 closes of 100, on 252 consecutive dates. *)
Definition flat_year_series : series :=
  map (fun i => observation (738000 + Z.of_nat i) 100) (seq 0 252).

(** A table of closes by ticker, with two observations of SPY and one of
    NEW, and the tickers asked for, of which GONE has no column. *)
Definition example_prices : price_table :=
  TickerColumns
    (fun ticker =>
       if String.eqb ticker "SPY" then Some two_day_series
       else if String.eqb ticker "NEW" then Some single_observation
       else None).

Definition example_tickers : list string := ["SPY"; "NEW"; "GONE"]%string.

Definition example_table : list (string * list pyval) :=
  Eval vm_compute in
    match process_etf_data after_close_clock (Some example_tickers)
            (Some example_prices) with
    | Some table => table
    | None => []
    end.

(** * Properties *)

(** ** The calendar on known dates *)

Example ordinal_2024_01_01 : Date.make 2024 1 1 = Ok 738886.
Proof. reflexivity. Qed.

Example ord2ymd_2024_02_29 : Date.ord2ymd (738886 + 59) = (2024, 2, 29).
Proof. reflexivity. Qed.

Example ord2ymd_max : Date.ord2ymd Date.MAXORDINAL = (9999, 12, 31).
Proof. reflexivity. Qed.

Example weekday_2024_01_01 : Date.weekday 738886 = 0.
Proof. reflexivity. Qed.

Example strftime_2024_02_29 :
  Date.strftime_ymd (738886 + 59) = "2024-02-29"%string.
Proof. reflexivity. Qed.

(** ** Scenarios of the specification, run on the model *)

(** The closes 100, 90, 80, 100 have a maximum drawdown of -20. *)
Example max_drawdown_100_90_80_100 :
  max_drawdown [100; 90; 80; 100]%float = (-20)%float.
Proof. vm_compute. reflexivity. Qed.

(** On a Monday before 09:30 the market is not open today and the base date
    is the date of the last observation. *)
Example monday_before_open :
  let t := mk_datetime 738900 (mk_time 9 0 0 0) in
  Date.weekday 738900 = 0
  /\ select_session (mk_clock t t) three_day_series = Ok (-1, -2, 738889).
Proof. split; reflexivity. Qed.

(** During the session of the last observation the second-to-last
    observation is the latest one. *)
Example during_session :
  select_session in_session_clock three_day_series = Ok (-2, -3, 738888).
Proof. reflexivity. Qed.

(** ** Sequences *)

Lemma len_nonneg {A : Type} (l : list A) : 0 <= len l.
Proof. unfold len. lia. Qed.

Lemma len_map {A B : Type} (f : A -> B) (l : list A) : len (map f l) = len l.
Proof. unfold len. now rewrite length_map. Qed.

Lemma len_cons {A : Type} (a : A) (l : list A) : len (a :: l) = len l + 1.
Proof. unfold len. cbn [List.length]. lia. Qed.

Lemma len_nil {A : Type} : len (@nil A) = 0.
Proof. reflexivity. Qed.

Lemma empty_spec {A : Type} (l : list A) : empty l = true <-> l = [].
Proof.
  unfold empty. rewrite Z.eqb_eq. destruct l as [|a l].
  - split; reflexivity.
  - rewrite len_cons. pose proof (len_nonneg l).
    split; [lia | discriminate].
Qed.

(** A position counted from the end, within the sequence, is read without
    raising, and the entry read is the one at [len l - k] from the front. *)
Lemma iloc_from_end {A : Type} (l : list A) (k : Z) :
  1 <= k <= len l ->
  exists a, iloc l (- k) = Ok a /\ nth_error l (Z.to_nat (len l - k)) = Some a.
Proof.
  intros Hk. unfold iloc.
  replace (- k <? 0) with true by (symmetry; apply Z.ltb_lt; lia).
  replace (len l + - k) with (len l - k) by lia.
  replace ((len l - k <? 0) || (len l <=? len l - k)) with false.
  - destruct (nth_error l (Z.to_nat (len l - k))) as [a|] eqn:E.
    + exists a. split; reflexivity.
    + apply nth_error_None in E. unfold len in *. lia.
  - symmetry. apply orb_false_iff. split.
    + apply Z.ltb_ge. lia.
    + apply Z.leb_gt. lia.
Qed.

Lemma iloc_In {A : Type} (l : list A) (i : Z) (a : A) :
  iloc l i = Ok a -> In a l.
Proof.
  unfold iloc. intros H.
  destruct ((_ <? 0) || _); [discriminate|].
  destruct (nth_error l _) as [b|] eqn:E; [|discriminate].
  injection H as <-. eapply nth_error_In; eassumption.
Qed.

Lemma iloc_map {A B : Type} (f : A -> B) (l : list A) (i : Z) (a : A) :
  iloc l i = Ok a -> iloc (map f l) i = Ok (f a).
Proof.
  unfold iloc. rewrite len_map. intros H.
  destruct ((_ <? 0) || _); [discriminate|].
  rewrite nth_error_map.
  destruct (nth_error l _) as [b|]; [|discriminate].
  injection H as <-. reflexivity.
Qed.

(** ** Running [calculate_returns] to its [return] statement *)

Lemma bind_Ok {A B : Type} (m : result A) (k : A -> result B) (b : B) :
  bind m k = Ok b -> exists a, m = Ok a /\ k a = Ok b.
Proof. destruct m as [a|e]; cbn; [eauto | discriminate]. Qed.

Ltac bind_inv H :=
  let x := fresh "x" in
  let E := fresh "E" in
  apply bind_Ok in H; destruct H as (x & E & H).

Lemma compute_locals_spec (clk : clock) (s : series) (l : locals) :
  compute_locals clk s = Ok l -> locals_spec clk s l.
Proof.
  unfold compute_locals. intros H.
  bind_inv H. destruct x as [[li pi] bd].
  do 20 bind_inv H.
  destruct (calculate_volatility_and_mdd s) as [[[usv sv] lv] md] eqn:Ev.
  injection H as <-. cbn.
  constructor; cbn; eauto.
Qed.

(** ** Session selection *)

Lemma iloc_series_parts (s : series) (i : Z) (o : Timestamp * float) :
  iloc s i = Ok o ->
  iloc (index s) i = Ok (fst o) /\ iloc (values s) i = Ok (snd o).
Proof.
  intros H. split; [apply (iloc_map fst) | apply (iloc_map snd)]; exact H.
Qed.

Lemma session_in_progress_spec (clk : clock) (s : series) (last_date : Date.date) :
  session_in_progress clk s last_date = true <->
  Z.min (dt_date (now_eastern clk)) last_date = dt_date (now_eastern clk)
  /\ time_geb (dt_time (now_eastern clk)) time_09_30 = true
  /\ time_ltb (dt_time (now_eastern clk)) time_16_00 = true
  /\ 2 < len s.
Proof.
  unfold session_in_progress. cbv zeta.
  rewrite !andb_true_iff, Z.eqb_eq, Z.ltb_lt. tauto.
Qed.

Lemma select_session_cases (clk : clock) (s : series) (last : Timestamp) :
  iloc (index s) (-1) = Ok last ->
  select_session clk s =
  if session_in_progress clk s (ts_date last)
  then latest_ts <- iloc (index s) (-2) ;; Ok (-2, -3, ts_date latest_ts)
  else Ok (-1, -2, ts_date last).
Proof.
  intros Hlast. unfold select_session, session_in_progress.
  rewrite Hlast. cbn [bind].
  destruct (Z.min _ _ =? _); cbn [andb]; [|now rewrite Hlast].
  destruct (time_geb _ _); cbn [andb]; [|now rewrite Hlast].
  destruct (time_ltb _ _); cbn [andb]; [|now rewrite Hlast].
  destruct (2 <? len s); [reflexivity | now rewrite Hlast].
Qed.

(** Once the session is selected, the closes are read at the two indices. *)
Lemma compute_locals_selected (clk : clock) (s : series) (li pi : Z)
  (latest previous : Timestamp * float) (l : locals) :
  select_session clk s = Ok (li, pi, ts_date (fst latest)) ->
  iloc s li = Ok latest ->
  iloc s pi = Ok previous ->
  Z.abs pi <= len s ->
  compute_locals clk s = Ok l ->
  latest_idx l = li /\ previous_idx l = pi
  /\ base_date l = ts_date (fst latest)
  /\ latest_close l = snd latest
  /\ previous_close l = snd previous.
Proof.
  intros Hsel Hli Hpi Habs Hl.
  destruct (compute_locals_spec _ _ _ Hl) as [Hs Hlc Hpc].
  rewrite Hsel in Hs. injection Hs as H1 H2 H3.
  apply iloc_series_parts in Hli, Hpi.
  destruct Hli as [_ Hli]. destruct Hpi as [_ Hpi].
  rewrite <- H1 in Hlc. rewrite <- H2 in Hpc.
  rewrite Hli in Hlc. injection Hlc as Hlc.
  replace (Z.abs pi <=? len s) with true in Hpc
    by (symmetry; apply Z.leb_le; exact Habs).
  rewrite Hpi in Hpc. injection Hpc as Hpc.
  repeat split; congruence.
Qed.

(** When the last observation is not dated after now, the condition of the
    code is the condition as the specification words it. *)
Lemma stated_session_in_progress_agrees (clk : clock) (s : series)
  (last_date : Date.date) :
  last_date <= dt_date (now_eastern clk) ->
  (Z.min (dt_date (now_eastern clk)) last_date = dt_date (now_eastern clk)
   <-> last_date = dt_date (now_eastern clk))
  /\ session_in_progress clk s last_date
     = stated_session_in_progress clk s last_date.
Proof.
  intros Hle. split; [lia|].
  unfold session_in_progress, stated_session_in_progress. cbv zeta.
  do 3 f_equal.
  destruct (Z.eqb_spec (Z.min (dt_date (now_eastern clk)) last_date)
              (dt_date (now_eastern clk))),
           (Z.eqb_spec last_date (dt_date (now_eastern clk)));
    try reflexivity; lia.
Qed.

(** C7, counterexample: the observations are dated 2024-01-02 to
    2024-01-04 and now is 2024-01-03, 09:30.  The last trading day of the
    series, 2024-01-04, is not now's date, so the condition of the claim
    fails and the claim has the last observation as the latest one; the code
    takes the second-to-last as latest and the third-to-last as previous,
    with 2024-01-03 as base date. *)
Lemma last_observation_after_now_is_not_latest :
  2 <= len three_day_series
  /\ iloc three_day_series (-1) = Ok (observation 738889 100)
  /\ dt_date (now_eastern before_last_observation_clock) = 738888
  /\ stated_session_in_progress before_last_observation_clock
       three_day_series 738889 = false
  /\ select_session before_last_observation_clock three_day_series
     = Ok (-2, -3, 738888)
  /\ select_session before_last_observation_clock three_day_series
     <> Ok (-1, -2, 738889).
Proof.
  split; [cbn; lia|]. do 4 (split; [reflexivity|]). discriminate.
Qed.

(** C7, as amended: for a series of at least two observations, when now's
    date is not after the date of the last observation (the code's
    [last_trading_day], the earlier of now's date and the date of the last
    observation, is then now's date), the time is at or after 09:30 and
    before 16:00, and there are more than two observations, the
    second-to-last observation is the latest one and the third-to-last the
    previous one; in every other case the last observation is the latest and
    the second-to-last the previous; the base date is the date of the
    observation selected as latest, and the closes the calculation goes on
    with are those of the two selected observations.  (When the last
    observation is not dated after now, the first condition says that the
    last observation is dated now, as the specification words it.) *)
Theorem session_selection (clk : clock) (price_series : series) :
  2 <= len price_series ->
  exists last latest previous li pi,
    iloc price_series (-1) = Ok last
    /\ select_session clk price_series = Ok (li, pi, ts_date (fst latest))
    /\ iloc price_series li = Ok latest
    /\ iloc price_series pi = Ok previous
    /\ (let now := now_eastern clk in
        let last_trading_day := Z.min (dt_date now) (ts_date (fst last)) in
        let in_progress :=
          last_trading_day = dt_date now
          /\ time_geb (dt_time now) time_09_30 = true
          /\ time_ltb (dt_time now) time_16_00 = true
          /\ 2 < len price_series in
        (in_progress -> li = -2 /\ pi = -3)
        /\ (~ in_progress -> li = -1 /\ pi = -2)
        /\ (last_trading_day = dt_date now
            <-> dt_date now <= ts_date (fst last))
        /\ (ts_date (fst last) <= dt_date now ->
            (last_trading_day = dt_date now
             <-> ts_date (fst last) = dt_date now)
            /\ session_in_progress clk price_series (ts_date (fst last))
               = stated_session_in_progress clk price_series
                   (ts_date (fst last))))
    /\ (forall l, compute_locals clk price_series = Ok l ->
          latest_idx l = li /\ previous_idx l = pi
          /\ base_date l = ts_date (fst latest)
          /\ latest_close l = snd latest
          /\ previous_close l = snd previous).
Proof.
  intros Hlen.
  destruct (iloc_from_end price_series 1) as (last & Hlast & _); [lia|].
  destruct (iloc_from_end price_series 2) as (o2 & Ho2 & _); [lia|].
  change (- (1)) with (-1) in Hlast. change (- (2)) with (-2) in Ho2.
  pose proof (iloc_series_parts _ _ _ Hlast) as [Hlast_i _].
  pose proof (iloc_series_parts _ _ _ Ho2) as [Ho2_i _].
  pose proof (select_session_cases clk _ _ Hlast_i) as Hsel.
  pose proof (session_in_progress_spec clk price_series (ts_date (fst last))) as Hspec.
  destruct (session_in_progress clk price_series (ts_date (fst last))).
  - (* the session is in progress *)
    destruct Hspec as [Hspec _]. specialize (Hspec eq_refl).
    destruct (iloc_from_end price_series 3) as (o3 & Ho3 & _); [lia|].
    change (- (3)) with (-3) in Ho3.
    rewrite Ho2_i in Hsel. cbn [bind] in Hsel.
    exists last, o2, o3, (-2), (-3).
    do 4 (split; [assumption|]). split.
    + cbv zeta. split; [intros _; split; reflexivity|].
      split; [intros Hno; exfalso; apply Hno; exact Hspec|].
      split; [lia | apply stated_session_in_progress_agrees].
    + intros l. apply compute_locals_selected; try assumption.
      change (Z.abs (-3)) with 3. lia.
  - (* any other case *)
    destruct Hspec as [_ Hspec].
    exists last, last, o2, (-1), (-2).
    do 4 (split; [assumption|]). split.
    + cbv zeta. split; [intros Hyes; apply Hspec in Hyes; discriminate|].
      split; [intros _; split; reflexivity|].
      split; [lia | apply stated_session_in_progress_agrees].
    + intros l. apply compute_locals_selected; try assumption.
Qed.

(** C10: for a series of at least two observations the previous index is
    -3 only when there are more than two observations and is -2 otherwise,
    so the test [abs(previous_idx) <= len(price_series)] always holds, the
    substitution of the latest close never happens, and the previous close
    is the observation of the series at the previous index. *)
Theorem previous_index_in_range (clk : clock) (price_series : series) :
  2 <= len price_series ->
  exists li pi bd previous,
    select_session clk price_series = Ok (li, pi, bd)
    /\ ((pi = -3 /\ 2 < len price_series) \/ pi = -2)
    /\ (Z.abs pi <=? len price_series) = true
    /\ iloc price_series pi = Ok previous
    /\ (forall l, compute_locals clk price_series = Ok l ->
          previous_idx l = pi
          /\ iloc (values price_series) (previous_idx l) = Ok (previous_close l)
          /\ previous_close l = snd previous).
Proof.
  intros Hlen.
  destruct (iloc_from_end price_series 1) as (last & Hlast & _); [lia|].
  destruct (iloc_from_end price_series 2) as (o2 & Ho2 & _); [lia|].
  change (- (1)) with (-1) in Hlast. change (- (2)) with (-2) in Ho2.
  pose proof (iloc_series_parts _ _ _ Hlast) as [Hlast_i _].
  pose proof (iloc_series_parts _ _ _ Ho2) as [Ho2_i _].
  pose proof (select_session_cases clk _ _ Hlast_i) as Hsel.
  pose proof (session_in_progress_spec clk price_series (ts_date (fst last))) as Hspec.
  assert (Hread : forall li pi latest previous,
             select_session clk price_series = Ok (li, pi, ts_date (fst latest)) ->
             iloc price_series li = Ok latest ->
             iloc price_series pi = Ok previous ->
             Z.abs pi <= len price_series ->
             forall l, compute_locals clk price_series = Ok l ->
               previous_idx l = pi
               /\ iloc (values price_series) (previous_idx l) = Ok (previous_close l)
               /\ previous_close l = snd previous).
  { intros li pi latest previous H1 H2 H3 H4 l Hl.
    destruct (compute_locals_selected _ _ _ _ _ _ _ H1 H2 H3 H4 Hl)
      as (_ & Hpi & _ & _ & Hpc).
    rewrite Hpi, Hpc. repeat split.
    apply (iloc_map snd). exact H3. }
  destruct (session_in_progress clk price_series (ts_date (fst last))).
  - destruct Hspec as [Hspec _]. destruct (Hspec eq_refl) as (_ & _ & _ & H2).
    destruct (iloc_from_end price_series 3) as (o3 & Ho3 & _); [lia|].
    change (- (3)) with (-3) in Ho3.
    rewrite Ho2_i in Hsel. cbn [bind] in Hsel.
    exists (-2), (-3), (ts_date (fst o2)), o3.
    split; [exact Hsel|]. split; [left; split; [reflexivity | exact H2]|].
    split; [apply Z.leb_le; change (Z.abs (-3)) with 3; lia|].
    split; [exact Ho3|].
    apply (Hread (-2) (-3) o2 o3); try assumption.
    change (Z.abs (-3)) with 3. lia.
  - exists (-1), (-2), (ts_date (fst last)), o2.
    split; [exact Hsel|]. split; [right; reflexivity|].
    split; [apply Z.leb_le; change (Z.abs (-2)) with 2; lia|].
    split; [exact Ho2|].
    apply (Hread (-1) (-2) last o2); try assumption.
Qed.

(** ** Percentage returns *)

(** C8: the percentage return is 0 when the base equals 0 and
    ((current - base) / base) * 100 otherwise; with the division checked
    for a zero divisor it still never raises; and the seven return fields of
    the returned tuple are this function of the latest close and of the
    seven base closes. *)
Theorem safe_return_never_divides_by_zero :
  (forall current base : float,
      safe_return current base =
      if (base =? 0)%float then 0%float
      else (((current - base) / base) * 100)%float)
  /\ (forall current base : float,
         safe_return_checked current base = Ok (safe_return current base))
  /\ (forall l : locals,
         firstn 7 (skipn 1 (return_row l)) =
         map Num
           [safe_return (latest_close l) (previous_close l);
            safe_return (latest_close l) (weekly_base_close l);
            safe_return (latest_close l) (monthly_base_close l);
            safe_return (latest_close l) (ytd_base_close l);
            safe_return (latest_close l) (days_22_close l);
            safe_return (latest_close l) (days_132_close l);
            safe_return (latest_close l) (days_264_close l)]).
Proof.
  split; [|split].
  - intros current base. unfold safe_return, fneb.
    destruct (base =? 0)%float; reflexivity.
  - intros current base. unfold safe_return_checked, safe_return, checked_div, fneb.
    destruct (base =? 0)%float eqn:E; cbn [negb bind]; reflexivity.
  - intros l. reflexivity.
Qed.

(** ** The fall-back tuples *)

Lemma calculate_returns_catches (clk : clock) (s : series) (e : exn) :
  calculate_returns_body clk s = Raise e ->
  calculate_returns clk s = exception_row clk.
Proof. unfold calculate_returns. now intros ->. Qed.

Lemma calculate_returns_insufficient (clk : clock) (s : series) :
  len s < 2 -> calculate_returns clk s = insufficient_data_row clk.
Proof.
  intros H. unfold calculate_returns, calculate_returns_body.
  apply Z.ltb_lt in H. now rewrite H.
Qed.

Lemma calculate_returns_computed (clk : clock) (s : series) (l : locals) :
  2 <= len s -> compute_locals clk s = Ok l ->
  calculate_returns clk s = return_row l.
Proof.
  intros H Hl. unfold calculate_returns, calculate_returns_body.
  apply Z.ltb_ge in H. now rewrite H, Hl.
Qed.

(** One tuple per column of the batch. *)
Lemma process_rows_length (clk : clock) (columns : list series) :
  List.length (process_rows clk columns) = List.length columns.
Proof. unfold process_rows. apply length_map. Qed.

(** C1: an exception of the body is caught and answered by the tuple of the
    [except] clause, fourteen zeros and now's date three times, and a batch
    yields one tuple per column; but this tuple is not the one of the
    insufficient-data branch, which has fifteen zeros.  At the failing
    inputs: on the series dated 0001-01-01 and 0001-01-02 the day before the
    first of the month is not a date, the body raises and the [except]
    clause answers; on a series of one observation the insufficient-data
    branch answers; the two tuples differ in length and at position 14. *)
Theorem exception_row_is_not_insufficient_data_row :
  (forall clk s e,
      calculate_returns_body clk s = Raise e ->
      calculate_returns clk s
      = repeat (Num 0) 14
        ++ repeat (Str (Date.strftime_ymd (dt_date (now_local clk)))) 3)
  /\ (forall clk columns,
         List.length (process_rows clk columns) = List.length columns)
  /\ calculate_returns_body after_close_clock year_one_series = Raise OverflowError
  /\ calculate_returns after_close_clock year_one_series
     = exception_row after_close_clock
  /\ calculate_returns after_close_clock single_observation
     = insufficient_data_row after_close_clock
  /\ len (exception_row after_close_clock) = 17
  /\ len (insufficient_data_row after_close_clock) = 18
  /\ nth_error (exception_row after_close_clock) 14 = Some (Str "2024-01-15")
  /\ nth_error (insufficient_data_row after_close_clock) 14 = Some (Num 0)
  /\ calculate_returns after_close_clock year_one_series
     <> calculate_returns after_close_clock single_observation.
Proof.
  assert (Hbody : calculate_returns_body after_close_clock year_one_series
                  = Raise OverflowError) by (vm_compute; reflexivity).
  split; [intros clk s e H; now rewrite (calculate_returns_catches clk s e H)|].
  split; [exact process_rows_length|].
  split; [exact Hbody|].
  split; [exact (calculate_returns_catches _ _ _ Hbody)|].
  split; [apply calculate_returns_insufficient; vm_compute; reflexivity|].
  split; [reflexivity|]. split; [reflexivity|].
  split; [reflexivity|]. split; [reflexivity|].
  rewrite (calculate_returns_catches _ _ _ Hbody).
  rewrite calculate_returns_insufficient by (vm_compute; reflexivity).
  intros H. apply (f_equal (@List.length pyval)) in H.
  cbn in H. discriminate.
Qed.

(** ** The numeric fields *)

Lemma std_of_at_most_one (l : list float) :
  (List.length l <= 1)%nat -> std l = nan.
Proof.
  intros H. unfold std.
  pose proof (filter_length_le (fun x => negb (is_nan x)) l) as Hf.
  fold (dropna l) in Hf.
  replace (List.length (dropna l) <=? 1)%nat with true; [reflexivity|].
  symmetry. apply Nat.leb_le. lia.
Qed.

(** On two observations every volatility horizon is a NaN: a single change
    has no sample standard deviation. *)
Lemma two_observation_volatility_nan (a b : float) (days : Z) :
  2 <= days -> window_volatility [a; b] days = nan.
Proof.
  intros Hd. unfold window_volatility.
  replace (Z.min days (len [a; b])) with 2 by (cbn; lia).
  change (tail [a; b] 2) with [a; b].
  change (len [a; b] <? 2) with false. cbv iota.
  change (pct_change [a; b]) with [nan; (b / a - 1)%float].
  change (dropna [nan; (b / a - 1)%float]) with (dropna [(b / a - 1)%float]).
  rewrite std_of_at_most_one; [reflexivity|].
  apply (filter_length_le _ [(b / a - 1)%float]).
Qed.

Lemma div_by_nan (x : float) : is_nan (x / nan) = true.
Proof.
  assert (H : Prim2SF (x / nan) = S754_nan).
  { rewrite div_spec. change (Prim2SF nan) with S754_nan.
    unfold SF64div, SFdiv. now destruct (Prim2SF x). }
  unfold Prim2SF in H.
  destruct (is_nan (x / nan)); [reflexivity|].
  destruct (is_zero (x / nan)); [discriminate|].
  destruct (is_infinity (x / nan)); [discriminate|].
  destruct (Z.frexp (x / nan)) as [r e].
  destruct (shr_fexp prec emax _ _ _) as [shr e'].
  destruct (shr_m shr); discriminate.
Qed.

(** The counterexample of C2 is not an isolated input: on every series of
    exactly two observations, the three volatilities and the Sharpe ratio of
    the [return] statement are NaN. *)
Lemma two_observations_give_nan (clk : clock) (s : series) (l : locals) :
  len s = 2 ->
  compute_locals clk s = Ok l ->
  is_nan (ultra_short_term_vol l) = true
  /\ is_nan (short_term_vol l) = true
  /\ is_nan (long_term_vol l) = true
  /\ is_nan (sharpe_ratio l) = true.
Proof.
  intros Hlen Hl.
  pose proof (ls_risk _ _ _ (compute_locals_spec _ _ _ Hl)) as Hrisk.
  destruct s as [|[t1 a] [|[t2 b] [|o3 r]]];
    try (cbn in Hlen; lia).
  unfold calculate_volatility_and_mdd in Hrisk.
  change (len [(t1, a); (t2, b)] <? 2) with false in Hrisk. cbv iota in Hrisk.
  change (values [(t1, a); (t2, b)]) with [a; b] in Hrisk.
  rewrite !two_observation_volatility_nan in Hrisk by lia.
  injection Hrisk as H1 H2 H3 _.
  unfold sharpe_ratio. rewrite <- H1, <- H2, <- H3.
  change (fneb nan 0) with true. cbv iota.
  repeat split; try reflexivity. apply div_by_nan.
Qed.

Lemma is_nan_not_finite (x : float) : is_nan x = true -> is_finite x = false.
Proof. unfold is_finite. now intros ->. Qed.

(** C2: the code answers the sentinel 0 where a volatility has too few
    observations behind it (fewer than two) and where the Sharpe ratio would
    divide by a volatility of 0.  But two observations give a single change,
    whose sample standard deviation is a NaN, and a NaN volatility passes the
    test [long_term_vol != 0] of the Sharpe ratio.  So on every series of
    exactly two observations on which the calculation runs to its [return]
    statement the three volatilities and the Sharpe ratio of the returned
    tuple are NaN, neither finite nor 0.  At the closes 100 and 110 of
    2024-01-02 and 2024-01-03, with now 2024-01-15 18:00, the entries 8, 9,
    10 and 13 of the returned tuple are NaN and every other number of it is
    finite. *)
Theorem two_observations_leave_nan_fields :
  (forall price_series,
      len price_series < 2 ->
      calculate_volatility_and_mdd price_series = (0, 0, 0, 0)%float)
  /\ (forall prices days,
         len prices < 2 -> window_volatility prices days = 0%float)
  /\ (forall l, (long_term_vol l =? 0)%float = true -> sharpe_ratio l = 0%float)
  /\ (forall clk price_series l,
         len price_series = 2 ->
         compute_locals clk price_series = Ok l ->
         calculate_returns clk price_series = return_row l
         /\ is_nan (ultra_short_term_vol l) = true
         /\ is_nan (short_term_vol l) = true
         /\ is_nan (long_term_vol l) = true
         /\ is_nan (sharpe_ratio l) = true
         /\ nth_error (finite_fields (calculate_returns clk price_series)) 8
            = Some false
         /\ nth_error (finite_fields (calculate_returns clk price_series)) 9
            = Some false
         /\ nth_error (finite_fields (calculate_returns clk price_series)) 10
            = Some false
         /\ nth_error (finite_fields (calculate_returns clk price_series)) 13
            = Some false
         /\ numeric_fields_finite (calculate_returns clk price_series) = false)
  /\ len two_day_series = 2
  /\ compute_locals after_close_clock two_day_series = Ok two_day_locals
  /\ finite_fields (calculate_returns after_close_clock two_day_series)
     = [true; true; true; true; true; true; true; true;
        false; false; false; true; true; false; true; true; true]
  /\ (exists x, nth_error (calculate_returns after_close_clock two_day_series) 8
                = Some (Num x) /\ is_nan x = true)
  /\ (exists x, nth_error (calculate_returns after_close_clock two_day_series) 13
                = Some (Num x) /\ is_nan x = true)
  /\ numeric_fields_finite (calculate_returns after_close_clock two_day_series)
     = false.
Proof.
  split.
  { intros s H. unfold calculate_volatility_and_mdd.
    apply Z.ltb_lt in H. now rewrite H. }
  split.
  { intros prices days H. unfold window_volatility.
    replace (len (tail prices (Z.min days (len prices))) <? 2) with true;
      [reflexivity|].
    symmetry. apply Z.ltb_lt. unfold tail, len in *.
    rewrite length_skipn. lia. }
  split.
  { intros l H. unfold sharpe_ratio, fneb. now rewrite H. }
  split.
  { intros clk s l Hlen Hl.
    destruct (two_observations_give_nan clk s l Hlen Hl) as (H1 & H2 & H3 & H4).
    assert (Hrow : calculate_returns clk s = return_row l)
      by (apply calculate_returns_computed; [lia | exact Hl]).
    split; [exact Hrow|]. do 4 (split; [assumption|]).
    rewrite Hrow. unfold numeric_fields_finite, finite_fields, return_row.
    cbn [map nth_error forallb].
    rewrite (is_nan_not_finite _ H1), (is_nan_not_finite _ H2),
      (is_nan_not_finite _ H3), (is_nan_not_finite _ H4).
    do 4 (split; [reflexivity|]).
    rewrite !andb_false_r. reflexivity. }
  split; [reflexivity|].
  split; [vm_compute; reflexivity|].
  split; [vm_compute; reflexivity|].
  split; [eexists; split; vm_compute; reflexivity|].
  split; [eexists; split; vm_compute; reflexivity|].
  vm_compute. reflexivity.
Qed.

(** ** The Sharpe ratio *)

(** C3: the Sharpe ratio is (days264Return - risk_free_rate) / long_term_vol
    when the long-term volatility differs from 0 and 0 otherwise, with the
    code's constant [risk_free_rate = 0.05]; on the three observations 100,
    110, 100 the field of the returned tuple is this value, and it is not
    (days264Return - 5) / long_term_vol. *)
Theorem sharpe_ratio_uses_rate_0_05 :
  (forall l : locals,
      sharpe_ratio l =
      if (long_term_vol l =? 0)%float then 0%float
      else ((days_264_return l - 0.05) / long_term_vol l)%float)
  /\ exists l : locals,
      compute_locals after_close_clock three_day_series = Ok l
      /\ nth_error (calculate_returns after_close_clock three_day_series) 13
         = Some (Num (sharpe_ratio l))
      /\ (long_term_vol l =? 0)%float = false
      /\ (sharpe_ratio l =? (days_264_return l - 5) / long_term_vol l)%float = false
      /\ (sharpe_ratio l =? (days_264_return l - 0.05) / long_term_vol l)%float = true.
Proof.
  split.
  - intros l. unfold sharpe_ratio, fneb, risk_free_rate.
    destruct (long_term_vol l =? 0)%float; reflexivity.
  - destruct (compute_locals after_close_clock three_day_series) as [l|e] eqn:El;
      [|vm_compute in El; discriminate].
    exists l. split; [reflexivity|].
    split.
    + rewrite (calculate_returns_computed _ _ l); [reflexivity | | exact El].
      vm_compute. discriminate.
    + vm_compute in El. injection El as <-.
      repeat split; vm_compute; reflexivity.
Qed.

(** ** The trading calendar *)

Lemma drop_duplicates_from_In (seen l : list Date.date) (d : Date.date) :
  In d (drop_duplicates_from seen l) <-> In d l /\ ~ In d seen.
Proof.
  revert seen. induction l as [|x r IH]; intros seen; cbn [drop_duplicates_from].
  - cbn. tauto.
  - destruct (existsb (Z.eqb x) seen) eqn:E.
    + apply existsb_exists in E as (y & Hy & Exy). apply Z.eqb_eq in Exy. subst y.
      rewrite IH. cbn. split.
      * intros [H1 H2]. tauto.
      * intros [[-> | H1] H2]; [contradiction | tauto].
    + assert (Hx : ~ In x seen).
      { intros Hin. assert (existsb (Z.eqb x) seen = true) as Ht.
        { apply existsb_exists. exists x. split; [exact Hin | apply Z.eqb_refl]. }
        congruence. }
      cbn [In]. rewrite IH. cbn [In]. split.
      * intros [<- | [H1 H2]]; [tauto|]. split; [tauto|]. intros H3. apply H2. tauto.
      * intros [[<- | H1] H2]; [tauto|].
        destruct (Z.eq_dec x d) as [->|Hne]; [tauto|].
        right. split; [exact H1|]. intros [H3|H3]; [congruence | contradiction].
Qed.

Lemma drop_duplicates_In (l : list Date.date) (d : Date.date) :
  In d (drop_duplicates l) <-> In d l.
Proof. unfold drop_duplicates. rewrite drop_duplicates_from_In. cbn. tauto. Qed.

Lemma drop_duplicates_nonempty (l : list Date.date) :
  l <> [] -> drop_duplicates l <> [].
Proof.
  destruct l as [|x r]; [congruence|]. intros _. cbn. discriminate.
Qed.

Lemma iloc_last_nonempty {A : Type} (l : list A) :
  l <> [] -> exists a, iloc l (-1) = Ok a /\ In a l.
Proof.
  intros Hne. destruct (iloc_from_end l 1) as (a & Ha & _).
  - destruct l; [congruence|]. rewrite len_cons. pose proof (len_nonneg l). lia.
  - exists a. split; [exact Ha | eapply iloc_In; exact Ha].
Qed.

Lemma first_index_date_nonempty (s : series) :
  s <> [] ->
  exists first, first_index_date s = Ok first
                /\ iloc (index_date s) 0 = Ok first
                /\ In first (index_date s).
Proof.
  destruct s as [|o r]; [congruence|]. intros _.
  exists (ts_date (fst o)). repeat split. cbn. now left.
Qed.

(** The target is strictly before the date it is computed from, and is a
    Friday. *)
Lemma previous_week_target_before (b t : Date.date) :
  previous_week_target b = Ok t -> t < b /\ b - 7 <= t /\ Date.weekday t = 4.
Proof.
  unfold previous_week_target, Date.sub_days, Date.weekday.
  destruct ((b + 6) mod 7 =? 0) eqn:E0; [apply Z.eqb_eq in E0|apply Z.eqb_neq in E0].
  - destruct (_ && _); [|discriminate]. intros [= <-].
    Z.div_mod_to_equations. lia.
  - destruct ((b + 6) mod 7 =? 4) eqn:E4; [apply Z.eqb_eq in E4|apply Z.eqb_neq in E4].
    + destruct (_ && _); [|discriminate]. intros [= <-].
      Z.div_mod_to_equations. lia.
    + destruct (_ && _); [|discriminate]. intros [= <-].
      Z.div_mod_to_equations. lia.
Qed.

(** [get_previous_week_last_trading_day] on a series that is not empty,
    case by case. *)
Lemma get_previous_week_cases (base_date : Date.date) (s : series) :
  s <> [] ->
  exists first last,
    first_index_date s = Ok first
    /\ In first (index_date s)
    /\ iloc (drop_duplicates (index_date s)) (-1) = Ok last
    /\ get_previous_week_last_trading_day base_date s =
       match previous_week_target (clamp_to_last base_date last) with
       | Ok target =>
           let past :=
             filter (fun d => d <=? target) (drop_duplicates (index_date s)) in
           if empty past then Ok first else iloc past (-1)
       | Raise _ => Ok first
       end.
Proof.
  intros Hne.
  destruct (first_index_date_nonempty s Hne) as (first & Hfirst & _ & Hin).
  destruct (iloc_last_nonempty (drop_duplicates (index_date s))) as (last & Hlast & _).
  { apply drop_duplicates_nonempty. destruct s; [congruence | discriminate]. }
  exists first, last. do 3 (split; [assumption|]).
  unfold get_previous_week_last_trading_day. rewrite Hlast. cbn [bind].
  destruct (previous_week_target (clamp_to_last base_date last)) as [t|e];
    cbn [bind try_except]; [|exact Hfirst].
  destruct (empty (filter (fun d => d <=? t) (drop_duplicates (index_date s)))) eqn:Ee.
  - rewrite Hfirst. reflexivity.
  - destruct (iloc_last_nonempty
                (filter (fun d => d <=? t) (drop_duplicates (index_date s))))
      as (r & Hr & _).
    + intros Hnil. apply empty_spec in Hnil. congruence.
    + rewrite Hr. reflexivity.
Qed.

(** The date returned is always a trading day of the series. *)
Lemma get_previous_week_In (base_date : Date.date) (s : series) :
  s <> [] ->
  exists r, get_previous_week_last_trading_day base_date s = Ok r
            /\ In r (index_date s).
Proof.
  intros Hne.
  destruct (get_previous_week_cases base_date s Hne)
    as (first & last & Hfirst & Hin & Hlast & Heq).
  rewrite Heq.
  destruct (previous_week_target (clamp_to_last base_date last)) as [t|e];
    [|now exists first].
  cbv zeta.
  destruct (empty (filter (fun d => d <=? t) (drop_duplicates (index_date s)))) eqn:Ee;
    [now exists first|].
  destruct (iloc_last_nonempty
              (filter (fun d => d <=? t) (drop_duplicates (index_date s))))
    as (r & Hr & Hrin).
  { intros Hnil. apply empty_spec in Hnil. congruence. }
  exists r. split; [exact Hr|].
  apply filter_In in Hrin as [Hrin _].
  exact (proj1 (drop_duplicates_In _ _) Hrin).
Qed.

(** C4, counterexample: for the base date Wednesday 2024-01-03 and the
    series of 2024-01-02 and 2024-01-03 the weekly target is Friday
    2023-12-29, no trading day is on or before it, and the function returns
    2024-01-02, which is after the target. *)
Lemma previous_week_day_after_target :
  two_day_series <> []
  /\ previous_week_target 738888 = Ok 738883
  /\ get_previous_week_last_trading_day 738888 two_day_series = Ok 738887
  /\ ~ (738887 <= 738883).
Proof.
  split; [discriminate|]. split; [reflexivity|]. split; [reflexivity|]. lia.
Qed.

(** C4, as amended: for every base date and every series that is not empty,
    the function returns a date that is a trading day of the series; the
    weekly target, when it is a date, is a Friday; the date returned is on
    or before the target whenever some trading day of the series is, and is
    the first trading day of the series when none is (or when the target is
    not a date). *)
Theorem previous_week_day_is_trading_day
  (base_date : Date.date) (price_series : series) :
  price_series <> [] ->
  exists r first last,
    get_previous_week_last_trading_day base_date price_series = Ok r
    /\ In r (index_date price_series)
    /\ first_index_date price_series = Ok first
    /\ iloc (drop_duplicates (index_date price_series)) (-1) = Ok last
    /\ (forall target,
          previous_week_target (clamp_to_last base_date last) = Ok target ->
          Date.weekday target = 4
          /\ ((exists d, In d (index_date price_series) /\ d <= target) ->
              r <= target)
          /\ ((forall d, In d (index_date price_series) -> target < d) ->
              r = first))
    /\ (forall e,
          previous_week_target (clamp_to_last base_date last) = Raise e ->
          r = first).
Proof.
  intros Hne.
  destruct (get_previous_week_cases base_date price_series Hne)
    as (first & last & Hfirst & Hin & Hlast & Heq).
  destruct (get_previous_week_In base_date price_series Hne) as (r & Hr & Hrin).
  exists r, first, last. do 4 (split; [assumption|]).
  rewrite Hr in Heq. split.
  - intros target Ht. rewrite Ht in Heq. cbv zeta in Heq.
    split; [apply (previous_week_target_before _ _ Ht)|].
    set (past := filter (fun d => d <=? target)
                   (drop_duplicates (index_date price_series))) in *.
    destruct (empty past) eqn:Ee.
    + injection Heq as ->. apply empty_spec in Ee. split; [|reflexivity].
      intros (d & Hd & Hle). exfalso.
      assert (In d past) as Hp.
      { apply filter_In. split; [now apply drop_duplicates_In | now apply Z.leb_le]. }
      rewrite Ee in Hp. exact Hp.
    + symmetry in Heq. apply iloc_In, filter_In in Heq as [Hr1 Hr2].
      apply Z.leb_le in Hr2. split; [intros _; exact Hr2|].
      intros Hall. specialize (Hall r Hrin). lia.
  - intros e He. rewrite He in Heq. now injection Heq as ->.
Qed.

(** ** The 132-day base *)

Lemma on_date_nonempty (s : series) (d : Date.date) :
  In d (index_date s) -> on_date s d <> [].
Proof.
  intros Hin. unfold index_date, index in Hin. rewrite map_map in Hin.
  apply in_map_iff in Hin as (o & Ho & Hin).
  assert (In o (on_date s d)) as H.
  { apply filter_In. split; [exact Hin | now apply Z.eqb_eq]. }
  intros Hnil. rewrite Hnil in H. exact H.
Qed.

Lemma iloc_last_or_nonempty (data : series) (default c : float) :
  data <> [] -> iloc_last_or data default = Ok c ->
  iloc (values data) (-1) = Ok c.
Proof.
  intros Hne. unfold iloc_last_or.
  destruct (empty data) eqn:E; [apply empty_spec in E; contradiction|].
  cbn [negb]. tauto.
Qed.

(** C5, counterexample: on the series of 2024-01-02 (close 100) and
    2024-01-03 (close 110), the date 132 days before the base date
    (2023-08-24) is before the first observation; the 132-day base date is
    2024-01-02, the base close is 100 and not the latest close 110, and the
    132-day return is 10, not 0. *)
Lemma short_series_days_132_return_not_zero :
  exists l back,
    compute_locals after_close_clock two_day_series = Ok l
    /\ Date.sub_days (base_date l) 132 = Ok back
    /\ (forall d, In d (index_date two_day_series) -> back < d)
    /\ days_132_date l = 738887
    /\ days_132_close l = 100%float
    /\ latest_close l = 110%float
    /\ days_132_return l = 10%float
    /\ (days_132_return l =? 0)%float = false.
Proof.
  destruct (compute_locals after_close_clock two_day_series) as [l|e] eqn:El;
    [|vm_compute in El; discriminate].
  vm_compute in El. injection El as <-.
  eexists. exists 738756. split; [reflexivity|]. split; [reflexivity|].
  split; [|repeat split; vm_compute; reflexivity].
  cbn. intros d [<- | [<- | []]]; lia.
Qed.

Lemma series_nonempty_of_len (s : series) : 2 <= len s -> s <> [].
Proof. intros H ->. rewrite len_nil in H. lia. Qed.

(** When the date the search starts from is before every trading day, the
    search ends on the first trading day of the series. *)
Lemma get_previous_week_before_all (back : Date.date) (s : series) (first r : Date.date) :
  s <> [] ->
  (forall d, In d (index_date s) -> back < d) ->
  first_index_date s = Ok first ->
  get_previous_week_last_trading_day back s = Ok r ->
  r = first.
Proof.
  intros Hne Hall Hfirst Hr.
  destruct (get_previous_week_cases back s Hne)
    as (first' & last & Hfirst' & _ & Hlast & Heq).
  rewrite Hfirst in Hfirst'. injection Hfirst' as <-.
  rewrite Hr in Heq.
  assert (Hlast_in : In last (index_date s)).
  { apply (proj1 (drop_duplicates_In _ _)). eapply iloc_In. exact Hlast. }
  assert (Hclamp : clamp_to_last back last = back).
  { unfold clamp_to_last. specialize (Hall last Hlast_in).
    replace (last <? back) with false by (symmetry; apply Z.ltb_ge; lia).
    reflexivity. }
  rewrite Hclamp in Heq.
  destruct (previous_week_target back) as [t|e] eqn:Et;
    [|now injection Heq as ->].
  cbv zeta in Heq.
  destruct (previous_week_target_before _ _ Et) as (Hlt & _).
  assert (Hempty : filter (fun d => d <=? t) (drop_duplicates (index_date s)) = []).
  { destruct (filter _ _) as [|d rest] eqn:Ef; [reflexivity|]. exfalso.
    assert (In d (filter (fun d => d <=? t) (drop_duplicates (index_date s)))) as Hd
        by (rewrite Ef; now left).
    apply filter_In in Hd as [Hd1 Hd2]. apply Z.leb_le in Hd2.
    pose proof (proj1 (drop_duplicates_In _ _) Hd1) as Hd3.
    specialize (Hall d Hd3). lia. }
  rewrite Hempty in Heq. cbn in Heq. now injection Heq as ->.
Qed.

(** C5, as amended: for a series of at least two observations on which the
    calculation runs to its end, the 132-day base date is always a trading
    day of the series, so the base close is the last close observed on that
    day and the latest close is never substituted for it; the 132-day return
    of the returned tuple (its field 6) is the percentage return of the
    latest close over that close; and when
    the date 132 days before the base date is before every observation, the
    132-day base date is the first trading day of the series. *)
Theorem days_132_base_is_an_observation
  (clk : clock) (price_series : series) (l : locals) :
  2 <= len price_series ->
  compute_locals clk price_series = Ok l ->
  In (days_132_date l) (index_date price_series)
  /\ on_date price_series (days_132_date l) <> []
  /\ iloc (values (on_date price_series (days_132_date l))) (-1)
     = Ok (days_132_close l)
  /\ nth_error (calculate_returns clk price_series) 6
     = Some (Num (safe_return (latest_close l) (days_132_close l)))
  /\ (forall back first,
        Date.sub_days (base_date l) 132 = Ok back ->
        first_index_date price_series = Ok first ->
        (forall d, In d (index_date price_series) -> back < d) ->
        days_132_date l = first).
Proof.
  intros Hlen Hl.
  pose proof (series_nonempty_of_len _ Hlen) as Hne.
  pose proof (compute_locals_spec _ _ _ Hl) as Hs.
  destruct (ls_days_132_date _ _ _ Hs) as (back & Hback & Hdate).
  assert (Hin : In (days_132_date l) (index_date price_series)).
  { destruct (get_previous_week_In back price_series Hne) as (r & Hr & Hrin).
    rewrite Hdate in Hr. now injection Hr as ->. }
  split; [exact Hin|].
  pose proof (on_date_nonempty _ _ Hin) as Hdata.
  split; [exact Hdata|].
  split; [apply (iloc_last_or_nonempty _ (latest_close l)); [exact Hdata|];
          exact (ls_days_132_close _ _ _ Hs)|].
  split; [now rewrite (calculate_returns_computed clk price_series l Hlen Hl)|].
  intros back' first Hback' Hfirst Hall.
  rewrite Hback in Hback'. injection Hback' as <-.
  exact (get_previous_week_before_all back price_series first _ Hne Hall Hfirst Hdate).
Qed.

(** ** The last trading day of a month *)

(** The backward scan returns the latest of the dates it is given among the
    [n] days that end on [test_date], and nothing when there is none. *)
Lemma scan_month_spec (date_values : list Date.date) (n : nat) :
  forall test_date,
    match scan_month date_values test_date n with
    | Some r =>
        test_date - Z.of_nat n < r <= test_date
        /\ In r date_values
        /\ (forall d, In d date_values -> d <= test_date -> d <= r)
    | None =>
        forall d, In d date_values ->
                  ~ (test_date - Z.of_nat n < d <= test_date)
    end.
Proof.
  induction n as [|k IH]; intros test_date; cbn [scan_month].
  - intros d _. lia.
  - destruct (existsb (Z.eqb test_date) date_values) eqn:E.
    + apply existsb_exists in E as (y & Hy & Ey). apply Z.eqb_eq in Ey. subst y.
      split; [lia|]. split; [exact Hy|]. intros d _ Hd. exact Hd.
    + assert (Hnot : ~ In test_date date_values).
      { intros Hin. assert (existsb (Z.eqb test_date) date_values = true) as Ht.
        { apply existsb_exists. exists test_date. split; [exact Hin | apply Z.eqb_refl]. }
        congruence. }
      specialize (IH (test_date - 1)).
      destruct (scan_month date_values (test_date - 1) k) as [r|].
      * destruct IH as (Hr & Hin & Hmax). split; [lia|]. split; [exact Hin|].
        intros d Hd Hle. destruct (Z.eq_dec d test_date) as [->|Hne];
          [contradiction|]. apply Hmax; [exact Hd | lia].
      * intros d Hd Hrange. destruct (Z.eq_dec d test_date) as [->|Hne];
          [contradiction|]. apply (IH d Hd). lia.
Qed.

(** *** The calendar: [ord2ymd] inverts [ymd2ord] *)

Lemma days_before_year_decomp (n400 n100 n4 n1 : Z) :
  0 <= n400 -> 0 <= n100 <= 3 -> 0 <= n4 <= 24 -> 0 <= n1 <= 3 ->
  Date.days_before_year (n400 * 400 + 1 + n100 * 100 + n4 * 4 + n1)
  = 146097 * n400 + 36524 * n100 + 1461 * n4 + 365 * n1.
Proof.
  intros. unfold Date.days_before_year. cbv zeta.
  Z.div_mod_to_equations. lia.
Qed.

Lemma is_leap_decomp (n400 n100 n4 n1 : Z) :
  0 <= n400 -> 0 <= n100 <= 3 -> 0 <= n4 <= 24 -> 0 <= n1 <= 3 ->
  Date.is_leap (n400 * 400 + 1 + n100 * 100 + n4 * 4 + n1)
  = (n1 =? 3) && (negb (n4 =? 24) || (n100 =? 3)).
Proof.
  intros. unfold Date.is_leap.
  set (y := n400 * 400 + 1 + n100 * 100 + n4 * 4 + n1).
  destruct (Z.eqb_spec n1 3), (Z.eqb_spec n4 24), (Z.eqb_spec n100 3),
    (Z.eqb_spec (y mod 4) 0), (Z.eqb_spec (y mod 100) 0), (Z.eqb_spec (y mod 400) 0);
    cbn; try reflexivity; exfalso; subst y; Z.div_mod_to_equations; lia.
Qed.

(** The month and the day of the [r1]-th day (from 0) of a year. *)
Lemma month_and_day (r1 : Z) (leap : bool) :
  0 <= r1 <= 364 ->
  let month := Z.shiftr (r1 + 50) 5 in
  let preceding :=
    Date.DAYS_BEFORE_MONTH month + (if (2 <? month) && leap then 1 else 0) in
  let '(m, p) :=
    if r1 <? preceding
    then (month - 1,
          preceding - (Date.DAYS_IN_MONTH (month - 1)
                       + (if (month - 1 =? 2) && leap then 1 else 0)))
    else (month, preceding) in
  1 <= m <= 12
  /\ p = Date.DAYS_BEFORE_MONTH m + (if (2 <? m) && leap then 1 else 0)
  /\ 1 <= r1 - p + 1
       <= (if (m =? 2) && leap then 29 else Date.DAYS_IN_MONTH m).
Proof.
  intros Hr. cbv zeta.
  rewrite Z.shiftr_div_pow2 by lia. change (2 ^ 5) with 32.
  set (m0 := (r1 + 50) / 32).
  assert (Hm0 : 1 <= m0 <= 12 /\ 32 * m0 - 50 <= r1 <= 32 * m0 - 19)
    by (subst m0; Z.div_mod_to_equations; lia).
  clearbody m0.
  assert (Hcases : m0 = 1 \/ m0 = 2 \/ m0 = 3 \/ m0 = 4 \/ m0 = 5 \/ m0 = 6
                   \/ m0 = 7 \/ m0 = 8 \/ m0 = 9 \/ m0 = 10 \/ m0 = 11 \/ m0 = 12)
    by lia.
  destruct leap;
    repeat (destruct Hcases as [-> | Hcases]); try subst m0;
    cbn -[Z.ltb Z.leb Z.add Z.sub];
    match goal with
    | |- context [r1 <? ?p] => destruct (Z.ltb_spec r1 p)
    end; cbn in *; lia.
Qed.

(** [ord2ymd] inverts [ymd2ord]: the year, month and day of a valid date
    are in range and give the date back. *)
Lemma ord2ymd_inverse (d : Date.date) :
  Date.valid d ->
  1 <= Date.year d <= 9999
  /\ 1 <= Date.month d <= 12
  /\ 1 <= Date.day d <= Date.days_in_month (Date.year d) (Date.month d)
  /\ Date.ymd2ord (Date.year d) (Date.month d) (Date.day d) = d.
Proof.
  unfold Date.valid, Date.MAXORDINAL, Date.year, Date.month, Date.day, Date.ord2ymd.
  unfold Date.DI400Y, Date.DI100Y, Date.DI4Y.
  intros Hd. cbv zeta.
  set (n400 := (d - 1) / 146097).
  set (r400 := (d - 1) mod 146097).
  set (n100 := r400 / 36524).
  set (r100 := r400 mod 36524).
  set (n4 := r100 / 1461).
  set (r4 := r100 mod 1461).
  set (n1 := r4 / 365).
  set (r1 := r4 mod 365).
  assert (H400 : 0 <= n400 <= 24 /\ 0 <= r400 < 146097
                 /\ d - 1 = 146097 * n400 + r400).
  { subst n400 r400. Z.div_mod_to_equations. lia. }
  assert (H100 : 0 <= n100 <= 4 /\ 0 <= r100 < 36524
                 /\ r400 = 36524 * n100 + r100).
  { subst n100 r100. Z.div_mod_to_equations. lia. }
  assert (H4 : 0 <= n4 <= 24 /\ 0 <= r4 < 1461 /\ r100 = 1461 * n4 + r4).
  { subst n4 r4. Z.div_mod_to_equations. lia. }
  assert (H1 : 0 <= n1 <= 4 /\ 0 <= r1 < 365 /\ r4 = 365 * n1 + r1).
  { subst n1 r1. Z.div_mod_to_equations. lia. }
  clearbody n400 r400 n100 r100 n4 r4 n1 r1.
  assert (Hyear : 1 <= n400 * 400 + 1 + n100 * 100 + n4 * 4 + n1 <= 9999) by lia.
  destruct ((n1 =? 4) || (n100 =? 4)) eqn:Eend.
  - (* the last day of a leap year *)
    cbn [fst snd].
    set (y := n400 * 400 + 1 + n100 * 100 + n4 * 4 + n1 - 1).
    assert (Hy : 1 <= y <= 9999 /\ Date.is_leap y = true
                 /\ Date.days_before_year y + 366 = d).
    { apply orb_prop in Eend as [E|E]; apply Z.eqb_eq in E.
      - assert (r1 = 0) by lia. assert (n100 <= 3) by lia. assert (n4 <= 23) by lia.
        replace y with (n400 * 400 + 1 + n100 * 100 + (n4 + 1) * 4 + (-1 + 0))
          by (subst y; lia).
        split; [lia|]. unfold Date.is_leap, Date.days_before_year. cbv zeta.
        split.
        + apply andb_true_iff. split; [apply Z.eqb_eq|].
          * Z.div_mod_to_equations. lia.
          * apply orb_true_iff. left. apply negb_true_iff, Z.eqb_neq.
            Z.div_mod_to_equations. lia.
        + Z.div_mod_to_equations. lia.
      - assert (r100 = 0) by lia. assert (n4 = 0) by lia. assert (n1 = 0) by lia.
        assert (r1 = 0) by lia.
        replace y with (400 * (n400 + 1)) by (subst y; lia).
        split; [lia|]. unfold Date.is_leap, Date.days_before_year. cbv zeta.
        split.
        + apply andb_true_iff. split; [apply Z.eqb_eq|].
          * Z.div_mod_to_equations. lia.
          * apply orb_true_iff. right. apply Z.eqb_eq.
            Z.div_mod_to_equations. lia.
        + Z.div_mod_to_equations. lia. }
    clearbody y. destruct Hy as (Hy & Hleap & Hdby).
    unfold Date.days_in_month, Date.ymd2ord, Date.days_before_month.
    rewrite Hleap. cbn. lia.
  - apply orb_false_iff in Eend as [E1 E100].
    apply Z.eqb_neq in E1, E100.
    pose proof (days_before_year_decomp n400 n100 n4 n1) as Hdby.
    pose proof (is_leap_decomp n400 n100 n4 n1) as Hleap.
    specialize (Hdby ltac:(lia) ltac:(lia) ltac:(lia) ltac:(lia)).
    specialize (Hleap ltac:(lia) ltac:(lia) ltac:(lia) ltac:(lia)).
    set (y := n400 * 400 + 1 + n100 * 100 + n4 * 4 + n1) in *.
    set (leap := (n1 =? 3) && (negb (n4 =? 24) || (n100 =? 3))) in *.
    pose proof (month_and_day r1 leap ltac:(lia)) as Hmd. cbv zeta in Hmd.
    destruct (r1 <? Date.DAYS_BEFORE_MONTH (Z.shiftr (r1 + 50) 5)
                    + (if (2 <? Z.shiftr (r1 + 50) 5) && leap then 1 else 0));
      cbn [fst snd];
      destruct Hmd as (Hm & Hp & Hday);
      unfold Date.days_in_month, Date.ymd2ord, Date.days_before_month;
      rewrite Hleap; (split; [exact Hyear|]); (split; [exact Hm|]);
      (split; [lia|]); lia.
Qed.

Lemma ord2ymd_year_month_range (d : Date.date) :
  Date.valid d ->
  1 <= Date.year d <= 9999 /\ 1 <= Date.month d <= 12.
Proof.
  intros Hd. destruct (ord2ymd_inverse d Hd) as (Hy & Hm & _). now split.
Qed.

Lemma ymd2ord_in_month (y m dd d : Z) :
  1 <= dd <= Date.days_in_month y m ->
  Date.ymd2ord y m dd = d ->
  Date.ymd2ord y m 1 <= d <= Date.ymd2ord y m (Date.days_in_month y m).
Proof. unfold Date.ymd2ord. lia. Qed.

(** A valid date lies in its own month. *)
Lemma date_in_its_month (d : Date.date) :
  Date.valid d -> first_day_of_month d <= d <= last_day_of_month d.
Proof.
  intros Hd. destruct (ord2ymd_inverse d Hd) as (_ & _ & Hday & Hinv).
  exact (ymd2ord_in_month _ _ _ _ Hday Hinv).
Qed.

Lemma days_before_next_year (y : Z) :
  Date.days_before_year (y + 1)
  = Date.days_before_year y + 365 + (if Date.is_leap y then 1 else 0).
Proof.
  unfold Date.days_before_year, Date.is_leap. cbv zeta.
  replace (y + 1 - 1) with y by lia.
  destruct (y mod 4 =? 0) eqn:E4; destruct (y mod 100 =? 0) eqn:E100;
    destruct (y mod 400 =? 0) eqn:E400; cbn [andb orb negb];
    rewrite ?Z.eqb_eq, ?Z.eqb_neq in *;
    Z.div_mod_to_equations; lia.
Qed.

Lemma days_before_year_bounds (y : Z) :
  1 <= y <= 9999 ->
  0 <= Date.days_before_year y <= 3651694
  /\ (2 <= y -> 365 <= Date.days_before_year y)
  /\ (y <= 9998 -> Date.days_before_year y <= 3651329).
Proof.
  unfold Date.days_before_year. cbv zeta. intros Hy.
  Z.div_mod_to_equations. lia.
Qed.

(** For a date outside January of year 1 and December of year 9999, the
    bounds of its month are computed without raising. *)
Lemma month_bounds (base_date : Date.date) :
  Date.valid base_date ->
  ~ (Date.year base_date = 1 /\ Date.month base_date = 1) ->
  ~ (Date.year base_date = 9999 /\ Date.month base_date = 12) ->
  end_of_month base_date = Ok (last_day_of_month base_date)
  /\ month_lower_bound base_date = Ok (first_day_of_month base_date - 1)
  /\ 1 < first_day_of_month base_date <= last_day_of_month base_date
  /\ last_day_of_month base_date - first_day_of_month base_date <= 30.
Proof.
  intros Hvalid Hlow Hhigh.
  destruct (ord2ymd_year_month_range base_date Hvalid) as [Hy Hm].
  unfold end_of_month, next_month_first_day, month_lower_bound,
    first_day_of_month, last_day_of_month, Date.replace.
  set (y := Date.year base_date) in *. set (m := Date.month base_date) in *.
  clearbody y m.
  destruct (days_before_year_bounds y Hy) as (Hb0 & Hb2 & Hb9998).
  pose proof (days_before_next_year y) as Hnext.
  assert (Hleap9999 : y = 9999 -> Date.is_leap y = false) by (intros ->; reflexivity).
  assert (Hcases : m = 1 \/ m = 2 \/ m = 3 \/ m = 4 \/ m = 5 \/ m = 6 \/ m = 7
                   \/ m = 8 \/ m = 9 \/ m = 10 \/ m = 11 \/ m = 12) by lia.
  unfold Date.make, Date.sub_days, Date.ymd2ord, Date.days_before_month,
    Date.days_in_month, Date.MINYEAR, Date.MAXYEAR, Date.MAXORDINAL.
  replace (1 <=? y) with true by (symmetry; apply Z.leb_le; lia).
  replace (y <=? 9999) with true by (symmetry; apply Z.leb_le; lia).
  destruct (Date.is_leap y) eqn:Eleap;
    repeat (destruct Hcases as [-> | Hcases]); try subst m;
    repeat first
      [ progress cbn -[Date.days_before_year Date.is_leap Z.leb Z.ltb]
      | progress rewrite ?Eleap
      | match goal with
        | |- context [(?a <? ?b)] => destruct (Z.ltb_spec a b); try lia
        | |- context [(?a <=? ?b)] => destruct (Z.leb_spec a b); try lia
        end ];
    repeat split; try (f_equal; lia); try lia.
Qed.

(** C6, counterexample: for the base date 9999-12-22 the first day of the
    following month is not a date; the series has a trading day in December
    9999 (the 22nd), and the function returns the first date of the series,
    9999-11-22, which is before the first day of the month. *)
Lemma last_trading_day_of_month_outside_month :
  Date.ord2ymd 3652050 = (9999, 12, 22)
  /\ first_day_of_month 3652050 = 3652029
  /\ last_day_of_month 3652050 = 3652059
  /\ In 3652050 (index_date last_year_series)
  /\ next_month_first_day 3652050 = Raise ValueError
  /\ get_last_trading_day_of_month 3652050 last_year_series = Ok 3652020
  /\ ~ (first_day_of_month 3652050 <= 3652020 <= last_day_of_month 3652050).
Proof.
  split; [reflexivity|]. split; [reflexivity|]. split; [reflexivity|].
  split; [cbn; tauto|]. split; [reflexivity|]. split; [reflexivity|].
  vm_compute. intros [H _]. apply H. reflexivity.
Qed.

(** C6, as amended: for every valid base date outside January of year 1 and
    December of year 9999 and every series, whenever the month of the base
    date contains a trading day of the series, the function returns a date
    between the first and the last day of that month, which is a trading
    day, is the latest trading day of the month, and is the first trading
    day met by the backward scan from the last day of the month (the base
    date itself lies between the two bounds of its month). *)
Theorem last_trading_day_of_month_is_latest_in_month
  (base_date : Date.date) (price_series : series) :
  Date.valid base_date ->
  ~ (Date.year base_date = 1 /\ Date.month base_date = 1) ->
  ~ (Date.year base_date = 9999 /\ Date.month base_date = 12) ->
  (exists d, In d (index_date price_series)
             /\ first_day_of_month base_date <= d <= last_day_of_month base_date) ->
  first_day_of_month base_date <= base_date <= last_day_of_month base_date
  /\ exists r,
    get_last_trading_day_of_month base_date price_series = Ok r
    /\ first_day_of_month base_date <= r <= last_day_of_month base_date
    /\ In r (index_date price_series)
    /\ (forall d, In d (index_date price_series) ->
                  first_day_of_month base_date <= d <= last_day_of_month base_date ->
                  d <= r)
    /\ scan_month (drop_duplicates (index_date price_series))
         (last_day_of_month base_date)
         (Z.to_nat (last_day_of_month base_date - first_day_of_month base_date + 1))
       = Some r.
Proof.
  intros Hvalid Hlow Hhigh (d0 & Hd0 & Hrange0).
  split; [now apply date_in_its_month|].
  destruct (month_bounds base_date Hvalid Hlow Hhigh) as (Hend & Hlower & Hord & _).
  set (first := first_day_of_month base_date) in *.
  set (last := last_day_of_month base_date) in *.
  unfold get_last_trading_day_of_month. rewrite Hend, Hlower. cbn [bind].
  replace (last - (first - 1)) with (last - first + 1) by lia.
  pose proof (scan_month_spec (drop_duplicates (index_date price_series))
                (Z.to_nat (last - first + 1)) last) as Hscan.
  rewrite Z2Nat.id in Hscan by lia.
  destruct (scan_month _ last _) as [r|].
  - destruct Hscan as (Hr & Hin & Hmax).
    exists r. cbn [try_except]. split; [reflexivity|]. split; [lia|].
    split; [exact (proj1 (drop_duplicates_In _ _) Hin)|].
    split; [|reflexivity].
    intros d Hd Hdr. apply Hmax; [|lia].
    exact (proj2 (drop_duplicates_In _ _) Hd).
  - exfalso. apply (Hscan d0); [|lia].
    exact (proj2 (drop_duplicates_In _ _) Hd0).
Qed.

(** ** Signs of binary64 results

    The facts below are read off the specification of the primitive floats
    ([SpecFloat]): rounding keeps the sign it is given, and the difference
    of two positive floats in increasing order is not positive. *)

Section Rounding.

Variables prec emax : Z.

Lemma shr_1_nonneg (mrs : shr_record) :
  0 <= shr_m mrs -> 0 <= shr_m (shr_1 mrs).
Proof.
  destruct mrs as [m r s]. cbn [shr_m]. intros Hm.
  destruct m as [|p|p]; [cbn; lia | destruct p; cbn; lia | lia].
Qed.

Lemma iter_shr_1_nonneg (p : positive) :
  forall mrs, 0 <= shr_m mrs -> 0 <= shr_m (iter_pos shr_1 p mrs).
Proof.
  induction p as [p IH | p IH |]; intros mrs Hm; cbn [iter_pos].
  - apply IH, IH, shr_1_nonneg, Hm.
  - apply IH, IH, Hm.
  - apply shr_1_nonneg, Hm.
Qed.

Lemma shr_record_of_loc_m (m : Z) (l : location) :
  shr_m (shr_record_of_loc m l) = m.
Proof. destruct l as [|[ | | ]]; reflexivity. Qed.

Lemma shr_fexp_nonneg (m e : Z) (l : location) :
  0 <= m -> 0 <= shr_m (fst (shr_fexp prec emax m e l)).
Proof.
  intros Hm. unfold shr_fexp, shr.
  destruct (fexp prec emax (Zdigits2 m + e) - e) as [|p|p]; cbn [fst].
  - now rewrite shr_record_of_loc_m.
  - apply iter_shr_1_nonneg. now rewrite shr_record_of_loc_m.
  - now rewrite shr_record_of_loc_m.
Qed.

Lemma round_nearest_even_nonneg (m : Z) (l : location) :
  0 <= m -> 0 <= round_nearest_even m l.
Proof.
  intros Hm. unfold round_nearest_even.
  destruct l as [|[ | | ]]; [lia | | lia | lia].
  destruct (Z.even m); lia.
Qed.

Lemma binary_round_aux_sign (sx : bool) (mx ex : Z) (lx : location) :
  0 <= mx -> has_sign sx (binary_round_aux prec emax sx mx ex lx).
Proof.
  intros Hm. unfold binary_round_aux.
  pose proof (shr_fexp_nonneg mx ex lx Hm) as H1.
  destruct (shr_fexp prec emax mx ex lx) as [mrs' e']. cbn [fst] in H1.
  pose proof (shr_fexp_nonneg
                (round_nearest_even (shr_m mrs') (loc_of_shr_record mrs'))
                e' loc_Exact (round_nearest_even_nonneg _ _ H1)) as H2.
  destruct (shr_fexp prec emax _ e' loc_Exact) as [mrs'' e'']. cbn [fst] in H2.
  destruct (shr_m mrs'') as [|m|m]; [reflexivity | | lia].
  destruct (e'' <=? emax - prec); reflexivity.
Qed.

Lemma binary_round_sign (sx : bool) (mx : positive) (ex : Z) :
  has_sign sx (binary_round prec emax sx mx ex).
Proof.
  unfold binary_round.
  destruct (shl_align mx ex _) as [mz ez].
  apply binary_round_aux_sign. lia.
Qed.

End Rounding.

Lemma has_sign_true_nonpos (x : spec_float) : has_sign true x -> sf_nonpos x.
Proof. destruct x; cbn; auto. Qed.

Lemma div_eucl_quotient_nonneg (a b : Z) :
  0 <= a -> 0 < b -> 0 <= fst (Z.div_eucl a b).
Proof.
  intros Ha Hb. change (fst (Z.div_eucl a b)) with (a / b).
  apply Z.div_pos; assumption.
Qed.

Lemma SFdiv_nonpos (prec emax : Z) (x : spec_float) (my : positive) (ey : Z) :
  sf_nonpos x -> sf_nonpos (SFdiv prec emax x (S754_finite false my ey)).
Proof.
  destruct x as [s | s | | s mx ex]; cbn [sf_nonpos SFdiv]; intros Hx;
    [exact I | subst s; reflexivity | contradiction |].
  subst s. cbn [xorb].
  unfold SFdiv_core_binary.
  set (m' := match _ - _ with Z0 => Zpos mx | Zpos _ => _ | Zneg _ => 0 end).
  assert (Hm' : 0 <= m').
  { subst m'. destruct (_ - _); [lia | apply Z.shiftl_nonneg; lia | lia]. }
  pose proof (div_eucl_quotient_nonneg m' (Zpos my) Hm' eq_refl) as Hq.
  destruct (Z.div_eucl m' (Zpos my)) as [q r]. cbn [fst] in Hq.
  apply has_sign_true_nonpos, binary_round_aux_sign, Hq.
Qed.

Lemma SFmul_nonpos (prec emax : Z) (x : spec_float) (my : positive) (ey : Z) :
  sf_nonpos x -> sf_nonpos (SFmul prec emax x (S754_finite false my ey)).
Proof.
  destruct x as [s | s | | s mx ex]; cbn [sf_nonpos SFmul]; intros Hx;
    [exact I | subst s; reflexivity | contradiction |].
  subst s. cbn [xorb].
  apply has_sign_true_nonpos, binary_round_aux_sign. lia.
Qed.

Lemma binary_normalize_nonpos (prec emax m e : Z) :
  m <= 0 -> sf_nonpos (binary_normalize prec emax m e false).
Proof.
  intros Hm. destruct m as [|p|p]; cbn [binary_normalize]; [exact I | lia |].
  apply has_sign_true_nonpos, binary_round_sign.
Qed.

(** The number of binary digits of a mantissa bounds it on both sides. *)
Lemma digits2_pos_bounds (m : positive) :
  2 ^ (Zpos (digits2_pos m) - 1) <= Zpos m < 2 ^ Zpos (digits2_pos m).
Proof.
  induction m as [p IH | p IH |]; cbn [digits2_pos].
  - rewrite Pos2Z.inj_succ.
    replace (Z.succ (Zpos (digits2_pos p)) - 1)
      with (Z.succ (Zpos (digits2_pos p) - 1)) by lia.
    rewrite !Z.pow_succ_r by lia. lia.
  - rewrite Pos2Z.inj_succ.
    replace (Z.succ (Zpos (digits2_pos p)) - 1)
      with (Z.succ (Zpos (digits2_pos p) - 1)) by lia.
    rewrite !Z.pow_succ_r by lia. lia.
  - cbn. lia.
Qed.

Lemma iter_xO_pow2 (m d : positive) :
  Zpos (Pos.iter xO m d) = Zpos m * 2 ^ Zpos d.
Proof.
  induction d as [|d IH] using Pos.peano_ind.
  - cbn. lia.
  - rewrite Pos.iter_succ, Pos2Z.inj_succ, Z.pow_succ_r by lia.
    rewrite Pos2Z.inj_xO, IH. lia.
Qed.

Lemma shl_align_same (m : positive) (e : Z) : shl_align m e e = (m, e).
Proof. unfold shl_align. now rewrite Z.sub_diag. Qed.

Lemma canonical_digits (m : positive) (e : Z) :
  valid_binary (S754_finite false m e) = true ->
  Zpos (digits2_pos m) <= 53
  /\ -1074 <= e
  /\ (-1074 < e -> Zpos (digits2_pos m) = 53).
Proof.
  cbn [SpecFloat.valid_binary]. unfold bounded, canonical_mantissa, fexp, SpecFloat.emin.
  intros H. apply andb_prop in H as [H _]. apply Z.eqb_eq in H.
  change prec with 53 in H. change emax with 1024 in H. lia.
Qed.

(** The difference of two positive binary64 floats in increasing order is
    zero or negative. *)
Lemma SF64sub_nonpos (mp : positive) (ep : Z) (mm : positive) (em : Z) :
  valid_binary (S754_finite false mp ep) = true ->
  valid_binary (S754_finite false mm em) = true ->
  SFleb (S754_finite false mp ep) (S754_finite false mm em) = true ->
  sf_nonpos (SF64sub (S754_finite false mp ep) (S754_finite false mm em)).
Proof.
  intros Vp Vm Hle.
  unfold SF64sub, SFsub. cbn [cond_Zopp]. apply binary_normalize_nonpos.
  unfold SFleb, SFcompare in Hle.
  destruct (Z.compare_spec ep em) as [Heq | Hlt | Hgt].
  - subst em. rewrite Z.min_id, !shl_align_same. cbn [fst].
    change (Pos.compare_cont Eq mp mm) with (Pos.compare mp mm) in Hle.
    destruct (Pos.compare_spec mp mm) as [-> | H | H]; [lia | lia | discriminate].
  - rewrite Z.min_l by lia. rewrite shl_align_same. cbn [fst].
    unfold shl_align. destruct (ep - em) as [|d|d] eqn:Ed; [lia | lia |].
    cbn [fst]. rewrite iter_xO_pow2.
    destruct (canonical_digits _ _ Vp) as (Hdp & Hep & _).
    destruct (canonical_digits _ _ Vm) as (_ & _ & Hdm).
    specialize (Hdm ltac:(lia)).
    pose proof (digits2_pos_bounds mp) as [_ Hmp].
    pose proof (digits2_pos_bounds mm) as [Hmm _].
    rewrite Hdm in Hmm.
    assert (Hpow : 2 ^ Zpos (digits2_pos mp) <= 2 ^ 53)
      by (apply Z.pow_le_mono_r; lia).
    assert (Hd : 2 ^ 1 <= 2 ^ Zpos d) by (apply Z.pow_le_mono_r; lia).
    change (2 ^ 1) with 2 in Hd. change (2 ^ (53 - 1)) with 4503599627370496 in Hmm.
    change (2 ^ 53) with 9007199254740992 in Hpow.
    nia.
  - discriminate.
Qed.

(** ** Drawdowns of positive prices *)

Lemma Prim2SF_zero : Prim2SF 0 = S754_zero false.
Proof. vm_compute. reflexivity. Qed.

Lemma Prim2SF_infinity : Prim2SF infinity = S754_infinity false.
Proof. vm_compute. reflexivity. Qed.

Lemma Prim2SF_hundred : exists m e, Prim2SF 100 = S754_finite false m e.
Proof. do 2 eexists. vm_compute. reflexivity. Qed.

Lemma positive_price_spec (x : float) :
  positive_price x = true -> exists m e, Prim2SF x = S754_finite false m e.
Proof.
  unfold positive_price. rewrite andb_true_iff, !ltb_spec.
  rewrite Prim2SF_zero, Prim2SF_infinity.
  destruct (Prim2SF x) as [s | s | | s m e]; cbn; intros [H1 H2];
    try discriminate.
  - destruct s; discriminate.
  - destruct s; [discriminate|]. eauto.
Qed.

Lemma sf_nonpos_leb_zero (x : spec_float) :
  sf_nonpos x <-> SFleb x (S754_zero false) = true.
Proof.
  destruct x as [s | s | | s m e]; cbn.
  - split; auto.
  - destruct s; cbn; split; auto; discriminate.
  - split; [contradiction | discriminate].
  - destruct s; cbn; split; auto; discriminate.
Qed.

Lemma fleb_zero_spec (x : float) :
  (x <=? 0)%float = true <-> sf_nonpos (Prim2SF x).
Proof. rewrite leb_spec, Prim2SF_zero. symmetry. apply sf_nonpos_leb_zero. Qed.

Lemma SFcompare_refl_finite (s : bool) (m : positive) (e : Z) :
  SFcompare (S754_finite s m e) (S754_finite s m e) = Some Eq.
Proof.
  cbn. rewrite Z.compare_refl.
  change (Pos.compare_cont Eq m m) with (Pos.compare m m).
  rewrite Pos.compare_refl. destruct s; reflexivity.
Qed.

Lemma nonpos_not_nan (x : float) : (x <=? 0)%float = true -> is_nan x = false.
Proof.
  rewrite fleb_zero_spec. unfold is_nan. rewrite eqb_spec. unfold SFeqb.
  destruct (Prim2SF x) as [s | s | | s m e]; cbn [sf_nonpos]; intros H.
  - reflexivity.
  - subst s. reflexivity.
  - contradiction.
  - now rewrite SFcompare_refl_finite.
Qed.

Lemma positive_not_nan (x : float) : positive_price x = true -> is_nan x = false.
Proof.
  intros H. destruct (positive_price_spec x H) as (m & e & E).
  unfold is_nan. rewrite eqb_spec. unfold SFeqb.
  now rewrite E, SFcompare_refl_finite.
Qed.

Lemma fleb_refl_positive (x : float) :
  positive_price x = true -> (x <=? x)%float = true.
Proof.
  intros H. destruct (positive_price_spec x H) as (m & e & E).
  rewrite leb_spec. unfold SFleb. now rewrite E, SFcompare_refl_finite.
Qed.

Lemma fleb_of_not_ltb (x y : float) :
  positive_price x = true -> positive_price y = true ->
  (y <? x)%float = false -> (x <=? y)%float = true.
Proof.
  intros Hx Hy.
  destruct (positive_price_spec x Hx) as (mx & ex & Ex).
  destruct (positive_price_spec y Hy) as (my & ey & Ey).
  rewrite ltb_spec, leb_spec, Ex, Ey. unfold SFltb, SFleb. cbn.
  rewrite (Z.compare_antisym ey ex).
  change (Pos.compare_cont Eq my mx) with (Pos.compare my mx).
  change (Pos.compare_cont Eq mx my) with (Pos.compare mx my).
  rewrite (Pos.compare_antisym my mx).
  destruct (ey ?= ex); cbn; try congruence.
  destruct (my ?= mx)%positive; cbn; congruence.
Qed.

(** The drawdown of a positive price from a positive maximum that is not
    below it is zero or negative. *)
Lemma drawdown_nonpos (p m : float) :
  positive_price p = true -> positive_price m = true ->
  (p <=? m)%float = true ->
  ((p - m) / m * 100 <=? 0)%float = true.
Proof.
  intros Hp Hm Hle.
  destruct (positive_price_spec p Hp) as (mp & ep & Ep).
  destruct (positive_price_spec m Hm) as (mm & em & Em).
  destruct Prim2SF_hundred as (mh & eh & Eh).
  apply fleb_zero_spec.
  rewrite mul_spec, div_spec, sub_spec, Ep, Em, Eh.
  apply SFmul_nonpos, SFdiv_nonpos, SF64sub_nonpos.
  - rewrite <- Ep. apply Prim2SF_valid.
  - rewrite <- Em. apply Prim2SF_valid.
  - rewrite <- Ep, <- Em, <- leb_spec. exact Hle.
Qed.

Lemma dropna_no_nan (l : list float) :
  Forall (fun x => is_nan x = false) l -> dropna l = l.
Proof.
  unfold dropna. induction 1 as [|x r Hx _ IH]; cbn [filter]; [reflexivity|].
  now rewrite Hx, IH.
Qed.

Lemma fold_fmin_invariant (P : float -> Prop) (r : list float) :
  forall x, P x -> Forall P r -> P (fold_left fmin r x).
Proof.
  induction r as [|y r IH]; intros x Hx Hr; cbn [fold_left]; [exact Hx|].
  inversion Hr as [|? ? Hy Hr']; subst.
  apply IH; [|exact Hr']. unfold fmin. now destruct (y <? x)%float.
Qed.

Lemma fold_fmax_invariant (P : float -> Prop) (r : list float) :
  forall x, P x -> Forall P r -> P (fold_left fmax r x).
Proof.
  induction r as [|y r IH]; intros x Hx Hr; cbn [fold_left]; [exact Hx|].
  inversion Hr as [|? ? Hy Hr']; subst.
  apply IH; [|exact Hr']. unfold fmax. now destruct (x <? y)%float.
Qed.

(** The minimum of a column of values that are all zero or negative is zero
    or negative, provided the column is not empty. *)
Lemma nanmin_nonpos (l : list float) :
  l <> [] -> Forall (fun x => (x <=? 0)%float = true) l ->
  (nanmin l <=? 0)%float = true.
Proof.
  intros Hne Hall. unfold nanmin.
  rewrite dropna_no_nan.
  - destruct l as [|x r]; [congruence|].
    inversion Hall; subst. now apply fold_fmin_invariant.
  - eapply Forall_impl; [|exact Hall]. intros x. apply nonpos_not_nan.
Qed.

(** On positive prices every running maximum is a positive price that is
    not below the price it stands for. *)
Lemma cummax_from_positive (prices : list float) :
  Forall (fun p => positive_price p = true) prices ->
  forall m,
    match m with None => True | Some y => positive_price y = true end ->
    Forall2 (fun p M => positive_price p = true /\ positive_price M = true
                        /\ (p <=? M)%float = true)
      prices (cummax_from m prices).
Proof.
  induction 1 as [|x r Hx _ IH]; intros m Hm; cbn [cummax_from]; [constructor|].
  rewrite (positive_not_nan x Hx).
  destruct m as [y|].
  - destruct (y <? x)%float eqn:E.
    + constructor; [|now apply IH].
      repeat split; try assumption. now apply fleb_refl_positive.
    + constructor; [|now apply IH].
      repeat split; try assumption. now apply fleb_of_not_ltb.
  - constructor; [|now apply IH].
    repeat split; try assumption. now apply fleb_refl_positive.
Qed.

Lemma drawdown_of_nonpos (prices maxima : list float) :
  Forall2 (fun p M => positive_price p = true /\ positive_price M = true
                      /\ (p <=? M)%float = true) prices maxima ->
  Forall (fun x => (x <=? 0)%float = true) (drawdown_of prices maxima)
  /\ List.length (drawdown_of prices maxima) = List.length prices.
Proof.
  induction 1 as [|p M ps Ms (Hp & HM & Hle) _ [IH1 IH2]]; cbn [drawdown_of].
  - split; [constructor | reflexivity].
  - split; [constructor; [now apply drawdown_nonpos | exact IH1]|].
    cbn [List.length]. now rewrite IH2.
Qed.

Lemma max_drawdown_nonpos (prices : list float) :
  prices <> [] ->
  Forall (fun p => positive_price p = true) prices ->
  (max_drawdown prices <=? 0)%float = true.
Proof.
  intros Hne Hpos. unfold max_drawdown, cummax.
  destruct (drawdown_of_nonpos _ _ (cummax_from_positive prices Hpos None I))
    as [Hall Hlen].
  apply nanmin_nonpos; [|exact Hall].
  intros Hnil. rewrite Hnil in Hlen. destruct prices; [congruence | discriminate].
Qed.

Lemma tail_keeps_last (front : list float) (c : float) (n : Z) :
  1 <= n ->
  exists front',
    tail (front ++ [c]) n = front' ++ [c]
    /\ (forall x, In x front' -> In x front).
Proof.
  intros Hn. unfold tail. rewrite length_app. cbn [List.length].
  set (k := (List.length front + 1 - Z.to_nat n)%nat).
  assert (Hk : (k <= List.length front)%nat) by lia.
  exists (skipn k front). split.
  - rewrite skipn_app.
    replace (k - List.length front)%nat with 0%nat by lia. reflexivity.
  - intros x Hx. rewrite <- (firstn_skipn k front). apply in_or_app. now right.
Qed.

(** The maximum of a window of positive prices is a positive price that is
    not below the last price of the window. *)
Lemma nanmax_window (front : list float) (c : float) :
  Forall (fun p => positive_price p = true) front ->
  positive_price c = true ->
  positive_price (nanmax (front ++ [c])) = true
  /\ (c <=? nanmax (front ++ [c]))%float = true.
Proof.
  intros Hfront Hc. unfold nanmax.
  rewrite dropna_no_nan.
  - destruct front as [|x r]; cbn [app fold_left].
    + split; [exact Hc | now apply fleb_refl_positive].
    + rewrite fold_left_app. cbn [fold_left].
      inversion Hfront as [|? ? Hx Hr]; subst.
      pose proof (fold_fmax_invariant (fun p => positive_price p = true) r x Hx Hr)
        as Ha.
      set (a := fold_left fmax r x) in *. unfold fmax.
      destruct (a <? c)%float eqn:E.
      * split; [exact Hc | now apply fleb_refl_positive].
      * split; [exact Ha | now apply fleb_of_not_ltb].
  - apply Forall_app. split.
    + eapply Forall_impl; [|exact Hfront]. intros x. apply positive_not_nan.
    + constructor; [now apply positive_not_nan | constructor].
Qed.

Lemma iloc_last_app {A : Type} (front : list A) (c : A) :
  iloc (front ++ [c]) (-1) = Ok c.
Proof.
  destruct (iloc_from_end (front ++ [c]) 1) as (a & Ha & Hnth).
  - unfold len. rewrite length_app. cbn. lia.
  - change (- (1)) with (-1) in Ha. rewrite Ha. f_equal.
    unfold len in Hnth. rewrite length_app in Hnth. cbn [List.length] in Hnth.
    replace (Z.to_nat (Z.of_nat (List.length front + 1) - 1))
      with (List.length front) in Hnth by lia.
    rewrite nth_error_app2 in Hnth by lia.
    rewrite Nat.sub_diag in Hnth. cbn in Hnth. congruence.
Qed.

(** C9, counterexample: on the closes -1 and -2 the drawdown from the
    52-week high is +100; on the closes 100 and NaN it is a NaN; on the
    closes 0 and 0 the maximum drawdown is a NaN; none of these is [<= 0]. *)
Lemma drawdowns_not_nonpositive :
  calculate_52week_high_drawdown negative_price_series = 100%float
  /\ (calculate_52week_high_drawdown negative_price_series <=? 0)%float = false
  /\ (calculate_52week_high_drawdown missing_close_series <=? 0)%float = false
  /\ (snd (calculate_volatility_and_mdd zero_price_series) <=? 0)%float = false.
Proof. repeat split; vm_compute; reflexivity. Qed.

(** C9, as amended: for every series whose closes are all positive and
    finite, the maximum drawdown (the minimum over the series of
    (price - runningMax) / runningMax * 100) is [<= 0], and the drawdown
    from the 52-week high ((currentPrice - max of the trailing up-to-252
    observations) / that max * 100) is [<= 0]. *)
Theorem drawdowns_nonpositive (price_series : series) :
  Forall (fun c => positive_price c = true) (values price_series) ->
  (snd (calculate_volatility_and_mdd price_series) <=? 0)%float = true
  /\ (calculate_52week_high_drawdown price_series <=? 0)%float = true.
Proof.
  intros Hpos.
  unfold calculate_volatility_and_mdd, calculate_52week_high_drawdown.
  rewrite <- (len_map snd price_series). fold (values price_series).
  set (prices := values price_series) in *. clearbody prices.
  destruct (len prices <? 2) eqn:Elen; [split; reflexivity|].
  apply Z.ltb_ge in Elen.
  assert (Hne : prices <> []) by (intros ->; rewrite len_nil in Elen; lia).
  split.
  - cbn [snd]. now apply max_drawdown_nonpos.
  - destruct (exists_last Hne) as (front & c & ->).
    apply Forall_app in Hpos as [Hfront Hc].
    inversion Hc as [|? ? Hc' _]; subst.
    rewrite iloc_last_app. cbn [bind].
    destruct (tail_keeps_last front c (Z.min 252 (len (front ++ [c]))))
      as (front' & -> & Hsub); [lia|].
    assert (Hfront' : Forall (fun p => positive_price p = true) front').
    { apply Forall_forall. intros x Hx.
      exact (proj1 (Forall_forall _ _) Hfront x (Hsub x Hx)). }
    destruct (nanmax_window front' c Hfront' Hc') as [Hhigh Hle].
    now apply drawdown_nonpos.
Qed.

(** ** The theorems at concrete inputs *)

Lemma session_selection_witness :
  2 <= len three_day_series
  /\ exists li pi d,
      select_session in_session_clock three_day_series = Ok (li, pi, d).
Proof.
  assert (H : 2 <= len three_day_series) by (cbn; lia).
  split; [exact H|].
  destruct (session_selection in_session_clock three_day_series H)
    as (last & latest & previous & li & pi & _ & Hsel & _).
  exists li, pi, (ts_date (fst latest)). exact Hsel.
Defined.

Lemma previous_index_in_range_witness :
  2 <= len three_day_series
  /\ exists li pi bd,
      select_session in_session_clock three_day_series = Ok (li, pi, bd)
      /\ (Z.abs pi <=? len three_day_series) = true.
Proof.
  assert (H : 2 <= len three_day_series) by (cbn; lia).
  split; [exact H|].
  destruct (previous_index_in_range in_session_clock three_day_series H)
    as (li & pi & bd & previous & Hsel & _ & Habs & _).
  exists li, pi, bd. split; assumption.
Defined.

Lemma previous_week_day_is_trading_day_witness :
  three_day_series <> []
  /\ exists r,
      get_previous_week_last_trading_day 738900 three_day_series = Ok r
      /\ In r (index_date three_day_series).
Proof.
  assert (H : three_day_series <> []) by discriminate.
  split; [exact H|].
  destruct (previous_week_day_is_trading_day 738900 three_day_series H)
    as (r & first & last & Hr & Hin & _).
  exists r. split; assumption.
Defined.

Lemma days_132_base_is_an_observation_witness :
  2 <= len two_day_series
  /\ compute_locals after_close_clock two_day_series = Ok two_day_locals
  /\ In (days_132_date two_day_locals) (index_date two_day_series).
Proof.
  assert (H : 2 <= len two_day_series) by (cbn; lia).
  assert (Hl : compute_locals after_close_clock two_day_series = Ok two_day_locals)
    by (vm_compute; reflexivity).
  split; [exact H|]. split; [exact Hl|].
  exact (proj1 (days_132_base_is_an_observation
                  after_close_clock two_day_series two_day_locals H Hl)).
Defined.

Lemma last_trading_day_of_month_witness :
  Date.valid 738900
  /\ exists r,
      get_last_trading_day_of_month 738900 three_day_series = Ok r
      /\ first_day_of_month 738900 <= r <= last_day_of_month 738900.
Proof.
  assert (Hv : Date.valid 738900) by (unfold Date.valid, Date.MAXORDINAL; lia).
  assert (Hlow : ~ (Date.year 738900 = 1 /\ Date.month 738900 = 1))
    by (intros [H _]; vm_compute in H; discriminate).
  assert (Hhigh : ~ (Date.year 738900 = 9999 /\ Date.month 738900 = 12))
    by (intros [H _]; vm_compute in H; discriminate).
  assert (Hex : exists d, In d (index_date three_day_series)
                          /\ first_day_of_month 738900 <= d
                             <= last_day_of_month 738900).
  { exists 738889. split; [cbn; tauto|]. vm_compute. split; discriminate. }
  split; [exact Hv|].
  destruct (last_trading_day_of_month_is_latest_in_month
              738900 three_day_series Hv Hlow Hhigh Hex)
    as (_ & r & Hr & Hrange & _).
  exists r. split; assumption.
Defined.

Lemma drawdowns_nonpositive_witness :
  Forall (fun c => positive_price c = true) (values three_day_series)
  /\ (snd (calculate_volatility_and_mdd three_day_series) <=? 0)%float = true
  /\ (calculate_52week_high_drawdown three_day_series <=? 0)%float = true.
Proof.
  assert (H : Forall (fun c => positive_price c = true) (values three_day_series))
    by (repeat constructor).
  split; [exact H|].
  exact (drawdowns_nonpositive three_day_series H).
Defined.

(** * The calendar, the risk measures and the batch, further *)

(** ** The calendar *)

(** *** The calendar: [ymd2ord] inverts [ord2ymd] *)

Lemma days_before_year_mono (a b : Z) :
  1 <= a <= b -> Date.days_before_year a <= Date.days_before_year b.
Proof.
  intros H. unfold Date.days_before_year. cbv zeta.
  Z.div_mod_to_equations. lia.
Qed.

(** Within the year: the days before a month and the day of the month. *)
Lemma day_of_year_bounds (y m dd : Z) :
  1 <= m <= 12 -> 1 <= dd <= Date.days_in_month y m ->
  1 <= Date.days_before_month y m + dd
    <= 365 + (if Date.is_leap y then 1 else 0).
Proof.
  intros Hm Hd. unfold Date.days_before_month, Date.days_in_month in *.
  assert (Hcases : m = 1 \/ m = 2 \/ m = 3 \/ m = 4 \/ m = 5 \/ m = 6 \/ m = 7
                   \/ m = 8 \/ m = 9 \/ m = 10 \/ m = 11 \/ m = 12) by lia.
  destruct (Date.is_leap y);
    repeat (destruct Hcases as [-> | Hcases]); try subst m; cbn -[Z.add] in *; lia.
Qed.

Lemma day_of_year_injective (y m dd m' dd' : Z) :
  1 <= m <= 12 -> 1 <= dd <= Date.days_in_month y m ->
  1 <= m' <= 12 -> 1 <= dd' <= Date.days_in_month y m' ->
  Date.days_before_month y m + dd = Date.days_before_month y m' + dd' ->
  m = m' /\ dd = dd'.
Proof.
  intros Hm Hd Hm' Hd' Heq.
  unfold Date.days_before_month, Date.days_in_month in *.
  assert (Hcases : m = 1 \/ m = 2 \/ m = 3 \/ m = 4 \/ m = 5 \/ m = 6 \/ m = 7
                   \/ m = 8 \/ m = 9 \/ m = 10 \/ m = 11 \/ m = 12) by lia.
  assert (Hcases' : m' = 1 \/ m' = 2 \/ m' = 3 \/ m' = 4 \/ m' = 5 \/ m' = 6
                    \/ m' = 7 \/ m' = 8 \/ m' = 9 \/ m' = 10 \/ m' = 11
                    \/ m' = 12) by lia.
  destruct (Date.is_leap y);
    repeat (destruct Hcases as [-> | Hcases]); try subst m;
    repeat (destruct Hcases' as [-> | Hcases']); try subst m';
    cbn -[Z.add] in *; lia.
Qed.

Lemma ymd2ord_valid (y m dd : Z) :
  1 <= y <= 9999 -> 1 <= m <= 12 -> 1 <= dd <= Date.days_in_month y m ->
  Date.valid (Date.ymd2ord y m dd)
  /\ Date.days_before_year y < Date.ymd2ord y m dd
     <= Date.days_before_year (y + 1).
Proof.
  intros Hy Hm Hd.
  pose proof (day_of_year_bounds y m dd Hm Hd) as Hdoy.
  pose proof (days_before_next_year y) as Hnext.
  destruct (days_before_year_bounds y Hy) as (Hb0 & _ & Hb9998).
  assert (Hleap9999 : y = 9999 -> Date.is_leap y = false) by (intros ->; reflexivity).
  unfold Date.valid, Date.MAXORDINAL, Date.ymd2ord.
  destruct (Date.is_leap y); [assert (y <> 9999) by (intros E; now apply Hleap9999 in E)|];
    lia.
Qed.

(** The year, month and day of the date built from a valid year, month and
    day are that year, month and day. *)
Lemma ord2ymd_ymd2ord (y m dd : Z) :
  1 <= y <= 9999 -> 1 <= m <= 12 -> 1 <= dd <= Date.days_in_month y m ->
  Date.year (Date.ymd2ord y m dd) = y
  /\ Date.month (Date.ymd2ord y m dd) = m
  /\ Date.day (Date.ymd2ord y m dd) = dd.
Proof.
  intros Hy Hm Hd.
  destruct (ymd2ord_valid y m dd Hy Hm Hd) as (Hvalid & Hlo & Hhi).
  destruct (ord2ymd_inverse _ Hvalid) as (Hy' & Hm' & Hd' & Hinv).
  set (o := Date.ymd2ord y m dd) in *.
  set (y' := Date.year o) in *. set (m' := Date.month o) in *.
  set (dd' := Date.day o) in *. clearbody y' m' dd'.
  destruct (ymd2ord_valid y' m' dd' Hy' Hm' Hd') as (_ & Hlo' & Hhi').
  rewrite Hinv in Hlo', Hhi'.
  assert (Hyy : y' = y).
  { destruct (Z.lt_trichotomy y' y) as [Hlt | [Heq | Hgt]]; [|exact Heq|].
    - pose proof (days_before_year_mono (y' + 1) y ltac:(lia)). lia.
    - pose proof (days_before_year_mono (y + 1) y' ltac:(lia)). lia. }
  subst y'.
  assert (Heq : Date.days_before_month y m' + dd' = Date.days_before_month y m + dd).
  { subst o. unfold Date.ymd2ord in Hinv. lia. }
  destruct (day_of_year_injective y m' dd' m dd Hm' Hd' Hm Hd Heq) as [-> ->].
  repeat split.
Qed.

(** ** The weekly target *)

(** X1: for a base date that a [date] can hold, the target date of
    [get_previous_week_last_trading_day] is the latest Friday strictly before
    the base date: it is a Friday, one to seven days back, and no Friday lies
    after it and before the base date.  The subtraction raises, with an
    [OverflowError], only on the first seven days of year 1. *)
Theorem weekly_target_is_latest_friday_before (base_date : Date.date) :
  Date.valid base_date ->
  match previous_week_target base_date with
  | Ok target =>
      Date.valid target
      /\ Date.weekday target = 4
      /\ 1 <= base_date - target <= 7
      /\ (forall f, Date.weekday f = 4 -> f < base_date -> f <= target)
  | Raise e => e = OverflowError /\ base_date <= 7
  end.
Proof.
  unfold Date.valid, Date.MAXORDINAL. intros Hv.
  destruct (previous_week_target base_date) as [t|e] eqn:E.
  - destruct (previous_week_target_before _ _ E) as (Hlt & Hge & Hfri).
    assert (Hvt : 1 <= t).
    { revert E. unfold previous_week_target, Date.sub_days.
      repeat match goal with
             | |- context [if ?c then _ else _] => destruct c eqn:?
             end; intros [= <-]; try discriminate;
        match goal with
        | H : (_ && _) = true |- _ => apply andb_prop in H as [H _]; apply Z.ltb_lt in H
        end; lia. }
    split; [lia|]. split; [exact Hfri|]. split; [lia|].
    intros f Hf Hfb. unfold Date.weekday in *.
    Z.div_mod_to_equations. lia.
  - revert E. unfold previous_week_target, Date.sub_days, Date.weekday, Date.MAXORDINAL.
    repeat match goal with
           | |- context [if ?c then _ else _] => destruct c eqn:?
           end; intros [= <-]; (split; [reflexivity|]);
      match goal with
      | H : (_ && _) = false |- _ =>
          apply andb_false_iff in H as [H | H];
          [apply Z.ltb_ge in H | apply Z.leb_gt in H]
      end; try (Z.div_mod_to_equations; lia).
Qed.

(** ** Sorted indexes *)

Lemma drop_duplicates_from_sorted (l : list Date.date) :
  StronglySorted Z.le l ->
  forall seen, StronglySorted Z.le (drop_duplicates_from seen l).
Proof.
  induction 1 as [|x r Hr IH Hx]; intros seen; cbn [drop_duplicates_from].
  - constructor.
  - destruct (existsb (Z.eqb x) seen); [apply IH|].
    constructor; [apply IH|].
    apply Forall_forall. intros d Hd.
    apply drop_duplicates_from_In in Hd as [Hd _].
    exact (proj1 (Forall_forall _ _) Hx d Hd).
Qed.

Lemma filter_sorted (f : Date.date -> bool) (l : list Date.date) :
  StronglySorted Z.le l -> StronglySorted Z.le (filter f l).
Proof.
  induction 1 as [|x r Hr IH Hx]; cbn [filter]; [constructor|].
  destruct (f x); [|exact IH].
  constructor; [exact IH|].
  apply Forall_forall. intros d Hd. apply filter_In in Hd as [Hd _].
  exact (proj1 (Forall_forall _ _) Hx d Hd).
Qed.

Lemma sorted_app_last (front : list Date.date) (a : Date.date) :
  StronglySorted Z.le (front ++ [a]) -> forall x, In x (front ++ [a]) -> x <= a.
Proof.
  induction front as [|y front IH]; cbn [app]; intros Hs x Hx.
  - destruct Hx as [<- | []]. lia.
  - inversion Hs as [|? ? Hs' Hy]; subst.
    destruct Hx as [<- | Hx]; [|now apply IH].
    apply (proj1 (Forall_forall _ _) Hy). apply in_or_app. right. now left.
Qed.

(** The last entry of a sorted column is its greatest. *)
Lemma sorted_last_greatest (l : list Date.date) (r : Date.date) :
  StronglySorted Z.le l -> iloc l (-1) = Ok r -> forall x, In x l -> x <= r.
Proof.
  intros Hs Hr.
  destruct l as [|y l']; [discriminate Hr|].
  destruct (@exists_last _ (y :: l') ltac:(discriminate)) as (front & a & E).
  rewrite E in *. rewrite iloc_last_app in Hr. injection Hr as <-.
  now apply sorted_app_last.
Qed.

(** X2: on a series in date order, when some trading day lies on or before
    the target date, [get_previous_week_last_trading_day] returns the latest
    trading day on or before the target date, the target being taken from the
    base date capped at the last trading day of the series. *)
Theorem previous_week_day_is_latest_on_or_before_target
  (base_date : Date.date) (price_series : series) (last target : Date.date) :
  StronglySorted Z.le (index_date price_series) ->
  iloc (drop_duplicates (index_date price_series)) (-1) = Ok last ->
  previous_week_target (clamp_to_last base_date last) = Ok target ->
  (exists d, In d (index_date price_series) /\ d <= target) ->
  exists r,
    get_previous_week_last_trading_day base_date price_series = Ok r
    /\ In r (index_date price_series)
    /\ r <= target
    /\ (forall d, In d (index_date price_series) -> d <= target -> d <= r)
    /\ (forall d, In d (index_date price_series) -> d <= last).
Proof.
  intros Hsorted Hlast Htarget (d0 & Hd0 & Hle0).
  set (dates := drop_duplicates (index_date price_series)) in *.
  assert (Hds : StronglySorted Z.le dates)
    by (apply drop_duplicates_from_sorted; exact Hsorted).
  set (past := filter (fun d => d <=? target) dates).
  assert (Hps : StronglySorted Z.le past) by (apply filter_sorted; exact Hds).
  assert (Hin0 : In d0 past).
  { apply filter_In. split; [exact (proj2 (drop_duplicates_In _ _) Hd0)|].
    now apply Z.leb_le. }
  assert (Hne : past <> []) by (intros E; rewrite E in Hin0; exact Hin0).
  destruct (iloc_last_nonempty past Hne) as (r & Hr & Hrin).
  exists r.
  assert (Hcall : get_previous_week_last_trading_day base_date price_series = Ok r).
  { unfold get_previous_week_last_trading_day. fold dates.
    rewrite Hlast. cbn [bind]. rewrite Htarget. cbn [bind]. fold past.
    destruct (empty past) eqn:Ee; [apply empty_spec in Ee; contradiction|].
    rewrite Hr. reflexivity. }
  split; [exact Hcall|].
  apply filter_In in Hrin as [Hrin Hrle]. apply Z.leb_le in Hrle.
  split; [exact (proj1 (drop_duplicates_In _ _) Hrin)|].
  split; [exact Hrle|]. split.
  - intros d Hd Hdle. apply (sorted_last_greatest past r Hps Hr).
    apply filter_In. split; [exact (proj2 (drop_duplicates_In _ _) Hd)|].
    now apply Z.leb_le.
  - intros d Hd. apply (sorted_last_greatest dates last Hds Hlast).
    exact (proj2 (drop_duplicates_In _ _) Hd).
Qed.

(** X3: a base date on or after the last trading day of the series gives
    [get_previous_week_last_trading_day] the same result as the last trading
    day itself. *)
Theorem base_date_after_last_trading_day_is_clamped
  (base_date : Date.date) (price_series : series) (last : Date.date) :
  iloc (drop_duplicates (index_date price_series)) (-1) = Ok last ->
  last <= base_date ->
  get_previous_week_last_trading_day base_date price_series
  = get_previous_week_last_trading_day last price_series.
Proof.
  intros Hlast Hle.
  assert (Hclamp : forall b, last <= b -> clamp_to_last b last = last).
  { intros b Hb. unfold clamp_to_last.
    destruct (Z.ltb_spec last b); [reflexivity | lia]. }
  unfold get_previous_week_last_trading_day.
  rewrite Hlast. cbn [bind].
  rewrite (Hclamp base_date Hle), (Hclamp last (Z.le_refl _)). reflexivity.
Qed.

Lemma scan_month_nil (n : nat) :
  forall test_date, scan_month [] test_date n = None.
Proof. induction n as [|k IH]; intros t; cbn; [reflexivity | apply IH]. Qed.

(** X4: on an empty series both calendar functions raise an [IndexError]:
    the fall-back of their [except] clause reads [price_series.index[0]],
    which an empty series does not have. *)
Theorem calendar_functions_raise_on_empty_series (base_date : Date.date) :
  get_previous_week_last_trading_day base_date [] = Raise IndexError
  /\ get_last_trading_day_of_month base_date [] = Raise IndexError.
Proof.
  split; [reflexivity|].
  unfold get_last_trading_day_of_month.
  destruct (end_of_month base_date) as [e|x]; cbn [bind try_except]; [|reflexivity].
  destruct (month_lower_bound base_date) as [lo|x]; cbn [bind try_except];
    [|reflexivity].
  change (drop_duplicates (index_date [])) with (@nil Date.date).
  rewrite scan_month_nil. reflexivity.
Qed.

(** ** The month scan and its fall-back *)

Lemma iloc_head {A : Type} (a : A) (l : list A) : iloc (a :: l) 0 = Ok a.
Proof.
  unfold iloc. change (0 <? 0) with false. cbv iota. cbn [orb].
  rewrite len_cons. pose proof (len_nonneg l).
  destruct (Z.leb_spec (len l + 1) 0); [lia | reflexivity].
Qed.

Lemma first_of_drop_duplicates (s : series) :
  s <> [] ->
  exists first,
    first_index_date s = Ok first
    /\ iloc (drop_duplicates (index_date s)) 0 = Ok first
    /\ In first (index_date s).
Proof.
  destruct s as [|o r]; [congruence|]. intros _.
  exists (ts_date (fst o)). split; [reflexivity|]. split.
  - unfold index_date, index, drop_duplicates.
    cbn [map drop_duplicates_from existsb]. apply iloc_head.
  - cbn. now left.
Qed.

(** [get_last_trading_day_of_month] once the bounds of the month are known. *)
Lemma get_last_trading_day_of_month_scan (base_date : Date.date) (s : series) :
  Date.valid base_date ->
  ~ (Date.year base_date = 1 /\ Date.month base_date = 1) ->
  ~ (Date.year base_date = 9999 /\ Date.month base_date = 12) ->
  get_last_trading_day_of_month base_date s =
  try_except
    match scan_month (drop_duplicates (index_date s))
            (last_day_of_month base_date)
            (Z.to_nat (last_day_of_month base_date
                       - first_day_of_month base_date + 1)) with
    | Some test_date => Ok test_date
    | None => iloc (drop_duplicates (index_date s)) 0
    end
    (fun _ => first_index_date s).
Proof.
  intros Hv Hlow Hhigh.
  destruct (month_bounds base_date Hv Hlow Hhigh) as (Hend & Hlower & _).
  unfold get_last_trading_day_of_month. rewrite Hend, Hlower. cbn [bind].
  replace (last_day_of_month base_date - (first_day_of_month base_date - 1))
    with (last_day_of_month base_date - first_day_of_month base_date + 1) by lia.
  reflexivity.
Qed.

(** The latest trading day of a month, when the month has one; the first
    trading day of the series otherwise. *)
Lemma get_last_trading_day_of_month_result
  (base_date : Date.date) (s : series) (first : Date.date) :
  Date.valid base_date ->
  ~ (Date.year base_date = 1 /\ Date.month base_date = 1) ->
  ~ (Date.year base_date = 9999 /\ Date.month base_date = 12) ->
  first_index_date s = Ok first ->
  exists r,
    get_last_trading_day_of_month base_date s = Ok r
    /\ In r (index_date s)
    /\ ((exists d, In d (index_date s)
                   /\ first_day_of_month base_date <= d
                      <= last_day_of_month base_date) ->
        first_day_of_month base_date <= r <= last_day_of_month base_date
        /\ (forall d, In d (index_date s) ->
                      first_day_of_month base_date <= d
                      <= last_day_of_month base_date -> d <= r))
    /\ ((forall d, In d (index_date s) ->
                   ~ (first_day_of_month base_date <= d
                      <= last_day_of_month base_date)) ->
        r = first).
Proof.
  intros Hv Hlow Hhigh Hfirst.
  assert (Hne : s <> []) by (intros ->; discriminate Hfirst).
  destruct (first_of_drop_duplicates s Hne) as (first' & Hf1 & Hf2 & Hf3).
  rewrite Hfirst in Hf1. injection Hf1 as <-.
  destruct (month_bounds base_date Hv Hlow Hhigh) as (_ & _ & Hord & _).
  rewrite (get_last_trading_day_of_month_scan base_date s Hv Hlow Hhigh).
  set (fdom := first_day_of_month base_date) in *.
  set (ldom := last_day_of_month base_date) in *.
  pose proof (scan_month_spec (drop_duplicates (index_date s))
                (Z.to_nat (ldom - fdom + 1)) ldom) as Hscan.
  rewrite Z2Nat.id in Hscan by lia.
  destruct (scan_month _ ldom _) as [r|].
  - destruct Hscan as (Hr & Hin & Hmax).
    pose proof (proj1 (drop_duplicates_In _ _) Hin) as Hin'.
    exists r. cbn [try_except]. split; [reflexivity|]. split; [exact Hin'|].
    split.
    + intros _. split; [lia|]. intros d Hd Hdr.
      apply Hmax; [exact (proj2 (drop_duplicates_In _ _) Hd) | lia].
    + intros Hnone. exfalso. apply (Hnone r Hin'). lia.
  - rewrite Hf2. cbn [try_except]. exists first.
    split; [reflexivity|]. split; [exact Hf3|]. split; [|reflexivity].
    intros (d & Hd & Hdr). exfalso.
    apply (Hscan d (proj2 (drop_duplicates_In _ _) Hd)). lia.
Qed.

(** On a series that is not empty the function returns a trading day, and
    the first one when a bound of the month is not a date. *)
Lemma get_last_trading_day_of_month_In (base_date : Date.date) (s : series)
  (first : Date.date) :
  first_index_date s = Ok first ->
  exists r,
    get_last_trading_day_of_month base_date s = Ok r
    /\ In r (index_date s)
    /\ ((exists e, end_of_month base_date = Raise e)
        \/ (exists e, month_lower_bound base_date = Raise e) ->
        r = first).
Proof.
  intros Hfirst.
  assert (Hne : s <> []) by (intros ->; discriminate Hfirst).
  destruct (first_of_drop_duplicates s Hne) as (first' & Hf1 & Hhead & Hfin).
  rewrite Hfirst in Hf1. injection Hf1 as <-.
  unfold get_last_trading_day_of_month.
  destruct (end_of_month base_date) as [e|x]; cbn [bind try_except].
  2:{ exists first. rewrite Hfirst. repeat split; auto. }
  destruct (month_lower_bound base_date) as [lo|x]; cbn [bind try_except].
  2:{ exists first. rewrite Hfirst. repeat split; auto. }
  pose proof (scan_month_spec (drop_duplicates (index_date s))
                (Z.to_nat (e - lo)) e) as Hscan.
  destruct (scan_month _ e _) as [r|].
  - destruct Hscan as (_ & Hin & _). exists r. cbn [try_except].
    split; [reflexivity|].
    split; [exact (proj1 (drop_duplicates_In _ _) Hin)|].
    intros [[x Hx] | [x Hx]]; discriminate.
  - rewrite Hhead. cbn [try_except]. exists first.
    split; [reflexivity|]. split; [exact Hfin|]. reflexivity.
Qed.

(** X5: on a series that is not empty [get_last_trading_day_of_month]
    raises nothing and returns a trading day of the series.  It returns the
    first date of the series when the month of the base date holds no trading
    day, and when one of the two bounds of the month cannot be computed. *)
Theorem last_trading_day_of_month_never_fails_on_nonempty_series
  (base_date : Date.date) (price_series : series) :
  price_series <> [] ->
  exists r first,
    get_last_trading_day_of_month base_date price_series = Ok r
    /\ first_index_date price_series = Ok first
    /\ In r (index_date price_series)
    /\ (Date.valid base_date ->
        ~ (Date.year base_date = 1 /\ Date.month base_date = 1) ->
        ~ (Date.year base_date = 9999 /\ Date.month base_date = 12) ->
        (forall d, In d (index_date price_series) ->
                   ~ (first_day_of_month base_date <= d
                      <= last_day_of_month base_date)) ->
        r = first)
    /\ ((exists e, end_of_month base_date = Raise e)
        \/ (exists e, month_lower_bound base_date = Raise e) ->
        r = first).
Proof.
  intros Hne.
  destruct (first_of_drop_duplicates price_series Hne)
    as (first & Hfirst & _ & _).
  destruct (get_last_trading_day_of_month_In base_date price_series first Hfirst)
    as (r & Hr & Hin & Hraise).
  exists r, first. do 3 (split; [assumption|]). split; [|exact Hraise].
  intros Hv Hlow Hhigh Hnone.
  destruct (get_last_trading_day_of_month_result
              base_date price_series first Hv Hlow Hhigh Hfirst)
    as (r' & Hr' & _ & _ & Hfallback).
  rewrite Hr in Hr'. injection Hr' as <-. now apply Hfallback.
Qed.

(** ** The reference closes of [calculate_returns] *)

Lemma compute_locals_month_dates (clk : clock) (s : series) (l : locals) :
  compute_locals clk s = Ok l ->
  exists first_of_month last_month last_year,
    Date.replace (base_date l) None None (Some 1) = Ok first_of_month
    /\ Date.sub_days first_of_month 1 = Ok last_month
    /\ get_last_trading_day_of_month last_month s = Ok (monthly_base_date l)
    /\ Date.replace (base_date l) (Some (Date.year (base_date l) - 1))
         (Some 12) (Some 31) = Ok last_year
    /\ get_last_trading_day_of_month last_year s = Ok (ytd_base_date l).
Proof.
  unfold compute_locals. intros H.
  bind_inv H. destruct x as [[li pi] bd].
  do 20 bind_inv H.
  destruct (calculate_volatility_and_mdd s) as [[[usv sv] lv] md] eqn:Ev.
  injection H as <-. cbn. eauto 10.
Qed.

Lemma observed_close_intro (s : series) (d : Date.date) (default c : float) :
  In d (index_date s) ->
  iloc_last_or (on_date s d) default = Ok c ->
  observed_close s d c.
Proof.
  intros Hin Hc. unfold observed_close.
  pose proof (on_date_nonempty s d Hin) as Hne.
  pose proof (iloc_last_or_nonempty _ default c Hne Hc) as Hlast.
  split; [exact Hin|]. split; [exact Hlast|].
  apply iloc_In in Hlast. unfold values in *.
  apply in_map_iff in Hlast as (o & Ho & Hoin).
  apply filter_In in Hoin as [Hoin Hod]. apply Z.eqb_eq in Hod.
  exists o. repeat split; assumption.
Qed.

(** X6: the weekly, monthly, year-to-date, 22-day and 264-day reference
    closes of [calculate_returns] are closes of the series: each reference
    date is a trading day of the series and its close is the last close the
    series records on that date. *)
Theorem reference_closes_are_observed_closes
  (clk : clock) (price_series : series) (l : locals) :
  2 <= len price_series ->
  compute_locals clk price_series = Ok l ->
  observed_close price_series (weekly_base_date l) (weekly_base_close l)
  /\ observed_close price_series (monthly_base_date l) (monthly_base_close l)
  /\ observed_close price_series (ytd_base_date l) (ytd_base_close l)
  /\ observed_close price_series (days_22_date l) (days_22_close l)
  /\ observed_close price_series (days_264_date l) (days_264_close l).
Proof.
  intros Hlen Hl.
  pose proof (series_nonempty_of_len _ Hlen) as Hne.
  pose proof (compute_locals_spec _ _ _ Hl) as Hs.
  destruct (compute_locals_month_dates _ _ _ Hl)
    as (fom & lm & ly & _ & _ & Hmonthly & _ & Hytd).
  destruct (first_of_drop_duplicates price_series Hne) as (first & Hfirst & _ & _).
  assert (Hweek : forall b r,
             get_previous_week_last_trading_day b price_series = Ok r ->
             In r (index_date price_series)).
  { intros b r Hr.
    destruct (get_previous_week_In b price_series Hne) as (r' & Hr' & Hin).
    rewrite Hr in Hr'. now injection Hr' as <-. }
  assert (Hmonth : forall b r,
             get_last_trading_day_of_month b price_series = Ok r ->
             In r (index_date price_series)).
  { intros b r Hr.
    destruct (get_last_trading_day_of_month_In b price_series first Hfirst)
      as (r' & Hr' & Hin & _).
    rewrite Hr in Hr'. now injection Hr' as <-. }
  destruct (ls_days_22_date _ _ _ Hs) as (b22 & _ & H22).
  destruct (ls_days_264_date _ _ _ Hs) as (b264 & _ & H264).
  split; [apply (observed_close_intro _ _ (latest_close l));
          [exact (Hweek _ _ (ls_weekly_date _ _ _ Hs))
          | exact (ls_weekly_close _ _ _ Hs)]|].
  split; [apply (observed_close_intro _ _ (latest_close l));
          [exact (Hmonth _ _ Hmonthly) | exact (ls_monthly_close _ _ _ Hs)]|].
  split; [apply (observed_close_intro _ _ (latest_close l));
          [exact (Hmonth _ _ Hytd) | exact (ls_ytd_close _ _ _ Hs)]|].
  split; [apply (observed_close_intro _ _ (latest_close l));
          [exact (Hweek _ _ H22) | exact (ls_days_22_close _ _ _ Hs)]|].
  apply (observed_close_intro _ _ (latest_close l));
    [exact (Hweek _ _ H264) | exact (ls_days_264_close _ _ _ Hs)].
Qed.

(** ** The monthly and the year-to-date base *)

Lemma days_before_month_step (y m : Z) :
  2 <= m <= 12 ->
  Date.days_before_month y m
  = Date.days_before_month y (m - 1) + Date.days_in_month y (m - 1).
Proof.
  intros Hm. unfold Date.days_before_month, Date.days_in_month.
  assert (Hcases : m = 2 \/ m = 3 \/ m = 4 \/ m = 5 \/ m = 6 \/ m = 7
                   \/ m = 8 \/ m = 9 \/ m = 10 \/ m = 11 \/ m = 12) by lia.
  destruct (Date.is_leap y);
    repeat (destruct Hcases as [-> | Hcases]); try subst m; reflexivity.
Qed.

Lemma days_in_month_range (y m : Z) :
  1 <= m <= 12 -> 28 <= Date.days_in_month y m <= 31.
Proof.
  intros Hm. unfold Date.days_in_month.
  assert (Hcases : m = 1 \/ m = 2 \/ m = 3 \/ m = 4 \/ m = 5 \/ m = 6 \/ m = 7
                   \/ m = 8 \/ m = 9 \/ m = 10 \/ m = 11 \/ m = 12) by lia.
  destruct (Date.is_leap y);
    repeat (destruct Hcases as [-> | Hcases]); try subst m; cbn; lia.
Qed.

(** The month of the date [ymd2ord y m d]. *)
Lemma month_of_ymd2ord (y m dd : Z) :
  1 <= y <= 9999 -> 1 <= m <= 12 -> 1 <= dd <= Date.days_in_month y m ->
  Date.valid (Date.ymd2ord y m dd)
  /\ first_day_of_month (Date.ymd2ord y m dd) = Date.ymd2ord y m 1
  /\ last_day_of_month (Date.ymd2ord y m dd)
     = Date.ymd2ord y m (Date.days_in_month y m)
  /\ Date.year (Date.ymd2ord y m dd) = y
  /\ Date.month (Date.ymd2ord y m dd) = m.
Proof.
  intros Hy Hm Hd.
  destruct (ymd2ord_valid y m dd Hy Hm Hd) as (Hv & _).
  destruct (ord2ymd_ymd2ord y m dd Hy Hm Hd) as (Ey & Em & _).
  unfold first_day_of_month, last_day_of_month. rewrite Ey, Em.
  split; [exact Hv|]. repeat split.
Qed.

Lemma day_before_first_of_month_ymd (y m : Z) :
  1 <= y <= 9999 -> 1 <= m <= 12 ->
  1 < Date.ymd2ord y m 1 ->
  let last_month := Date.ymd2ord y m 1 - 1 in
  Date.valid last_month
  /\ last_day_of_month last_month = last_month
  /\ ~ (Date.year last_month = 9999 /\ Date.month last_month = 12)
  /\ (Date.year last_month = 1 /\ Date.month last_month = 1 -> y = 1 /\ m = 2).
Proof.
  intros Hy Hm Hfirst. cbv zeta.
  destruct (Z.eq_dec m 1) as [-> | Hm1].
  - (* January: the day before is 31 December of the year before *)
    assert (Hy2 : 2 <= y).
    { destruct (Z.eq_dec y 1) as [-> | Hne]; [|lia].
      exfalso. revert Hfirst. vm_compute. discriminate. }
    assert (E : Date.ymd2ord y 1 1 - 1 = Date.ymd2ord (y - 1) 12 31).
    { pose proof (days_before_next_year (y - 1)) as Hn.
      replace (y - 1 + 1) with y in Hn by lia.
      unfold Date.ymd2ord, Date.days_before_month. cbn [Date.DAYS_BEFORE_MONTH].
      change (2 <? 1) with false. change (2 <? 12) with true. cbn [andb].
      destruct (Date.is_leap (y - 1)); lia. }
    rewrite E.
    assert (Hd31 : Date.days_in_month (y - 1) 12 = 31) by reflexivity.
    destruct (month_of_ymd2ord (y - 1) 12 31 ltac:(lia) ltac:(lia) ltac:(lia))
      as (Hv' & _ & Hl' & Ey' & Em').
    rewrite Hd31 in Hl'.
    split; [exact Hv'|]. split; [exact Hl'|].
    split; [rewrite Ey'; lia|]. rewrite Em'. lia.
  - (* any other month: the day before is the last day of the month before *)
    assert (E : Date.ymd2ord y m 1 - 1
                = Date.ymd2ord y (m - 1) (Date.days_in_month y (m - 1))).
    { unfold Date.ymd2ord. rewrite (days_before_month_step y m) by lia. lia. }
    rewrite E.
    pose proof (days_in_month_range y (m - 1) ltac:(lia)) as Hdim.
    destruct (month_of_ymd2ord y (m - 1) (Date.days_in_month y (m - 1))
                ltac:(lia) ltac:(lia) ltac:(lia))
      as (Hv' & _ & Hl' & Ey' & Em').
    split; [exact Hv'|]. split; [exact Hl'|].
    split; [rewrite Em'; lia|]. rewrite Ey', Em'. lia.
Qed.

Lemma first_day_of_month_eq (d : Date.date) :
  first_day_of_month d = Date.ymd2ord (Date.year d) (Date.month d) 1.
Proof. reflexivity. Qed.

(** The day before the first day of a month is the last day of the month
    before. *)
Lemma day_before_first_of_month (base_date : Date.date) :
  Date.valid base_date ->
  1 < first_day_of_month base_date ->
  let last_month := first_day_of_month base_date - 1 in
  Date.valid last_month
  /\ last_day_of_month last_month = last_month
  /\ last_month < base_date
  /\ ~ (Date.year last_month = 9999 /\ Date.month last_month = 12)
  /\ (Date.year last_month = 1 /\ Date.month last_month = 1 ->
      Date.year base_date = 1 /\ Date.month base_date = 2).
Proof.
  intros Hv Hfirst. cbv zeta.
  destruct (ord2ymd_year_month_range base_date Hv) as (Hy & Hm).
  pose proof (date_in_its_month base_date Hv) as [Hin _].
  revert Hfirst Hin. rewrite (first_day_of_month_eq base_date).
  generalize dependent (Date.year base_date).
  generalize dependent (Date.month base_date).
  intros m Hm y Hy Hfirst Hin.
  destruct (day_before_first_of_month_ymd y m Hy Hm Hfirst)
    as (H1 & H2 & H3 & H4).
  split; [exact H1|]. split; [exact H2|]. split; [lia|].
  split; [exact H3 | exact H4].
Qed.

Lemma replace_day_1 (d x : Date.date) :
  Date.replace d None None (Some 1) = Ok x -> x = first_day_of_month d.
Proof.
  unfold Date.replace, Date.make. rewrite first_day_of_month_eq.
  destruct (_ && _); [now intros [= <-] | discriminate].
Qed.

Lemma sub_days_Ok (d n x : Date.date) :
  Date.sub_days d n = Ok x -> x = d - n /\ 1 <= x <= Date.MAXORDINAL.
Proof.
  unfold Date.sub_days. destruct (_ && _) eqn:E; [|discriminate].
  intros [= <-]. apply andb_prop in E as [E1 E2].
  apply Z.ltb_lt in E1. apply Z.leb_le in E2. lia.
Qed.

(** X7: the monthly base date of [calculate_returns] is looked up in the
    month before the one of the base date, whose last day is the day before
    the first of the base date's month: it is the latest trading day of that
    month when the series has one, and the first date of the series
    otherwise.  (A base date in February of year 1 is left out: the month
    before it has no date below it.) *)
Theorem monthly_base_is_latest_trading_day_of_previous_month
  (clk : clock) (price_series : series) (l : locals) :
  compute_locals clk price_series = Ok l ->
  Date.valid (base_date l) ->
  ~ (Date.year (base_date l) = 1 /\ Date.month (base_date l) = 2) ->
  let last_month := first_day_of_month (base_date l) - 1 in
  Date.valid last_month
  /\ last_day_of_month last_month = last_month
  /\ last_month < base_date l
  /\ In (monthly_base_date l) (index_date price_series)
  /\ ((exists d, In d (index_date price_series)
                 /\ first_day_of_month last_month <= d <= last_month) ->
      first_day_of_month last_month <= monthly_base_date l <= last_month
      /\ (forall d, In d (index_date price_series) ->
                    first_day_of_month last_month <= d <= last_month ->
                    d <= monthly_base_date l))
  /\ ((forall d, In d (index_date price_series) ->
                 ~ (first_day_of_month last_month <= d <= last_month)) ->
      first_index_date price_series = Ok (monthly_base_date l)).
Proof.
  intros Hl Hv Hfeb. cbv zeta.
  destruct (compute_locals_month_dates _ _ _ Hl)
    as (fom & lm & ly & Hfom & Hlm & Hmonthly & _ & _).
  apply replace_day_1 in Hfom. subst fom.
  apply sub_days_Ok in Hlm as [-> Hrange].
  destruct (day_before_first_of_month (base_date l) Hv ltac:(lia))
    as (Hvl & Hlast & Hlt & Hhigh & Hlow).
  set (lm := first_day_of_month (base_date l) - 1) in *.
  assert (Hne : price_series <> []).
  { intros ->. destruct (compute_locals_spec _ _ _ Hl) as [Hs]. discriminate Hs. }
  destruct (first_of_drop_duplicates price_series Hne) as (first & Hfirst & _ & _).
  destruct (get_last_trading_day_of_month_result lm price_series first Hvl
              ltac:(intros H; apply Hfeb, Hlow, H) Hhigh Hfirst)
    as (r & Hr & Hin & Hsome & Hnone).
  rewrite Hmonthly in Hr. injection Hr as <-.
  rewrite Hlast in Hsome, Hnone.
  split; [exact Hvl|]. split; [exact Hlast|]. split; [exact Hlt|].
  split; [exact Hin|]. split; [exact Hsome|].
  intros H. rewrite (Hnone H). exact Hfirst.
Qed.

Lemma replace_previous_december (d x : Date.date) :
  Date.replace d (Some (Date.year d - 1)) (Some 12) (Some 31) = Ok x ->
  x = Date.ymd2ord (Date.year d - 1) 12 31 /\ 2 <= Date.year d.
Proof.
  unfold Date.replace, Date.make, Date.MINYEAR.
  destruct (1 <=? Date.year d - 1) eqn:E; [|discriminate].
  apply Z.leb_le in E. cbn [andb].
  destruct (_ && _); [intros [= <-]; split; [reflexivity | lia] | discriminate].
Qed.

Lemma previous_december (y : Z) :
  2 <= y <= 9999 ->
  let dec31 := Date.ymd2ord (y - 1) 12 31 in
  Date.valid dec31
  /\ first_day_of_month dec31 = Date.ymd2ord (y - 1) 12 1
  /\ last_day_of_month dec31 = dec31
  /\ dec31 = Date.days_before_year y
  /\ Date.year dec31 = y - 1 /\ Date.month dec31 = 12.
Proof.
  intros Hy. cbv zeta.
  assert (Hd31 : Date.days_in_month (y - 1) 12 = 31) by reflexivity.
  destruct (month_of_ymd2ord (y - 1) 12 31 ltac:(lia) ltac:(lia) ltac:(lia))
    as (Hv & Hf & Hl & Ey & Em).
  rewrite Hd31 in Hl.
  split; [exact Hv|]. split; [exact Hf|]. split; [exact Hl|].
  split; [|split; assumption].
  pose proof (days_before_next_year (y - 1)) as Hn.
  replace (y - 1 + 1) with y in Hn by lia.
  unfold Date.ymd2ord, Date.days_before_month. cbn [Date.DAYS_BEFORE_MONTH].
  change (2 <? 12) with true. cbn [andb].
  destruct (Date.is_leap (y - 1)); lia.
Qed.

Lemma previous_december_before (y m dd : Z) :
  2 <= y <= 9999 -> 1 <= m <= 12 -> 1 <= dd <= Date.days_in_month y m ->
  Date.ymd2ord (y - 1) 12 1 + 30 = Date.ymd2ord (y - 1) 12 31
  /\ Date.ymd2ord (y - 1) 12 31 < Date.ymd2ord y m dd.
Proof.
  intros Hy Hm Hd.
  destruct (previous_december y Hy) as (_ & _ & _ & Hdby & _).
  pose proof (day_of_year_bounds _ _ _ Hm Hd) as Hdoy.
  split; [unfold Date.ymd2ord; lia|].
  rewrite Hdby. unfold Date.ymd2ord. lia.
Qed.

(** X8: the year-to-date base date of [calculate_returns] is looked up in
    December of the year before the base date's: it is the latest trading day
    between the 1st and the 31st of that December when the series has one, and
    the first date of the series otherwise. *)
Theorem ytd_base_is_latest_trading_day_of_previous_december
  (clk : clock) (price_series : series) (l : locals) :
  compute_locals clk price_series = Ok l ->
  Date.valid (base_date l) ->
  let dec1 := Date.ymd2ord (Date.year (base_date l) - 1) 12 1 in
  let dec31 := Date.ymd2ord (Date.year (base_date l) - 1) 12 31 in
  dec1 + 30 = dec31
  /\ dec31 < base_date l
  /\ In (ytd_base_date l) (index_date price_series)
  /\ ((exists d, In d (index_date price_series) /\ dec1 <= d <= dec31) ->
      dec1 <= ytd_base_date l <= dec31
      /\ (forall d, In d (index_date price_series) -> dec1 <= d <= dec31 ->
                    d <= ytd_base_date l))
  /\ ((forall d, In d (index_date price_series) -> ~ (dec1 <= d <= dec31)) ->
      first_index_date price_series = Ok (ytd_base_date l)).
Proof.
  intros Hl Hv. cbv zeta.
  destruct (compute_locals_month_dates _ _ _ Hl)
    as (fom & lm & ly & _ & _ & _ & Hly & Hytd).
  apply replace_previous_december in Hly as [-> Hy2].
  destruct (ord2ymd_inverse (base_date l) Hv) as (Hy & Hm & Hd & Hinv).
  destruct (previous_december (Date.year (base_date l)) ltac:(lia))
    as (Hv31 & Hf & Hlast & Hdby & Ey & Em).
  destruct (previous_december_before (Date.year (base_date l)) _ _ ltac:(lia) Hm Hd)
    as (H30 & Hbefore).
  rewrite Hinv in Hbefore.
  assert (Hne : price_series <> []).
  { intros ->. destruct (compute_locals_spec _ _ _ Hl) as [Hs]. discriminate Hs. }
  destruct (first_of_drop_duplicates price_series Hne) as (first & Hfirst & _ & _).
  destruct (get_last_trading_day_of_month_result _ price_series first Hv31
              ltac:(rewrite Em; lia) ltac:(rewrite Ey; lia) Hfirst)
    as (r & Hr & Hin & Hsome & Hnone).
  rewrite Hytd in Hr. injection Hr as <-.
  rewrite Hf, Hlast in Hsome, Hnone.
  split; [exact H30|]. split; [exact Hbefore|].
  split; [exact Hin|]. split; [exact Hsome|].
  intros H. rewrite (Hnone H). exact Hfirst.
Qed.

(** ** Volatility horizons *)

Lemma tail_all {A : Type} (l : list A) (n : Z) :
  len l <= n -> tail l n = l.
Proof.
  intros H. unfold tail, len in *.
  replace (List.length l - Z.to_nat n)%nat with 0%nat by lia. reflexivity.
Qed.

Lemma tail_app_exact {A : Type} (old recent : list A) :
  tail (old ++ recent) (len recent) = recent.
Proof.
  unfold tail, len. rewrite length_app, Nat2Z.id.
  replace (List.length old + List.length recent - List.length recent)%nat
    with (List.length old) by lia.
  rewrite skipn_app, Nat.sub_diag, skipn_all. reflexivity.
Qed.

Lemma window_volatility_whole (prices : list float) (days : Z) :
  len prices <= days ->
  window_volatility prices days = window_volatility prices (len prices).
Proof.
  intros H. unfold window_volatility.
  rewrite Z.min_r by exact H. rewrite Z.min_id. reflexivity.
Qed.

(** X9: a volatility horizon longer than the series uses the whole series:
    with at most 5 observations the three volatilities of
    [calculate_volatility_and_mdd] are one value, with at most 22 the
    short-term and the long-term one are. *)
Theorem volatility_horizons_coincide_on_short_series (price_series : series) :
  let '(ultra_short, short, long, _) :=
    calculate_volatility_and_mdd price_series in
  (len price_series <= 5 -> ultra_short = short /\ short = long)
  /\ (len price_series <= 22 -> short = long).
Proof.
  unfold calculate_volatility_and_mdd.
  destruct (len price_series <? 2) eqn:E; [repeat split|].
  assert (Hlen : len (values price_series) = len price_series) by apply len_map.
  split.
  - intros H.
    rewrite (window_volatility_whole _ 5), (window_volatility_whole _ 22),
      (window_volatility_whole _ 252) by lia.
    split; reflexivity.
  - intros H.
    rewrite (window_volatility_whole _ 22), (window_volatility_whole _ 252) by lia.
    reflexivity.
Qed.

(** X10: observations older than the last 252 do not count for the 52-week
    drawdown nor for the three volatilities: a series ending in the 252
    observations [recent] gets the values that [recent] alone gets. *)
Theorem trailing_window_measures_ignore_older_closes
  (older recent : series) :
  len recent = 252 ->
  calculate_52week_high_drawdown (older ++ recent)
  = calculate_52week_high_drawdown recent
  /\ (let '(ultra_short, short, long, _) :=
        calculate_volatility_and_mdd (older ++ recent) in
      let '(ultra_short', short', long', _) :=
        calculate_volatility_and_mdd recent in
      ultra_short = ultra_short' /\ short = short' /\ long = long').
Proof.
  intros Hlen.
  assert (Hv : len (values recent) = 252) by (unfold values; now rewrite len_map).
  assert (Happ : values (older ++ recent) = values older ++ values recent)
    by apply map_app.
  assert (Hall : len (older ++ recent) = len older + 252).
  { unfold len in *. rewrite length_app. lia. }
  pose proof (len_nonneg older) as Hold.
  assert (Hl : len (values older ++ values recent) = len older + 252).
  { unfold len, values in *. rewrite length_app, !length_map. lia. }
  assert (Hwin : forall days, 0 <= days <= 252 ->
             window_volatility (values (older ++ recent)) days
             = window_volatility (values recent) days).
  { intros days Hd. unfold window_volatility.
    rewrite Happ, Hl, Hv. rewrite !Z.min_l by lia.
    assert (Ht : tail (values older ++ values recent) days
                 = tail (values recent) days).
    { unfold tail. rewrite length_app.
      unfold len in Hv.
      replace (List.length (values older) + List.length (values recent)
               - Z.to_nat days)%nat
        with (List.length (values older)
              + (List.length (values recent) - Z.to_nat days))%nat by lia.
      rewrite skipn_app.
      replace (List.length (values older)
               + (List.length (values recent) - Z.to_nat days)
               - List.length (values older))%nat
        with (List.length (values recent) - Z.to_nat days)%nat by lia.
      rewrite skipn_all2 by lia. reflexivity. }
    rewrite Ht. reflexivity. }
  split.
  - unfold calculate_52week_high_drawdown.
    rewrite Hall, Hlen.
    replace (len older + 252 <? 2) with false by (symmetry; apply Z.ltb_ge; lia).
    change (252 <? 2) with false. cbv iota.
    rewrite Happ, Hl, Hv. rewrite Z.min_l by lia. rewrite Z.min_id.
    assert (Ht : tail (values older ++ values recent) 252 = values recent)
      by (rewrite <- Hv; apply tail_app_exact).
    rewrite Ht, (tail_all (values recent) 252) by lia.
    assert (Hlast : iloc (values older ++ values recent) (-1)
                    = iloc (values recent) (-1)).
    { destruct (@exists_last _ (values recent)) as (front & c & E).
      { intros E. rewrite E in Hv. discriminate Hv. }
      rewrite E, app_assoc, !iloc_last_app. reflexivity. }
    rewrite Hlast. reflexivity.
  - unfold calculate_volatility_and_mdd.
    rewrite Hall, Hlen.
    replace (len older + 252 <? 2) with false by (symmetry; apply Z.ltb_ge; lia).
    change (252 <? 2) with false. cbv iota.
    rewrite !Hwin by lia. repeat split.
Qed.

(** ** Signs of returns and volatilities *)

Lemma has_sign_false_leb (x : spec_float) :
  has_sign false x -> SFleb (S754_zero false) x = true.
Proof.
  destruct x as [s | s | | s m e]; cbn; intros H;
    [reflexivity | now subst s | contradiction | now subst s].
Qed.

Lemma has_sign_false_not_ltb (x : spec_float) :
  has_sign false x -> SFltb x (S754_zero false) = false.
Proof.
  destruct x as [s | s | | s m e]; cbn; intros H;
    [reflexivity | now subst s | contradiction | now subst s].
Qed.

Lemma SFdiv_nonneg (prec emax : Z) (x : spec_float) (my : positive) (ey : Z) :
  SFleb (S754_zero false) x = true ->
  SFleb (S754_zero false) (SFdiv prec emax x (S754_finite false my ey)) = true.
Proof.
  destruct x as [s | s | | s mx ex]; cbn [SFdiv]; intros Hx.
  - reflexivity.
  - destruct s; [discriminate | reflexivity].
  - discriminate.
  - destruct s; [discriminate|]. cbn [xorb].
    unfold SFdiv_core_binary.
    set (m' := match _ - _ with Z0 => Zpos mx | Zpos _ => _ | Zneg _ => 0 end).
    assert (Hm' : 0 <= m').
    { subst m'. destruct (_ - _); [lia | apply Z.shiftl_nonneg; lia | lia]. }
    pose proof (div_eucl_quotient_nonneg m' (Zpos my) Hm' eq_refl) as Hq.
    destruct (Z.div_eucl m' (Zpos my)) as [q r]. cbn [fst] in Hq.
    apply has_sign_false_leb, binary_round_aux_sign, Hq.
Qed.

Lemma SFmul_nonneg (prec emax : Z) (x : spec_float) (my : positive) (ey : Z) :
  SFleb (S754_zero false) x = true ->
  SFleb (S754_zero false) (SFmul prec emax x (S754_finite false my ey)) = true.
Proof.
  destruct x as [s | s | | s mx ex]; cbn [SFmul]; intros Hx.
  - reflexivity.
  - destruct s; [discriminate | reflexivity].
  - discriminate.
  - destruct s; [discriminate|]. cbn [xorb].
    apply has_sign_false_leb, binary_round_aux_sign. lia.
Qed.

Lemma binary_normalize_nonneg (prec emax m e : Z) :
  0 <= m -> SFleb (S754_zero false) (binary_normalize prec emax m e false) = true.
Proof.
  intros Hm. destruct m as [|p|p]; cbn [binary_normalize]; [reflexivity | | lia].
  apply has_sign_false_leb, binary_round_sign.
Qed.

(** The difference of two positive binary64 floats in decreasing order is
    zero or positive. *)
Lemma SF64sub_nonneg (mp : positive) (ep : Z) (mm : positive) (em : Z) :
  valid_binary (S754_finite false mp ep) = true ->
  valid_binary (S754_finite false mm em) = true ->
  SFleb (S754_finite false mm em) (S754_finite false mp ep) = true ->
  SFleb (S754_zero false)
    (SF64sub (S754_finite false mp ep) (S754_finite false mm em)) = true.
Proof.
  intros Vp Vm Hle.
  unfold SF64sub, SFsub. cbn [cond_Zopp]. apply binary_normalize_nonneg.
  unfold SFleb, SFcompare in Hle.
  destruct (Z.compare_spec em ep) as [Heq | Hlt | Hgt].
  - subst em. rewrite Z.min_id, !shl_align_same. cbn [fst].
    change (Pos.compare_cont Eq mm mp) with (Pos.compare mm mp) in Hle.
    destruct (Pos.compare_spec mm mp) as [-> | H | H]; [lia | lia | discriminate].
  - rewrite Z.min_r by lia. rewrite shl_align_same. cbn [fst].
    unfold shl_align. destruct (em - ep) as [|d|d] eqn:Ed; [lia | lia |].
    cbn [fst]. rewrite iter_xO_pow2.
    destruct (canonical_digits _ _ Vm) as (Hdp & Hep & _).
    destruct (canonical_digits _ _ Vp) as (_ & _ & Hdm).
    specialize (Hdm ltac:(lia)).
    pose proof (digits2_pos_bounds mm) as [_ Hmp].
    pose proof (digits2_pos_bounds mp) as [Hmm _].
    rewrite Hdm in Hmm.
    assert (Hpow : 2 ^ Zpos (digits2_pos mm) <= 2 ^ 53)
      by (apply Z.pow_le_mono_r; lia).
    assert (Hd : 2 ^ 1 <= 2 ^ Zpos d) by (apply Z.pow_le_mono_r; lia).
    change (2 ^ 1) with 2 in Hd. change (2 ^ (53 - 1)) with 4503599627370496 in Hmm.
    change (2 ^ 53) with 9007199254740992 in Hpow.
    nia.
  - discriminate.
Qed.

(** The change from a positive base to a positive price that is not below it
    is zero or positive. *)
Lemma change_nonneg (p m : float) :
  positive_price p = true -> positive_price m = true ->
  (m <=? p)%float = true ->
  (0 <=? (p - m) / m * 100)%float = true.
Proof.
  intros Hp Hm Hle.
  destruct (positive_price_spec p Hp) as (mp & ep & Ep).
  destruct (positive_price_spec m Hm) as (mm & em & Em).
  destruct Prim2SF_hundred as (mh & eh & Eh).
  rewrite leb_spec, Prim2SF_zero.
  rewrite mul_spec, div_spec, sub_spec, Ep, Em, Eh.
  apply SFmul_nonneg, SFdiv_nonneg, SF64sub_nonneg.
  - rewrite <- Ep. apply Prim2SF_valid.
  - rewrite <- Em. apply Prim2SF_valid.
  - rewrite <- Ep, <- Em, <- leb_spec. exact Hle.
Qed.

(** The change of a positive price from itself is the float zero. *)
Lemma change_from_itself (p : float) :
  positive_price p = true -> ((p - p) / p * 100)%float = 0%float.
Proof.
  intros Hp.
  destruct (positive_price_spec p Hp) as (mp & ep & Ep).
  destruct Prim2SF_hundred as (mh & eh & Eh).
  apply Prim2SF_inj.
  rewrite mul_spec, div_spec, sub_spec, Ep, Eh, Prim2SF_zero.
  unfold SF64sub, SFsub. cbn [cond_Zopp].
  rewrite Z.sub_diag. cbn [binary_normalize].
  reflexivity.
Qed.

Lemma positive_price_nonzero (p : float) :
  positive_price p = true -> fneb p 0 = true.
Proof.
  intros Hp. destruct (positive_price_spec p Hp) as (mp & ep & Ep).
  unfold fneb. rewrite eqb_spec, Ep, Prim2SF_zero. reflexivity.
Qed.

(** X11: for positive, finite prices the sign of [safe_return] is the
    direction of the move: zero or negative when the current price is not
    above the base, zero or positive when it is not below, and exactly zero
    against a base equal to it. *)
Theorem return_sign_follows_price_move (current base : float) :
  positive_price current = true ->
  positive_price base = true ->
  ((current <=? base)%float = true ->
   (safe_return current base <=? 0)%float = true)
  /\ ((base <=? current)%float = true ->
      (0 <=? safe_return current base)%float = true)
  /\ safe_return base base = 0%float.
Proof.
  intros Hc Hb. unfold safe_return.
  rewrite (positive_price_nonzero base Hb).
  split; [|split].
  - intros Hle. now apply drawdown_nonpos.
  - intros Hle. now apply change_nonneg.
  - now apply change_from_itself.
Qed.

(** ** Volatility is never negative *)

Lemma SFsqrt_not_negative (prec emax : Z) (x : spec_float) :
  SFltb (SFsqrt prec emax x) (S754_zero false) = false.
Proof.
  destruct x as [s | s | | s m e]; cbn [SFsqrt].
  - reflexivity.
  - destruct s; reflexivity.
  - reflexivity.
  - destruct s; [reflexivity|].
    unfold SFsqrt_core_binary.
    set (m' := match _ - _ with Z0 => Zpos m | Zpos _ => _ | Zneg _ => 0 end).
    pose proof (Z.sqrtrem_sqrt m') as Hq.
    pose proof (Z.sqrt_nonneg m') as Hs.
    destruct (Z.sqrtrem m') as [q r]. cbn [fst] in Hq. subst q.
    apply has_sign_false_not_ltb, binary_round_aux_sign, Hs.
Qed.

Lemma SFmul_not_negative (prec emax : Z) (x : spec_float) (my : positive) (ey : Z) :
  SFltb x (S754_zero false) = false ->
  SFltb (SFmul prec emax x (S754_finite false my ey)) (S754_zero false) = false.
Proof.
  destruct x as [s | s | | s mx ex]; cbn [SFmul]; intros Hx.
  - reflexivity.
  - destruct s; [discriminate | reflexivity].
  - reflexivity.
  - destruct s; [discriminate|]. cbn [xorb].
    apply has_sign_false_not_ltb, binary_round_aux_sign. lia.
Qed.

Lemma Prim2SF_sqrt_252 : exists m e, Prim2SF (sqrt 252) = S754_finite false m e.
Proof. do 2 eexists. vm_compute. reflexivity. Qed.

Lemma std_not_negative (l : list float) : (std l <? 0)%float = false.
Proof.
  rewrite ltb_spec, Prim2SF_zero. unfold std.
  destruct (_ <=? 1)%nat; [reflexivity|].
  rewrite sqrt_spec. apply SFsqrt_not_negative.
Qed.

Lemma window_volatility_not_negative (prices : list float) (days : Z) :
  (window_volatility prices days <? 0)%float = false.
Proof.
  unfold window_volatility.
  destruct (len _ <? 2); [reflexivity|].
  destruct Prim2SF_hundred as (mh & eh & Eh).
  destruct Prim2SF_sqrt_252 as (ms & es & Es).
  rewrite ltb_spec, Prim2SF_zero, !mul_spec, Eh, Es.
  apply SFmul_not_negative, SFmul_not_negative.
  rewrite <- Prim2SF_zero, <- ltb_spec. apply std_not_negative.
Qed.

(** X12: none of the three volatilities of [calculate_volatility_and_mdd]
    is negative, whatever the series holds: each is zero, positive or a
    NaN. *)
Theorem volatilities_are_never_negative (price_series : series) :
  let '(ultra_short, short, long, _) :=
    calculate_volatility_and_mdd price_series in
  (ultra_short <? 0)%float = false
  /\ (short <? 0)%float = false
  /\ (long <? 0)%float = false.
Proof.
  unfold calculate_volatility_and_mdd.
  destruct (len price_series <? 2); [repeat split|].
  repeat split; apply window_volatility_not_negative.
Qed.

(** ** A series that never falls *)

Lemma fleb_antisym_positive (a b : float) :
  positive_price a = true -> positive_price b = true ->
  (a <=? b)%float = true -> (a <? b)%float = false -> a = b.
Proof.
  intros Ha Hb.
  destruct (positive_price_spec a Ha) as (ma & ea & Ea).
  destruct (positive_price_spec b Hb) as (mb & eb & Eb).
  rewrite leb_spec, ltb_spec, Ea, Eb. unfold SFleb, SFltb. cbn.
  intros Hle Hlt. apply Prim2SF_inj. rewrite Ea, Eb.
  change (Pos.compare_cont Eq ma mb) with (Pos.compare ma mb) in *.
  destruct (Z.compare_spec ea eb) as [-> | H | H]; try discriminate.
  destruct (Pos.compare_spec ma mb) as [-> | H | H]; try discriminate.
  reflexivity.
Qed.

Lemma fmax_rising (a b : float) :
  positive_price a = true -> positive_price b = true ->
  (a <=? b)%float = true -> fmax a b = b.
Proof.
  intros Ha Hb Hle. unfold fmax.
  destruct (a <? b)%float eqn:E; [reflexivity|].
  now apply fleb_antisym_positive.
Qed.

Lemma cummax_from_rising (prices : list float) :
  Forall (fun p => positive_price p = true) prices ->
  forall m,
    rising (match m with None => prices | Some y => y :: prices end) ->
    match m with None => True | Some y => positive_price y = true end ->
    cummax_from m prices = prices.
Proof.
  induction 1 as [|x r Hx _ IH]; intros m Hs Hm; cbn [cummax_from];
    [reflexivity|].
  rewrite (positive_not_nan x Hx).
  destruct m as [y|].
  - inversion Hs as [|? ? Hs' Hd]; subst.
    inversion Hd as [|? ? Hle]; subst.
    change (if (y <? x)%float then x else y) with (fmax y x).
    rewrite (fmax_rising y x Hm Hx Hle).
    f_equal. apply (IH (Some x)); assumption.
  - f_equal. apply (IH (Some x)); assumption.
Qed.

Lemma drawdown_of_itself (prices : list float) :
  Forall (fun p => positive_price p = true) prices ->
  Forall (fun x => x = 0%float) (drawdown_of prices prices).
Proof.
  induction 1 as [|x r Hx _ IH]; cbn [drawdown_of]; constructor;
    [now apply change_from_itself | exact IH].
Qed.

Lemma nanmin_zeros (l : list float) :
  l <> [] -> Forall (fun x => x = 0%float) l -> nanmin l = 0%float.
Proof.
  intros Hne Hall. unfold nanmin. rewrite dropna_no_nan.
  - destruct l as [|x r]; [congruence|].
    inversion Hall; subst.
    now apply (fold_fmin_invariant (fun x => x = 0%float)).
  - eapply Forall_impl; [|exact Hall]. intros x ->. reflexivity.
Qed.

Lemma fold_fmax_rising (r : list float) (c : float) :
  forall x,
    positive_price x = true ->
    Forall (fun p => positive_price p = true) (r ++ [c]) ->
    rising (x :: r ++ [c]) ->
    fold_left fmax (r ++ [c]) x = c.
Proof.
  induction r as [|y r IH]; intros x Hx Hr Hs; cbn [app fold_left] in *;
    inversion Hr as [|? ? Hy Hr']; subst;
    inversion Hs as [|? ? Hs' Hd]; subst;
    inversion Hd as [|? ? Hle]; subst.
  - now apply fmax_rising.
  - rewrite (fmax_rising x y Hx Hy Hle). now apply IH.
Qed.

Lemma rising_skipn (n : nat) (l : list float) : rising l -> rising (skipn n l).
Proof.
  revert l. induction n as [|n IH]; intros l Hs; [exact Hs|].
  destruct l as [|x r]; [exact Hs|].
  cbn [skipn]. apply IH. now inversion Hs.
Qed.

Lemma nanmax_rising (front : list float) (c : float) :
  Forall (fun p => positive_price p = true) (front ++ [c]) ->
  rising (front ++ [c]) ->
  nanmax (front ++ [c]) = c.
Proof.
  intros Hpos Hs. unfold nanmax. rewrite dropna_no_nan.
  - destruct front as [|x r]; [reflexivity|].
    cbn [app] in *. inversion Hpos as [|? ? Hx Hr]; subst.
    now apply fold_fmax_rising.
  - eapply Forall_impl; [|exact Hpos]. intros x. apply positive_not_nan.
Qed.

(** X13: a series of at least two positive, finite closes that never
    falls from one observation to the next has a maximum drawdown of exactly
    zero and a drawdown from the 52-week high of exactly zero. *)
Theorem rising_series_has_no_drawdown (price_series : series) :
  2 <= len price_series ->
  Forall (fun p => positive_price p = true) (values price_series) ->
  rising (values price_series) ->
  (let '(_, _, _, mdd) := calculate_volatility_and_mdd price_series in
   mdd = 0%float)
  /\ calculate_52week_high_drawdown price_series = 0%float.
Proof.
  intros Hlen Hpos Hs.
  assert (Hlt : (len price_series <? 2) = false) by (apply Z.ltb_ge; lia).
  assert (Hv : len (values price_series) = len price_series)
    by (unfold values; apply len_map).
  split.
  - unfold calculate_volatility_and_mdd. rewrite Hlt.
    unfold max_drawdown, cummax.
    rewrite (cummax_from_rising _ Hpos None Hs I).
    apply nanmin_zeros; [|now apply drawdown_of_itself].
    destruct (values price_series) as [|x r]; [cbn in Hv; lia | discriminate].
  - unfold calculate_52week_high_drawdown. rewrite Hlt.
    destruct (@exists_last _ (values price_series)) as (front & c & E).
    { intros E. rewrite E in Hv. cbn in Hv. lia. }
    rewrite E in *.
    rewrite iloc_last_app. cbn [bind].
    assert (Hc : positive_price c = true).
    { apply Forall_app in Hpos as [_ Hc]. now inversion Hc. }
    destruct (tail_keeps_last front c (Z.min 252 (len (front ++ [c]))))
      as (front' & Et & Hin); [lia|].
    rewrite Et.
    assert (Hpos' : Forall (fun p => positive_price p = true) (front' ++ [c])).
    { apply Forall_app. split; [|now repeat constructor].
      apply Forall_forall. intros x Hx.
      apply Forall_app in Hpos as [Hf _].
      rewrite Forall_forall in Hf. apply Hf, Hin, Hx. }
    assert (Hs' : rising (front' ++ [c])).
    { rewrite <- Et. unfold tail. now apply rising_skipn. }
    rewrite (nanmax_rising front' c Hpos' Hs').
    now apply change_from_itself.
Qed.

(** ** The batch *)

Lemma calculate_returns_length (clk : clock) (s : series) :
  List.length (calculate_returns clk s)
  = if len s <? 2 then 18%nat else 17%nat.
Proof.
  unfold calculate_returns, calculate_returns_body.
  destruct (len s <? 2); [reflexivity|].
  destruct (compute_locals clk s); reflexivity.
Qed.

Lemma ticker_row_length (clk : clock) (price_data : price_table)
  (ticker : string) :
  List.length (ticker_row clk price_data ticker)
  = if has_two_observations price_data ticker then 17%nat else 18%nat.
Proof.
  unfold ticker_row, has_two_observations.
  destruct (ticker_data price_data ticker) as [s|]; [|reflexivity].
  unfold empty. destruct (Z.eqb_spec (len s) 0) as [E | E].
  - rewrite E. reflexivity.
  - rewrite calculate_returns_length.
    destruct (Z.ltb_spec (len s) 2), (Z.leb_spec 2 (len s)); try lia; reflexivity.
Qed.

Lemma ticker_row_short (clk : clock) (price_data : price_table)
  (ticker : string) :
  has_two_observations price_data ticker = false ->
  ticker_row clk price_data ticker = insufficient_data_row clk.
Proof.
  unfold ticker_row, has_two_observations.
  destruct (ticker_data price_data ticker) as [s|]; [|reflexivity].
  intros H. apply Z.leb_gt in H.
  destruct (empty s); [reflexivity|].
  now apply calculate_returns_insufficient.
Qed.

Lemma next_all_spec (its : list row) :
  match next_all its with
  | Some (xs, its') =>
      Forall (fun r => r <> []) its
      /\ xs = map (fun r => nth 0 r (Num 0)) its
      /\ its' = map (@tl pyval) its
  | None => Exists (fun r => r = []) its
  end.
Proof.
  induction its as [|it rest IH]; cbn [next_all].
  - repeat split. constructor.
  - destruct it as [|x it']; [now constructor|].
    destruct (next_all rest) as [[xs rest']|].
    + destruct IH as (H1 & H2 & H3). subst. repeat split.
      constructor; [discriminate | exact H1].
    + now apply Exists_cons_tl.
Qed.

(** The columns of [zip_rounds]: column [k] holds entry [k] of every tuple. *)
Lemma zip_rounds_nth (rounds : nat) :
  forall (its : list row) (k : nat),
    (k < rounds)%nat ->
    Forall (fun r => (k < List.length r)%nat) its ->
    nth_error (zip_rounds rounds its) k
    = Some (map (fun r => nth k r (Num 0)) its).
Proof.
  induction rounds as [|rounds IH]; intros its k Hk Hall; [lia|].
  cbn [zip_rounds].
  pose proof (next_all_spec its) as Hn.
  destruct (next_all its) as [[xs its']|].
  - destruct Hn as (_ & -> & ->).
    destruct k as [|k]; [reflexivity|].
    cbn [nth_error]. rewrite IH.
    + rewrite map_map. f_equal. apply map_ext.
      intros [|x r]; [now destruct k | reflexivity].
    + lia.
    + rewrite Forall_map. eapply Forall_impl; [|exact Hall].
      intros [|x r]; cbn [List.length tl]; lia.
  - exfalso. rewrite Exists_exists in Hn. destruct Hn as (r & Hin & ->).
    rewrite Forall_forall in Hall. specialize (Hall _ Hin). cbn in Hall. lia.
Qed.

(** There are no more columns than the shortest tuple has entries. *)
Lemma zip_rounds_length_le (rounds : nat) :
  forall (its : list row) (r : row),
    In r its -> (List.length (zip_rounds rounds its) <= List.length r)%nat.
Proof.
  induction rounds as [|rounds IH]; intros its r Hin; cbn [zip_rounds];
    [cbn; lia|].
  pose proof (next_all_spec its) as Hn.
  destruct (next_all its) as [[xs its']|]; [|cbn; lia].
  destruct Hn as (Hne & _ & ->).
  rewrite Forall_forall in Hne. specialize (Hne _ Hin).
  destruct r as [|x r']; [congruence|].
  cbn [List.length]. apply le_n_S. apply IH.
  apply in_map_iff. exists (x :: r'). split; [reflexivity | exact Hin].
Qed.

Lemma zip_star_length (results : list row) (n : nat) :
  results <> [] ->
  Forall (fun r => (n <= List.length r)%nat) results ->
  Exists (fun r => List.length r = n) results ->
  List.length (zip_star results) = n.
Proof.
  intros Hne Hall Hex. destruct results as [|first rest]; [congruence|].
  unfold zip_star.
  apply Nat.le_antisymm.
  - rewrite Exists_exists in Hex. destruct Hex as (r & Hin & <-).
    now apply zip_rounds_length_le.
  - destruct n as [|n]; [lia|].
    assert (H : nth_error (zip_rounds (S (List.length first)) (first :: rest)) n
                <> None).
    { rewrite zip_rounds_nth; [discriminate | |].
      - inversion Hall; subst. lia.
      - eapply Forall_impl; [|exact Hall]. cbn. intros; lia. }
    apply nth_error_Some in H. lia.
Qed.

Lemma zip_star_nth (results : list row) (k : nat) :
  results <> [] ->
  Forall (fun r => (k < List.length r)%nat) results ->
  nth_error (zip_star results) k
  = Some (map (fun r => nth k r (Num 0)) results).
Proof.
  intros Hne Hall. destruct results as [|first rest]; [congruence|].
  unfold zip_star. apply zip_rounds_nth; [|exact Hall].
  inversion Hall; subst. lia.
Qed.

Lemma results_bounds (clk : clock) (price_data : price_table)
  (tickers : list string) :
  Forall (fun r => (17 <= List.length r)%nat)
    (map (ticker_row clk price_data) tickers).
Proof.
  rewrite Forall_map. apply Forall_forall. intros t _.
  rewrite ticker_row_length. destruct (has_two_observations _ _); lia.
Qed.

Lemma zip_star_results_length (clk : clock) (price_data : price_table)
  (tickers : list string) :
  tickers <> [] ->
  List.length (zip_star (map (ticker_row clk price_data) tickers))
  = if existsb (has_two_observations price_data) tickers
    then 17%nat else 18%nat.
Proof.
  intros Hne.
  assert (Hne' : map (ticker_row clk price_data) tickers <> [])
    by (destruct tickers; [congruence | discriminate]).
  destruct (existsb _ tickers) eqn:E.
  - apply zip_star_length; [exact Hne' | apply results_bounds |].
    apply existsb_exists in E as (t & Hin & Ht).
    apply Exists_exists. exists (ticker_row clk price_data t). split.
    + now apply in_map.
    + now rewrite ticker_row_length, Ht.
  - assert (Hall : forall t, In t tickers ->
                     has_two_observations price_data t = false).
    { intros t Hin. destruct (has_two_observations price_data t) eqn:Ht;
        [|reflexivity].
      rewrite <- E. symmetry. apply existsb_exists. now exists t. }
    apply zip_star_length; [exact Hne' | |].
    + rewrite Forall_map. apply Forall_forall. intros t Hin.
      now rewrite ticker_row_length, (Hall t Hin).
    + destruct tickers as [|t rest]; [congruence|].
      cbn [map]. apply Exists_cons_hd.
      rewrite ticker_row_length, (Hall t); [reflexivity | now left].
Qed.

Lemma process_etf_data_cases (clk : clock) (tickers : list string)
  (price_data : price_table) :
  tickers <> [] ->
  process_etf_data clk (Some tickers) (Some price_data)
  = if existsb (has_two_observations price_data) tickers
    then Some (combine assigned_columns
                 (zip_star (map (ticker_row clk price_data) tickers)))
    else None.
Proof.
  intros Hne. unfold process_etf_data.
  assert (He : empty tickers = false).
  { unfold empty. apply Z.eqb_neq. destruct tickers; [congruence|].
    rewrite len_cons. pose proof (len_nonneg tickers). lia. }
  rewrite He. cbv zeta. unfold unpack.
  rewrite (zip_star_results_length clk price_data tickers Hne).
  destruct (existsb _ tickers); reflexivity.
Qed.

(** X14: [process_etf_data] returns a table exactly when both loads
    succeeded and some ticker has a column of at least two observations.  In
    particular a batch in which every ticker has fewer than two observations
    returns [None]: all its tuples have 18 entries, and unpacking their 18
    columns into the 17 targets raises. *)
Theorem process_etf_data_needs_a_ticker_with_two_observations
  (clk : clock) (df : option (list string)) (price_data : option price_table) :
  process_etf_data clk df price_data <> None
  <-> exists tickers table ticker,
        df = Some tickers /\ price_data = Some table
        /\ In ticker tickers
        /\ has_two_observations table ticker = true.
Proof.
  split.
  - intros H. destruct df as [tickers|]; [|now contradiction H].
    destruct price_data as [table|].
    + destruct tickers as [|t rest]; [now contradiction H|].
      rewrite process_etf_data_cases in H by discriminate.
      destruct (existsb _ (t :: rest)) eqn:E; [|now contradiction H].
      apply existsb_exists in E as (ticker & Hin & Ht).
      now exists (t :: rest), table, ticker.
    + unfold process_etf_data in H. destruct (empty tickers); now contradiction H.
  - intros (tickers & table & ticker & -> & -> & Hin & Ht).
    rewrite process_etf_data_cases by (destruct tickers; [contradiction | discriminate]).
    assert (E : existsb (has_two_observations table) tickers = true)
      by (apply existsb_exists; now exists ticker).
    rewrite E. discriminate.
Qed.

Lemma combine_nth_error {A B : Type} (l : list A) (l' : list B) (k : nat)
  (a : A) (b : B) :
  nth_error l k = Some a -> nth_error l' k = Some b ->
  nth_error (combine l l') k = Some (a, b).
Proof.
  revert l l'. induction k as [|k IH]; intros [|x l] [|y l']; cbn;
    try discriminate.
  - now intros [= ->] [= ->].
  - apply IH.
Qed.

Lemma process_etf_data_table (clk : clock) (df : option (list string))
  (price_data : option price_table) (table : list (string * list pyval)) :
  process_etf_data clk df price_data = Some table ->
  exists tickers prices,
    df = Some tickers /\ price_data = Some prices /\ tickers <> []
    /\ table = combine assigned_columns
                 (zip_star (map (ticker_row clk prices) tickers))
    /\ List.length (zip_star (map (ticker_row clk prices) tickers)) = 17%nat.
Proof.
  intros H. destruct df as [tickers|]; [|discriminate].
  destruct price_data as [prices|];
    [|unfold process_etf_data in H; destruct (empty tickers); discriminate].
  destruct tickers as [|t rest]; [discriminate|].
  pose proof (zip_star_results_length clk prices (t :: rest) ltac:(discriminate))
    as Hlen.
  rewrite process_etf_data_cases in H by discriminate.
  destruct (existsb _ (t :: rest)); [|discriminate].
  injection H as <-.
  exists (t :: rest), prices. repeat split; try reflexivity; try discriminate.
  exact Hlen.
Qed.

Lemma table_cell (clk : clock) (prices : price_table) (tickers : list string)
  (k i : nat) (name ticker : string) :
  tickers <> [] ->
  nth_error assigned_columns k = Some name ->
  nth_error tickers i = Some ticker ->
  exists cells,
    nth_error (combine assigned_columns
                 (zip_star (map (ticker_row clk prices) tickers))) k
    = Some (name, cells)
    /\ List.length cells = List.length tickers
    /\ nth_error cells i = nth_error (ticker_row clk prices ticker) k.
Proof.
  intros Hne Hname Hticker.
  assert (Hk : (k < 17)%nat).
  { apply (proj1 (nth_error_Some assigned_columns k)). congruence. }
  assert (Hcol : nth_error (zip_star (map (ticker_row clk prices) tickers)) k
                 = Some (map (fun r => nth k r (Num 0))
                           (map (ticker_row clk prices) tickers))).
  { apply zip_star_nth; [destruct tickers; [congruence | discriminate]|].
    eapply Forall_impl; [|apply results_bounds]. cbn. intros; lia. }
  exists (map (fun r => nth k r (Num 0)) (map (ticker_row clk prices) tickers)).
  split; [apply combine_nth_error; assumption|].
  split; [now rewrite !length_map|].
  rewrite map_map, nth_error_map, Hticker. cbn [option_map].
  symmetry. apply nth_error_nth'.
  rewrite ticker_row_length. destruct (has_two_observations _ _); lia.
Qed.

(** X15: in the table [process_etf_data] returns the assigned columns are
    the 17 targets in their order, every column has one cell per ticker, and
    the cell of column [k] for a ticker is entry [k] of the tuple computed
    for that ticker. *)
Theorem table_cell_is_field_of_ticker_tuple
  (clk : clock) (tickers : list string) (prices : price_table)
  (table : list (string * list pyval)) :
  process_etf_data clk (Some tickers) (Some prices) = Some table ->
  map fst table = assigned_columns
  /\ forall (k i : nat) (name ticker : string),
       nth_error assigned_columns k = Some name ->
       nth_error tickers i = Some ticker ->
       exists cells,
         nth_error table k = Some (name, cells)
         /\ List.length cells = List.length tickers
         /\ nth_error cells i = nth_error (ticker_row clk prices ticker) k.
Proof.
  intros H.
  destruct (process_etf_data_table _ _ _ _ H)
    as (tickers' & prices' & [= <-] & [= <-] & Hne & -> & Hlen).
  split.
  - set (columns := zip_star _) in *. clearbody columns.
    do 18 (destruct columns as [|? columns]; try discriminate Hlen).
    reflexivity.
  - intros k i name ticker Hname Hticker. now apply table_cell.
Qed.

Lemma column_of_nth (table : list (string * list pyval)) (k : nat)
  (name : string) (cells : list pyval) :
  NoDup (map fst table) ->
  nth_error table k = Some (name, cells) ->
  column_of table name = Some cells.
Proof.
  unfold column_of. revert k.
  induction table as [|[n c] table IH]; intros k Hnd Hk; [now destruct k|].
  cbn [find fst]. destruct k as [|k].
  - injection Hk as -> ->. now rewrite String.eqb_refl.
  - cbn [nth_error] in Hk. cbn [map fst] in Hnd. inversion Hnd as [|? ? Hnotin Hnd']; subst.
    destruct (String.eqb_spec n name) as [-> | Hneq].
    + exfalso. apply Hnotin. apply in_map_iff. exists (name, cells).
      split; [reflexivity | eapply nth_error_In; exact Hk].
    + eapply IH; eassumption.
Qed.

Lemma assigned_columns_NoDup : NoDup assigned_columns.
Proof.
  unfold assigned_columns.
  repeat (constructor; [cbn; intros H; repeat destruct H as [H | H]; try discriminate H; exact H|]).
  constructor.
Qed.

(** X16: in a table [process_etf_data] returns, a ticker with fewer than
    two observations has the number 0 in the column ['Base Date'], today's
    date in ['Weekly Base Date'] and ['Monthly Base Date'], and 0 as its
    close: its tuple has one zero more than there are numeric columns, and
    its third date is dropped. *)
Theorem short_ticker_gets_zero_as_base_date
  (clk : clock) (tickers : list string) (prices : price_table)
  (table : list (string * list pyval)) (i : nat) (ticker : string) :
  process_etf_data clk (Some tickers) (Some prices) = Some table ->
  nth_error tickers i = Some ticker ->
  has_two_observations prices ticker = false ->
  (exists cells, column_of table "Base Date" = Some cells
                 /\ nth_error cells i = Some (Num 0))
  /\ (exists cells, column_of table "Weekly Base Date" = Some cells
                    /\ nth_error cells i = Some (today_string clk))
  /\ (exists cells, column_of table "Monthly Base Date" = Some cells
                    /\ nth_error cells i = Some (today_string clk))
  /\ (exists cells, column_of table "Close" = Some cells
                    /\ nth_error cells i = Some (Num 0)).
Proof.
  intros H Hticker Hshort.
  destruct (process_etf_data_table _ _ _ _ H)
    as (tickers' & prices' & [= <-] & [= <-] & Hne & -> & Hlen).
  assert (Hnd : NoDup (map fst (combine assigned_columns
                  (zip_star (map (ticker_row clk prices) tickers))))).
  { set (columns := zip_star _) in *. clearbody columns.
    do 18 (destruct columns as [|? columns]; try discriminate Hlen).
    exact assigned_columns_NoDup. }
  pose proof (ticker_row_short clk prices ticker Hshort) as Hrow.
  assert (Hcell : forall k name,
            nth_error assigned_columns k = Some name ->
            exists cells,
              column_of (combine assigned_columns
                (zip_star (map (ticker_row clk prices) tickers))) name
              = Some cells
              /\ nth_error cells i = nth_error (insufficient_data_row clk) k).
  { intros k name Hname.
    destruct (table_cell clk prices tickers k i name ticker Hne Hname Hticker)
      as (cells & Hk & _ & Hi).
    exists cells. split; [eapply column_of_nth; eassumption|].
    now rewrite Hi, Hrow. }
  split; [exact (Hcell 14%nat _ eq_refl)|].
  split; [exact (Hcell 15%nat _ eq_refl)|].
  split; [exact (Hcell 16%nat _ eq_refl)|].
  exact (Hcell 0%nat _ eq_refl).
Qed.

(** ** The further theorems at concrete inputs *)

Lemma weekly_target_is_latest_friday_before_witness :
  Date.valid 738900
  /\ previous_week_target 738900 = Ok 738897
  /\ Date.weekday 738897 = 4.
Proof.
  assert (Hv : Date.valid 738900) by (unfold Date.valid, Date.MAXORDINAL; lia).
  split; [exact Hv|].
  pose proof (weekly_target_is_latest_friday_before 738900 Hv) as H.
  change (previous_week_target 738900) with (Ok (A := Date.date) 738897) in H.
  split; [reflexivity | exact (proj1 (proj2 H))].
Defined.

Lemma previous_week_day_is_latest_on_or_before_target_witness :
  StronglySorted Z.le (index_date last_year_series)
  /\ exists r,
      get_previous_week_last_trading_day 3652050 last_year_series = Ok r
      /\ r <= 3652045.
Proof.
  assert (Hs : StronglySorted Z.le (index_date last_year_series)).
  { change (index_date last_year_series) with [3652020; 3652050].
    repeat constructor. lia. }
  assert (Hlast : iloc (drop_duplicates (index_date last_year_series)) (-1)
                  = Ok 3652050) by reflexivity.
  assert (Ht : previous_week_target (clamp_to_last 3652050 3652050) = Ok 3652045)
    by reflexivity.
  assert (Hex : exists d, In d (index_date last_year_series) /\ d <= 3652045).
  { exists 3652020. split; [now left | lia]. }
  split; [exact Hs|].
  destruct (previous_week_day_is_latest_on_or_before_target
              3652050 last_year_series 3652050 3652045 Hs Hlast Ht Hex)
    as (r & Hr & _ & Hle & _).
  exists r. split; assumption.
Defined.

Lemma base_date_after_last_trading_day_is_clamped_witness :
  iloc (drop_duplicates (index_date three_day_series)) (-1) = Ok 738889
  /\ get_previous_week_last_trading_day 738900 three_day_series
     = get_previous_week_last_trading_day 738889 three_day_series.
Proof.
  assert (Hlast : iloc (drop_duplicates (index_date three_day_series)) (-1)
                  = Ok 738889) by reflexivity.
  split; [exact Hlast|].
  apply (base_date_after_last_trading_day_is_clamped
           738900 three_day_series 738889 Hlast).
  lia.
Defined.

Lemma last_trading_day_of_month_never_fails_witness :
  three_day_series <> []
  /\ exists r,
      get_last_trading_day_of_month 738800 three_day_series = Ok r
      /\ In r (index_date three_day_series).
Proof.
  assert (H : three_day_series <> []) by discriminate.
  split; [exact H|].
  destruct (last_trading_day_of_month_never_fails_on_nonempty_series
              738800 three_day_series H)
    as (r & first & Hr & _ & Hin & _).
  exists r. split; assumption.
Defined.

Lemma reference_closes_are_observed_closes_witness :
  2 <= len two_day_series
  /\ compute_locals after_close_clock two_day_series = Ok two_day_locals
  /\ observed_close two_day_series
       (weekly_base_date two_day_locals) (weekly_base_close two_day_locals).
Proof.
  assert (H : 2 <= len two_day_series) by (cbn; lia).
  assert (Hl : compute_locals after_close_clock two_day_series = Ok two_day_locals)
    by (vm_compute; reflexivity).
  split; [exact H|]. split; [exact Hl|].
  exact (proj1 (reference_closes_are_observed_closes
                  after_close_clock two_day_series two_day_locals H Hl)).
Defined.

Lemma monthly_base_is_latest_trading_day_of_previous_month_witness :
  compute_locals after_close_clock two_day_series = Ok two_day_locals
  /\ Date.valid (base_date two_day_locals)
  /\ In (monthly_base_date two_day_locals) (index_date two_day_series).
Proof.
  assert (Hl : compute_locals after_close_clock two_day_series = Ok two_day_locals)
    by (vm_compute; reflexivity).
  assert (Hv : Date.valid (base_date two_day_locals)).
  { change (base_date two_day_locals) with 738888.
    unfold Date.valid, Date.MAXORDINAL. lia. }
  assert (Hfeb : ~ (Date.year (base_date two_day_locals) = 1
                    /\ Date.month (base_date two_day_locals) = 2))
    by (intros [H _]; vm_compute in H; discriminate).
  split; [exact Hl|]. split; [exact Hv|].
  exact (proj1 (proj2 (proj2 (proj2
           (monthly_base_is_latest_trading_day_of_previous_month
              after_close_clock two_day_series two_day_locals Hl Hv Hfeb))))).
Defined.

Lemma ytd_base_is_latest_trading_day_of_previous_december_witness :
  compute_locals after_close_clock two_day_series = Ok two_day_locals
  /\ Date.valid (base_date two_day_locals)
  /\ In (ytd_base_date two_day_locals) (index_date two_day_series).
Proof.
  assert (Hl : compute_locals after_close_clock two_day_series = Ok two_day_locals)
    by (vm_compute; reflexivity).
  assert (Hv : Date.valid (base_date two_day_locals)).
  { change (base_date two_day_locals) with 738888.
    unfold Date.valid, Date.MAXORDINAL. lia. }
  split; [exact Hl|]. split; [exact Hv|].
  exact (proj1 (proj2 (proj2
           (ytd_base_is_latest_trading_day_of_previous_december
              after_close_clock two_day_series two_day_locals Hl Hv)))).
Defined.

Lemma trailing_window_measures_ignore_older_closes_witness :
  len flat_year_series = 252
  /\ calculate_52week_high_drawdown (two_day_series ++ flat_year_series)
     = calculate_52week_high_drawdown flat_year_series.
Proof.
  assert (H : len flat_year_series = 252) by reflexivity.
  split; [exact H|].
  exact (proj1 (trailing_window_measures_ignore_older_closes
                  two_day_series flat_year_series H)).
Defined.

Lemma return_sign_follows_price_move_witness :
  positive_price 110 = true
  /\ positive_price 100 = true
  /\ safe_return 100 100 = 0%float.
Proof.
  assert (Hc : positive_price 110 = true) by reflexivity.
  assert (Hb : positive_price 100 = true) by reflexivity.
  split; [exact Hc|]. split; [exact Hb|].
  exact (proj2 (proj2 (return_sign_follows_price_move 110 100 Hc Hb))).
Defined.

Lemma rising_series_has_no_drawdown_witness :
  2 <= len two_day_series
  /\ Forall (fun p => positive_price p = true) (values two_day_series)
  /\ rising (values two_day_series)
  /\ calculate_52week_high_drawdown two_day_series = 0%float.
Proof.
  assert (H : 2 <= len two_day_series) by (cbn; lia).
  assert (Hpos : Forall (fun p => positive_price p = true) (values two_day_series))
    by (repeat constructor).
  assert (Hs : rising (values two_day_series)) by (repeat constructor).
  split; [exact H|]. split; [exact Hpos|]. split; [exact Hs|].
  exact (proj2 (rising_series_has_no_drawdown two_day_series H Hpos Hs)).
Defined.

Lemma table_cell_is_field_of_ticker_tuple_witness :
  process_etf_data after_close_clock (Some example_tickers) (Some example_prices)
  = Some example_table
  /\ map fst example_table = assigned_columns.
Proof.
  assert (H : process_etf_data after_close_clock (Some example_tickers)
                (Some example_prices) = Some example_table)
    by (vm_compute; reflexivity).
  split; [exact H|].
  exact (proj1 (table_cell_is_field_of_ticker_tuple
                  after_close_clock example_tickers example_prices
                  example_table H)).
Defined.

Lemma short_ticker_gets_zero_as_base_date_witness :
  process_etf_data after_close_clock (Some example_tickers) (Some example_prices)
  = Some example_table
  /\ nth_error example_tickers 1 = Some "NEW"%string
  /\ has_two_observations example_prices "NEW" = false
  /\ exists cells, column_of example_table "Base Date" = Some cells
                   /\ nth_error cells 1 = Some (Num 0).
Proof.
  assert (H : process_etf_data after_close_clock (Some example_tickers)
                (Some example_prices) = Some example_table)
    by (vm_compute; reflexivity).
  assert (Ht : nth_error example_tickers 1 = Some "NEW"%string) by reflexivity.
  assert (Hshort : has_two_observations example_prices "NEW" = false)
    by reflexivity.
  split; [exact H|]. split; [exact Ht|]. split; [exact Hshort|].
  exact (proj1 (short_ticker_gets_zero_as_base_date
                  after_close_clock example_tickers example_prices
                  example_table 1 "NEW" H Ht Hshort)).
Defined.
